(** * Report generation and indexing engine: a shallow embedding

    The development follows the TypeScript sources of the report engine:
    - the Allure service ([AllureService]: ledger helpers, [generateReport],
      [getReportUrl], [cleanupOldReports], [getAllReports]);
    - the controller's catalog read path ([getReportsByProject]);
    - the dashboard flow [handleImportScriptAndGenerateReport].

    Node's [fs] module is modelled by a directory tree with explicit error
    codes; service code runs in a state-and-exception monad over a [World]
    that also carries the clock, the logger output, a schedule of injected
    I/O faults and the behaviour of the external [npx allure] command. *)

From Stdlib Require Import ZArith Lia Ascii String.
From stdpp Require Import base tactics option list gmap strings sorting pretty.

#[local] Set Warnings "-register-all".
#[local] Open Scope Z_scope.

(* ===================================================================== *)
(** ** JavaScript values used by the sources                              *)
(* ===================================================================== *)

Module Js.

(** Exceptions that the modelled code can see, tagged by their origin. *)
Inductive Errno := ENOENT | ENOTDIR | EISDIR | EEXIST | ENOTEMPTY | EIO.

Inductive Exn :=
| FsError (code : Errno) (syscall : string)   (* thrown by an [fs.*Sync] call *)
| ExecError (msg : string)                    (* thrown by [execSync] *)
| SyntaxError                                 (* thrown by [JSON.parse] *)
| Error (msg : string).                       (* [new Error(msg)] *)

Definition errno_name (c : Errno) : string :=
  match c with
  | ENOENT => "ENOENT: no such file or directory"
  | ENOTDIR => "ENOTDIR: not a directory"
  | EISDIR => "EISDIR: illegal operation on a directory"
  | EEXIST => "EEXIST: file already exists"
  | ENOTEMPTY => "ENOTEMPTY: directory not empty"
  | EIO => "EIO: i/o error"
  end.

(** [error.message] *)
Definition message (e : Exn) : string :=
  match e with
  | FsError c sc => errno_name c +:+ ", " +:+ sc
  | ExecError m => m
  | SyntaxError => "Unexpected token in JSON"
  | Error m => m
  end.

Definition is_fs_error (e : Exn) : bool :=
  match e with FsError _ _ => true | _ => false end.

(** Truthiness of a string: only the empty string is falsy. *)
Definition truthy (s : string) : bool :=
  match s with EmptyString => false | String _ _ => true end.

(** [a || b] on strings. *)
Definition or_else (a b : string) : string := if truthy a then a else b.

(** [a || b] when [a] may be [undefined]. *)
Definition opt_or_else (a : option string) (b : string) : string :=
  match a with Some s => or_else s b | None => b end.

(** [haystack.startsWith(needle)] *)
Fixpoint startsWith (needle haystack : string) : bool :=
  match needle, haystack with
  | EmptyString, _ => true
  | String a n', String b h' => if Ascii.eqb a b then startsWith n' h' else false
  | String _ _, EmptyString => false
  end.

(** [haystack.includes(needle)] *)
Fixpoint includes (needle haystack : string) : bool :=
  if startsWith needle haystack then true
  else match haystack with
       | EmptyString => false
       | String _ h' => includes needle h'
       end.

(** [s.endsWith(suffix)] *)
Definition endsWith (suffix s : string) : bool :=
  let n := String.length s in
  let k := String.length suffix in
  if (k <=? n)%nat then String.eqb (String.substring (n - k) k s) suffix else false.

(** [path.basename(f, ext)] for a name without separator (a directory
    entry): [f] without a trailing [ext]; the empty string when [f] is
    [ext] itself. *)
Definition basename (f ext : string) : string :=
  if endsWith ext f
  then String.substring 0 (String.length f - String.length ext) f
  else f.

(** [s.includes("/")]: the name holds a path separator. *)
Definition hasSeparator (s : string) : bool := includes "/" s.

(** A name that [path.join] takes as one segment and appends as it is: it
    holds no separator and is none of the empty string, ["."] and
    [".."], which the normalisation of [path.join] drops or resolves. *)
Definition segment (s : string) : bool :=
  negb (hasSeparator s) &&
  negb (String.eqb s EmptyString || String.eqb s "." || String.eqb s "..").

(** [s.split("/")] *)
Fixpoint split_sep (s : string) : list string :=
  match s with
  | EmptyString => [EmptyString]
  | String c s' =>
      if Ascii.eqb "/" c then EmptyString :: split_sep s'
      else match split_sep s' with
           | seg :: segs => String c seg :: segs
           | [] => [String c EmptyString]
           end
  end.

End Js.
Export Js.

(* ===================================================================== *)
(** ** File-system model                                                  *)
(* ===================================================================== *)

(** Timestamps are epoch milliseconds. *)
Definition Timestamp := Z.

(** One entry of a per-project ledger (the interface [ReportIndexEntry]). *)
Record ReportIndexEntry := {
  id : string;                       (* testRunId *)
  projectId : string;
  scriptId : option string;
  scriptName : option string;
  status : option string;
  startedAt : option Timestamp;
  completedAt : option Timestamp;
  reportUrl : string;
  createdAt : Timestamp;
}.

(** The raw result record written by [generateReport] when none exists. *)
Record AllureResult := {
  uuid : string;
  testCaseId : string;
  fullName : string;
  name : string;
  historyId : string;
  result_status : string;
  stage : string;
  start : Timestamp;
  stop : Timestamp;
  steps : list string;
}.

(** File contents are represented by what [JSON.parse] makes of them:
    text that is not JSON (an HTML page, a truncated ledger), a JSON array
    (of index entries, as the cast [as ReportIndexEntry[]] of the sources
    has it), or another JSON value (here: a result object). *)
Inductive FileData :=
| Raw (text : string)
| JsonArray (entries : list ReportIndexEntry)
| JsonObject (r : AllureResult).

Module Fs.

Record Stats := { mtimeMs : Timestamp; birthtime : Timestamp }.

Inductive node :=
| File (st : Stats) (data : FileData)
| Dir (st : Stats) (entries : gmap string node).

(** A path is the list of its segments below [process.cwd()], which is
    the root of the tree.  [join dir name] appends [name] as one segment:
    it is [path.join(dir, name)] for a name that is a segment (see
    [segment], and [path_join] for the general case); the names read from
    a directory are segments. *)
Definition path := list string.
Definition join (dir : path) (name : string) : path := dir ++ [name].

(** One step of the normalisation done by [path.join]: an empty segment
    and ["."] are dropped, [".."] leaves the directory reached so far.
    A path that leaves [process.cwd()] is outside the tree: [None]. *)
Definition enter (acc : option path) (seg : string) : option path :=
  match acc with
  | None => None
  | Some p =>
      if String.eqb seg EmptyString || String.eqb seg "." then Some p
      else if String.eqb seg ".."
           then match p with [] => None | _ :: _ => Some (take (length p - 1) p) end
           else Some (p ++ [seg])
  end.

(** [path.join(dir, name)] (POSIX) for a directory below [process.cwd()]
    and any name: the segments of [name] are entered one by one. *)
Definition path_join (dir : path) (name : string) : option path :=
  foldl enter (Some dir) (split_sep name).

Definition fresh (now : Timestamp) : Stats := {| mtimeMs := now; birthtime := now |}.
Definition touch (now : Timestamp) (st : Stats) : Stats :=
  {| mtimeMs := now; birthtime := birthtime st |}.

Definition stats_of (n : node) : Stats :=
  match n with File st _ => st | Dir st _ => st end.

Definition is_dir (n : option node) : bool :=
  match n with Some (Dir _ _) => true | _ => false end.
Definition is_file (n : option node) : bool :=
  match n with Some (File _ _) => true | _ => false end.

Fixpoint find_node (p : path) (n : node) : option node :=
  match p with
  | [] => Some n
  | s :: p' =>
      match n with
      | Dir _ es => match es !! s with Some c => find_node p' c | None => None end
      | File _ _ => None
      end
  end.

(** [mkdir -p]: creates every missing directory on the way; an existing
    directory is left alone; a file on the way is an error. *)
Fixpoint mkdirp (now : Timestamp) (p : path) (n : node) : Errno + node :=
  match n with
  | File _ _ => inl (match p with [] => EEXIST | _ :: _ => ENOTDIR end)
  | Dir st es =>
      match p with
      | [] => inr n
      | s :: p' =>
          match es !! s with
          | Some c =>
              match mkdirp now p' c with
              | inr c' => inr (Dir st (<[s:=c']> es))
              | inl e => inl e
              end
          | None =>
              match mkdirp now p' (Dir (fresh now) ∅) with
              | inr c' => inr (Dir (touch now st) (<[s:=c']> es))
              | inl e => inl e
              end
          end
      end
  end.

(** Create or overwrite a regular file; the parent must be a directory
    and the target must not be one. *)
Fixpoint write (now : Timestamp) (p : path) (d : FileData) (n : node) : Errno + node :=
  match p with
  | [] =>
      match n with
      | File st _ => inr (File (touch now st) d)
      | Dir _ _ => inl EISDIR
      end
  | s :: p' =>
      match n with
      | File _ _ => inl ENOTDIR
      | Dir st es =>
          match es !! s with
          | Some c =>
              match write now p' d c with
              | inr c' => inr (Dir st (<[s:=c']> es))
              | inl e => inl e
              end
          | None =>
              match p' with
              | [] => inr (Dir (touch now st) (<[s:=File (fresh now) d]> es))
              | _ :: _ => inl ENOENT
              end
          end
      end
  end.

(** Remove the node at [p] with everything below it; a missing path is
    not an error ([force: true]). *)
Fixpoint remove (now : Timestamp) (p : path) (n : node) : node :=
  match p with
  | [] => n
  | s :: p' =>
      match n with
      | File _ _ => n
      | Dir st es =>
          match es !! s with
          | None => n
          | Some c =>
              match p' with
              | [] => Dir (touch now st) (delete s es)
              | _ :: _ => Dir st (<[s:=remove now p' c]> es)
              end
          end
      end
  end.

(** Can [src] replace [dst] in a rename? *)
Definition replaces (src dst : node) : option Errno :=
  match src, dst with
  | File _ _, File _ _ => None
  | File _ _, Dir _ _ => Some EISDIR
  | Dir _ _, File _ _ => Some ENOTDIR
  | Dir _ _, Dir _ es => if decide (es = ∅) then None else Some ENOTEMPTY
  end.

(** Put [src] at [p], replacing what is there when [replaces] allows. *)
Fixpoint place (now : Timestamp) (p : path) (src : node) (n : node) : Errno + node :=
  match p with
  | [] =>
      match replaces src n with
      | None => inr src
      | Some e => inl e
      end
  | s :: p' =>
      match n with
      | File _ _ => inl ENOTDIR
      | Dir st es =>
          match es !! s with
          | Some c =>
              match place now p' src c with
              | inr c' => inr (Dir (match p' with [] => touch now st | _ => st end) (<[s:=c']> es))
              | inl e => inl e
              end
          | None =>
              match p' with
              | [] => inr (Dir (touch now st) (<[s:=src]> es))
              | _ :: _ => inl ENOENT
              end
          end
      end
  end.

Definition rename (now : Timestamp) (src dst : path) (n : node) : Errno + node :=
  match find_node src n with
  | None => inl ENOENT
  | Some x => place now dst x (remove now src n)
  end.

(** Names of the entries of the directory at [p]. *)
Definition readdir (p : path) (n : node) : Errno + list string :=
  match find_node p n with
  | None => inl ENOENT
  | Some (File _ _) => inl ENOTDIR
  | Some (Dir _ es) => inr (map_to_list es).*1
  end.

Definition stat (p : path) (n : node) : Errno + Stats :=
  match find_node p n with
  | None => inl ENOENT
  | Some x => inr (stats_of x)
  end.

Definition read (p : path) (n : node) : Errno + FileData :=
  match find_node p n with
  | None => inl ENOENT
  | Some (Dir _ _) => inl EISDIR
  | Some (File _ d) => inr d
  end.

End Fs.
Export Fs.

(* ===================================================================== *)
(** ** Worlds and the state-and-exception monad                           *)
(* ===================================================================== *)

Inductive Level := INFO | WARN | ERROR.

(** What [npx allure generate <results> -o <out> --clean] does to the tree,
    and the failure message when it does not exit with 0. *)
Definition AllureCli := path → path → node → option string * node.

Record World := {
  fs : node;                       (* the tree below process.cwd() *)
  clock : Timestamp;               (* Date.now() *)
  cwd : list string;               (* segments of process.cwd() *)
  faults : list bool;              (* injected I/O faults, one flag per fs call *)
  logs : list (Level * string);    (* logger output, oldest first *)
  allure_cli : AllureCli;
}.

Definition with_fs (t : node) (w : World) : World :=
  {| fs := t; clock := clock w; cwd := cwd w; faults := faults w;
     logs := logs w; allure_cli := allure_cli w |}.
Definition with_faults (fl : list bool) (w : World) : World :=
  {| fs := fs w; clock := clock w; cwd := cwd w; faults := fl;
     logs := logs w; allure_cli := allure_cli w |}.
Definition with_logs (l : list (Level * string)) (w : World) : World :=
  {| fs := fs w; clock := clock w; cwd := cwd w; faults := faults w;
     logs := l; allure_cli := allure_cli w |}.

Inductive Result (A : Type) :=
| Return (a : A)
| Throw (e : Exn).
Arguments Return {A} a.
Arguments Throw {A} e.

(** Computations over a state [S] that may throw. *)
Definition ST (S A : Type) : Type := S → Result A * S.

Definition ret {S A} (a : A) : ST S A := λ w, (Return a, w).
Definition throw {S A} (e : Exn) : ST S A := λ w, (Throw e, w).
Definition bind {S A B} (m : ST S A) (k : A → ST S B) : ST S B :=
  λ w, match m w with
       | (Return a, w') => k a w'
       | (Throw e, w') => (Throw e, w')
       end.
(** [try { m } catch (e) { h e }] *)
Definition try_catch {S A} (m : ST S A) (h : Exn → ST S A) : ST S A :=
  λ w, match m w with
       | (Return a, w') => (Return a, w')
       | (Throw e, w') => h e w'
       end.

(** Service code runs over a [World]. *)
Abbreviation M := (ST World).

Notation "'let*' x ':=' m 'in' k" := (bind m (λ x, k))
  (at level 10, x name, m at level 100, k at level 200, only parsing).
Notation "m ';;;' k" := (bind m (λ _, k))
  (at level 100, k at level 200, right associativity, only parsing).

Definition when {S} (b : bool) (m : ST S unit) : ST S unit := if b then m else ret tt.

(** *** Primitive calls *)

(** Every throwing [fs] call first consults the fault schedule. *)
Definition io_fault (syscall : string) : M unit :=
  λ w, match faults w with
       | [] => (Return tt, w)
       | false :: fl => (Return tt, with_faults fl w)
       | true :: fl => (Throw (FsError EIO syscall), with_faults fl w)
       end.

Definition fs_update (syscall : string) (f : Timestamp → node → Errno + node) : M unit :=
  io_fault syscall ;;;
  λ w, match f (clock w) (fs w) with
       | inr t => (Return tt, with_fs t w)
       | inl c => (Throw (FsError c syscall), w)
       end.

Definition fs_query {A} (syscall : string) (f : node → Errno + A) : M A :=
  io_fault syscall ;;;
  λ w, match f (fs w) with
       | inr a => (Return a, w)
       | inl c => (Throw (FsError c syscall), w)
       end.

(** [fs.existsSync] never throws. *)
Definition existsSync (p : path) : M bool :=
  λ w, (Return (if find_node p (fs w) is Some _ then true else false), w).

(** [fs.mkdirSync(p, { recursive: true })] *)
Definition mkdirSync (p : path) : M unit := fs_update "mkdir" (λ now, mkdirp now p).
Definition writeFileSync (p : path) (d : FileData) : M unit :=
  fs_update "open" (λ now, write now p d).
Definition renameSync (src dst : path) : M unit :=
  fs_update "rename" (λ now, rename now src dst).
(** [fs.rmSync(p, { recursive: true, force: true })] *)
Definition rmSync (p : path) : M unit := fs_update "rm" (λ now t, inr (remove now p t)).
Definition readFileSync (p : path) : M FileData := fs_query "open" (read p).
Definition readdirSync (p : path) : M (list string) := fs_query "scandir" (readdir p).
Definition statSync (p : path) : M Stats := fs_query "stat" (stat p).

Definition Date_now : M Timestamp := λ w, (Return (clock w), w).

Definition logger (lvl : Level) (msg : string) : M unit :=
  λ w, (Return tt, with_logs (logs w ++ [(lvl, msg)]) w).

(** [JSON.parse(raw)]: text that is not JSON raises a [SyntaxError]. *)
Definition JSON_parse (raw : FileData) : M FileData :=
  match raw with
  | Raw _ => throw SyntaxError
  | d => ret d
  end.

(** [execSync('npx allure generate "<results>" -o "<out>" --clean')] *)
Definition execSync_allure_generate (results out : path) : M unit :=
  λ w, match allure_cli w results out (fs w) with
       | (None, t) => (Return tt, with_fs t w)
       | (Some m, t) => (Throw (ExecError m), with_fs t w)
       end.

(** An absolute path as a string: ["/"] followed by the segments of
    [process.cwd()] and of [p], separated by ["/"]. *)
Definition path_string (w : World) (p : path) : string :=
  "/" +:+ String.concat "/" (cwd w ++ p).
Definition path_of (p : path) : M string := λ w, (Return (path_string w p), w).

(** A double quote, for the HTML templates. *)
Definition dq : string := String "034"%char EmptyString.

(* ===================================================================== *)
(** ** The Allure service                                                 *)
(* ===================================================================== *)

Fixpoint mapM {A B} (f : A → M B) (l : list A) : M (list B) :=
  match l with
  | [] => ret []
  | x :: l' =>
      let* y := f x in
      let* ys := mapM f l' in
      ret (y :: ys)
  end.

(** [for (const x of l) { f x }] *)
Fixpoint forEach {A} (f : A → M unit) (l : list A) : M unit :=
  match l with
  | [] => ret tt
  | x :: l' => f x ;;; forEach f l'
  end.

Module AllureService.

Definition ALLURE_RESULTS_DIR : path := ["allure-results"].
Definition ALLURE_REPORTS_DIR : path := ["allure-reports"].
(** File-backed index directory (per project JSON index) *)
Definition ALLURE_INDEX_DIR : path := join ALLURE_REPORTS_DIR "by-project".

Definition ensureDirectories : M unit :=
  (let* e := existsSync ALLURE_RESULTS_DIR in
   when (negb e) (mkdirSync ALLURE_RESULTS_DIR)) ;;;
  (let* e := existsSync ALLURE_REPORTS_DIR in
   when (negb e) (mkdirSync ALLURE_REPORTS_DIR)) ;;;
  (let* e := existsSync ALLURE_INDEX_DIR in
   when (negb e) (mkdirSync ALLURE_INDEX_DIR)).

(** ***** File-backed index helpers *)

Definition getProjectIndexPath (projectId : string) : path :=
  join ALLURE_INDEX_DIR (projectId +:+ ".json").

(** [`${filePath}.tmp`] *)
Definition tmpPathOf (projectId : string) : path :=
  join ALLURE_INDEX_DIR ((projectId +:+ ".json") +:+ ".tmp").

(** [Array.isArray(data) ? data : []] *)
Definition arrayOrEmpty (data : FileData) : list ReportIndexEntry :=
  match data with JsonArray l => l | _ => [] end.

Definition readProjectIndex (projectId : string) : M (list ReportIndexEntry) :=
  try_catch
    (let filePath := getProjectIndexPath projectId in
     let* e := existsSync filePath in
     if negb e then ret []
     else
       let* raw := readFileSync filePath in
       let* data := JSON_parse raw in
       ret (arrayOrEmpty data))
    (λ err,
       logger WARN ("Failed to read index for project " +:+ projectId +:+ ":") ;;;
       ret []).

(** De-duplicate by testRun id, then [unshift] the entry. *)
Definition upsert (entry : ReportIndexEntry) (current : list ReportIndexEntry)
  : list ReportIndexEntry :=
  entry :: filter (λ r, id r ≠ id entry) current.

(** The ledger as [appendProjectIndexEntry] reads it: the inner
    [try]/[catch] resets [current] to the empty list. *)
Definition readCurrent (projectId : string) : M (list ReportIndexEntry) :=
  let filePath := getProjectIndexPath projectId in
  let* e := existsSync filePath in
  if e then
    try_catch
      (let* raw := readFileSync filePath in
       let* parsed := JSON_parse raw in
       ret (arrayOrEmpty parsed))
      (λ e,
         logger WARN ("Index parse error for project " +:+ projectId +:+ ", resetting:") ;;;
         ret [])
  else ret [].

(** The body of the [try] of [appendProjectIndexEntry]. *)
Definition appendBody (projectId : string) (entry : ReportIndexEntry) : M unit :=
  let filePath := getProjectIndexPath projectId in
  let* current := readCurrent projectId in
  let current := upsert entry current in
  let tmpPath := tmpPathOf projectId in
  writeFileSync tmpPath (JsonArray current) ;;;
  renameSync tmpPath filePath.

Definition appendProjectIndexEntry (projectId : string) (entry : ReportIndexEntry) : M unit :=
  try_catch
    (appendBody projectId entry)
    (λ err, logger ERROR ("Failed to append index for project " +:+ projectId +:+ ":")).

Definition listAllProjectIndexes : M (list (string * list ReportIndexEntry)) :=
  try_catch
    (let* e := existsSync ALLURE_INDEX_DIR in
     if negb e then ret []
     else
       let* names := readdirSync ALLURE_INDEX_DIR in
       let files := filter (λ f, endsWith ".json" f = true) names in
       mapM (λ f,
               let projectId := basename f ".json" in
               let* entries := readProjectIndex projectId in
               ret (projectId, entries))
            files)
    (λ err, logger WARN "Failed to list project indexes:" ;;; ret []).

(** ***** Report generation *)

Definition minimalResult (testRunId : string) (t0 t1 : Timestamp) : AllureResult :=
  {| uuid := testRunId;
     testCaseId := testRunId;
     fullName := "Test Run " +:+ testRunId;
     name := "Test Run " +:+ testRunId;
     historyId := testRunId;
     result_status := "passed";
     stage := "finished";
     start := t0;
     stop := t1;
     steps := [] |}.

Definition basicHtml (testRunId : string) : string :=
  "<!DOCTYPE html>
<html>
<head>
  <title>Test Report - " +:+ testRunId +:+ "</title>
  <style>
    body { font-family: Arial, sans-serif; padding: 20px; background: #f5f5f5; }
    .container { max-width: 800px; margin: 0 auto; background: white; padding: 30px; border-radius: 8px; box-shadow: 0 2px 4px rgba(0,0,0,0.1); }
    .header { background: linear-gradient(135deg, #667eea 0%, #764ba2 100%); color: white; padding: 20px; border-radius: 5px; margin-bottom: 20px; }
    .header h1 { margin: 0; }
    .info { margin: 20px 0; }
    .info p { margin: 10px 0; padding: 10px; background: #f9f9f9; border-left: 4px solid #667eea; }
    .status { display: inline-block; padding: 5px 15px; background: #10b981; color: white; border-radius: 20px; font-weight: bold; }
  </style>
</head>
<body>
  <div class=" +:+ dq +:+ "container" +:+ dq +:+ ">
    <div class=" +:+ dq +:+ "header" +:+ dq +:+ ">
      <h1>Test Execution Report</h1>
    </div>
    <div class=" +:+ dq +:+ "info" +:+ dq +:+ ">
      <p><span class=" +:+ dq +:+ "status" +:+ dq +:+ ">âœ“ Generated</span></p>
      <p><strong>Test Run ID:</strong> " +:+ testRunId +:+ "</p>
      <p><strong>Report Type:</strong> Basic HTML Report</p>
      <p><em>Note: Allure CLI is not available. Install allure-commandline for full Allure reports.</em></p>
    </div>
  </div>
</body>
</html>".

Definition errorHtml (error : Exn) (testRunId : string) : string :=
  "<!DOCTYPE html>
<html>
<head>
  <title>Test Report - " +:+ testRunId +:+ "</title>
  <style>
    body { font-family: Arial, sans-serif; padding: 20px; }
    .container { max-width: 800px; margin: 0 auto; background: white; padding: 30px; border-radius: 8px; }
    .header { background: #667eea; color: white; padding: 20px; border-radius: 5px; }
    .error { color: #ef4444; padding: 10px; background: #fee2e2; border-radius: 5px; }
  </style>
</head>
<body>
  <div class=" +:+ dq +:+ "container" +:+ dq +:+ ">
    <div class=" +:+ dq +:+ "header" +:+ dq +:+ ">
      <h1>Test Execution Report</h1>
    </div>
    <div class=" +:+ dq +:+ "error" +:+ dq +:+ ">
      <p><strong>Error:</strong> " +:+ (or_else (message error) "Failed to generate report") +:+ "</p>
      <p><strong>Test Run ID:</strong> " +:+ testRunId +:+ "</p>
    </div>
  </div>
</body>
</html>".

Definition resultFileOf (testRunId : string) : path :=
  join ALLURE_RESULTS_DIR (testRunId +:+ "-result.json").
Definition reportPathOf (testRunId : string) : path :=
  join ALLURE_REPORTS_DIR testRunId.
Definition indexHtmlOf (testRunId : string) : path :=
  join (reportPathOf testRunId) "index.html".

(** The inner [try]/[catch] around [execSync]: the value of
    [useBasicReport] after it. *)
Definition tryAllureCli (reportPath : path) : M bool :=
  try_catch
    (execSync_allure_generate ALLURE_RESULTS_DIR reportPath ;;;
     let* ps := path_of reportPath in
     logger INFO ("Allure report generated successfully at: " +:+ ps) ;;;
     ret false)
    (λ execError,
       logger WARN ("Allure CLI generate failed, using basic HTML report: "
                    +:+ message execError) ;;;
       ret true).

(** Check if allure results exist for this test run; create a minimal
    result file if not. *)
Definition ensureResultFile (testRunId : string) : M unit :=
  let resultFile := resultFileOf testRunId in
  let* e := existsSync resultFile in
  when (negb e)
    (logger WARN ("No Allure results found for test run: " +:+ testRunId) ;;;
     let* t0 := Date_now in
     let* t1 := Date_now in
     writeFileSync resultFile (JsonObject (minimalResult testRunId t0 t1))).

(** [if (!fs.existsSync(reportPath)) fs.mkdirSync(reportPath, { recursive: true })] *)
Definition ensureReportDir (reportPath : path) : M unit :=
  let* e := existsSync reportPath in
  when (negb e) (mkdirSync reportPath).

(** If Allure CLI failed or for basic reports, create a simple HTML report. *)
Definition writeBasicReport (testRunId : string) (useBasicReport : bool) : M unit :=
  let reportPath := reportPathOf testRunId in
  let* hasIndex := existsSync (join reportPath "index.html") in
  when (useBasicReport || negb hasIndex)
    (let indexHtml := join reportPath "index.html" in
     writeFileSync indexHtml (Raw (basicHtml testRunId)) ;;;
     let* ps := path_of reportPath in
     logger INFO ("Basic HTML report generated at: " +:+ ps)).

(** The body of the outer [try] of [generateReport]. *)
Definition generatePrimary (testRunId : string) : M string :=
  ensureResultFile testRunId ;;;
  let reportPath := reportPathOf testRunId in
  ensureReportDir reportPath ;;;
  let* useBasicReport := tryAllureCli reportPath in
  writeBasicReport testRunId useBasicReport ;;;
  let* ps := path_of reportPath in
  logger INFO ("Report generated at: " +:+ ps) ;;;
  ret ps.

(** The [try] inside the outer [catch]: even on error, try to create a
    basic report. *)
Definition generateFallback (error : Exn) (testRunId : string) : M string :=
  let reportPath := reportPathOf testRunId in
  ensureReportDir reportPath ;;;
  let indexHtml := join reportPath "index.html" in
  writeFileSync indexHtml (Raw (errorHtml error testRunId)) ;;;
  path_of reportPath.

Definition generateReport (testRunId : string) : M string :=
  try_catch
    (generatePrimary testRunId)
    (λ error,
       logger ERROR "Error generating Allure report:" ;;;
       try_catch
         (generateFallback error testRunId)
         (λ fallbackError,
            logger ERROR "Even fallback report creation failed:" ;;;
            throw (Error (or_else (message error) "Failed to generate Allure report")))).

Definition reportUrlOf (testRunId : string) : string :=
  "/allure-reports/" +:+ testRunId +:+ "/index.html".

Definition getReportUrl (testRunId : string) : M string :=
  let reportPath := reportPathOf testRunId in
  let* e := existsSync reportPath in
  if e then ret (reportUrlOf testRunId) else ret EmptyString.

(** ***** Retention and enumeration *)

Definition cleanupOldReports (daysToKeep : Z) : M unit :=
  try_catch
    (let* now := Date_now in
     let maxAge := daysToKeep * 24 * 60 * 60 * 1000 in
     let* reports := readdirSync ALLURE_REPORTS_DIR in
     forEach
       (λ report,
          let reportPath := join ALLURE_REPORTS_DIR report in
          let* stats := statSync reportPath in
          when (maxAge <? now - mtimeMs stats)
            (rmSync reportPath ;;;
             logger INFO ("Cleaned up old Allure report: " +:+ report)))
       reports)
    (λ error, logger ERROR "Error cleaning up Allure reports:").

Record ReportInfo := {
  info_id : string;
  info_path : string;
  info_createdAt : Timestamp;
}.

Definition getAllReports : M (list ReportInfo) :=
  try_catch
    (let* reports := readdirSync ALLURE_REPORTS_DIR in
     mapM (λ report,
             let reportPath := join ALLURE_REPORTS_DIR report in
             let* stats := statSync reportPath in
             ret {| info_id := report;
                    info_path := "/allure-reports/" +:+ report +:+ "/index.html";
                    info_createdAt := birthtime stats |})
          reports)
    (λ error, logger ERROR "Error getting Allure reports:" ;;; ret []).

End AllureService.
Export AllureService.

(* ===================================================================== *)
(** ** The controller: catalog read path                                  *)
(* ===================================================================== *)

Module AllureController.

(** Rows of the tables ["TestRun"] and ["Script"]. *)
Record TestRunRow := {
  tr_id : string;
  tr_status : string;
  tr_startedAt : Timestamp;
  tr_completedAt : option Timestamp;
  tr_scriptId : string;
  tr_userId : string;
}.
Record ScriptRow := {
  s_id : string;
  s_name : string;
  s_projectId : option string;
}.
Record Database := {
  TestRun : list TestRunRow;
  Script : list ScriptRow;
  online : bool;               (* [db.query] rejects when the database is down *)
}.

(** A row of [TestRun tr JOIN Script s ON s.id = tr.scriptId]. *)
Record JoinedRow := {
  row_id : string;
  row_status : string;
  row_startedAt : Timestamp;
  row_completedAt : option Timestamp;
  script_name : string;
  project_id : option string;
  row_userId : string;
}.

Definition joinRows (db : Database) : list JoinedRow :=
  tr ← TestRun db;
  s ← filter (λ s, s_id s = tr_scriptId tr) (Script db);
  [ {| row_id := tr_id tr; row_status := tr_status tr;
       row_startedAt := tr_startedAt tr; row_completedAt := tr_completedAt tr;
       script_name := s_name s; project_id := s_projectId s;
       row_userId := tr_userId tr |} ].

(** [ORDER BY tr."completedAt" DESC NULLS LAST, tr."startedAt" DESC]:
    [a] may stand before [b]. *)
Definition orderBy (a b : JoinedRow) : bool :=
  match row_completedAt a, row_completedAt b with
  | Some ca, Some cb =>
      (cb <? ca) || ((ca =? cb) && (row_startedAt b <=? row_startedAt a))
  | Some _, None => true
  | None, Some _ => false
  | None, None => row_startedAt b <=? row_startedAt a
  end.

Definition Before (a b : JoinedRow) : Prop := orderBy a b = true.
#[export] Instance Before_dec a b : Decision (Before a b).
Proof. unfold Before. apply _. Defined.

(** [WHERE tr."userId" = $1 [AND s."projectId" = $2]] *)
Definition whereClause (userId : string) (projectId : option string) (r : JoinedRow) : bool :=
  String.eqb (row_userId r) userId &&
  match projectId with
  | Some p => match project_id r with Some q => String.eqb q p | None => false end
  | None => true
  end.

(** The fallback query with its filter and ordering. *)
Definition selectReports (db : Database) (userId : string) (projectId : option string)
  : list JoinedRow :=
  merge_sort Before (List.filter (whereClause userId projectId) (joinRows db)).

Definition db_query {A} (db : Database) (rows : list A) : M (list A) :=
  if online db then ret rows else throw (Error "connect ECONNREFUSED").

(** The caller-facing shape of a report. *)
Record ReportItem := {
  item_id : string;
  item_scriptName : option string;
  item_status : option string;
  item_startedAt : option Timestamp;
  item_completedAt : option Timestamp;
  item_reportUrl : string;
}.

Definition itemOfEntry (e : ReportIndexEntry) : ReportItem :=
  {| item_id := id e; item_scriptName := scriptName e; item_status := status e;
     item_startedAt := startedAt e; item_completedAt := completedAt e;
     item_reportUrl := reportUrl e |}.

Definition itemOfRow (r : JoinedRow) (url : string) : ReportItem :=
  {| item_id := row_id r; item_scriptName := Some (script_name r);
     item_status := Some (row_status r); item_startedAt := Some (row_startedAt r);
     item_completedAt := row_completedAt r; item_reportUrl := url |}.

Inductive Response :=
| Json200 (data : list ReportItem)          (* { success: true, data } *)
| Json401                                   (* Unauthorized *)
| Json500 (error : string).

(** A query or auth parameter counts when it is present and non-empty. *)
Definition present (o : option string) : option string :=
  match o with
  | Some s => if truthy s then Some s else None
  | None => None
  end.

(** First try the file-backed index. *)
Definition indexedResultsOf (projectId : option string) : M (list ReportItem) :=
  try_catch
    (match present projectId with
     | Some p =>
         let* entries := readProjectIndex p in
         ret (itemOfEntry <$> entries)
     | None =>
         let* all := listAllProjectIndexes in
         ret (p ← all; itemOfEntry <$> p.2)
     end)
    (λ e,
       logger WARN "Failed to read file-backed index; will fallback to DB query." ;;;
       ret []).

(** [for (const r of rows) { const url = await getReportUrl(r.id);
    if (url) results.push(...) }] *)
Fixpoint collectReports (rows : list JoinedRow) : M (list ReportItem) :=
  match rows with
  | [] => ret []
  | r :: rows' =>
      let* url := getReportUrl (row_id r) in
      let* rest := collectReports rows' in
      ret (if truthy url then itemOfRow r url :: rest else rest)
  end.

Definition getReportsByProject (db : Database) (userId projectId : option string)
  : M Response :=
  try_catch
    (match present userId with
     | None => ret Json401
     | Some uid =>
         let* indexedResults := indexedResultsOf projectId in
         if (0 <? length indexedResults)%nat then ret (Json200 indexedResults)
         else
           (* Fallback: query DB and filter by project/report presence *)
           let* rows := db_query db (selectReports db uid (present projectId)) in
           let* results := collectReports rows in
           ret (Json200 results)
     end)
    (λ error,
       logger ERROR "Error getting project-specific reports:" ;;;
       ret (Json500 (or_else (message error) "Failed to get project reports"))).

End AllureController.
Export AllureController.

(* ===================================================================== *)
(** ** The dashboard: run selection and the bounded wait                  *)
(* ===================================================================== *)

Module Dashboard.

Record TestRun := {
  run_id : string;
  run_status : string;
  run_startedAt : Timestamp;           (* new Date(startedAt).getTime() *)
  executionReportUrl : option string;
}.

Inductive ActiveView := ViewAllure | ViewRuns.

(** What the flow does, in order: requests to the backend and updates of
    the component state. *)
Inductive Event :=
| GetScript (scriptId : string)
| GetTestRuns (scriptId : string) (projectId : option string)
| PostStartRun (scriptId : string)            (* creates a run *)
| Delay (ms : Z)                              (* setTimeout(resolve, ms) *)
| GetTestRun (testRunId : string)             (* status poll *)
| PostGenerate (testRunId : string)           (* the report generator *)
| SetSelectedReport (url : string)
| SetSelectedProjectId (projectId : string)
| SetActiveView (v : ActiveView)
| LoadData.

(** The backend as the flow sees it; [None] is a rejected request.  The
    status answer depends on how many polls came before. *)
Record Api := {
  getScript : string → option (option string);            (* script.projectId *)
  getTestRuns : string → option string → option (list TestRun);
  startRun : string → option string;                      (* id of the new run *)
  getRunStatus : string → nat → option string;
  generate : string → option (option string);             (* reportUrl *)
}.

Abbreviation Flow := (ST (list Event)).

Definition emit (e : Event) : Flow unit := λ tr, (Return tt, tr ++ [e]).

(** An [axios] call: record it, then answer or reject. *)
Definition request {A} (e : Event) (answer : option A) : Flow A :=
  emit e ;;;
  match answer with
  | Some a => ret a
  | None => throw (Error "Network Error")
  end.

(** [existingRuns.sort((a, b) => time(b) - time(a))]: a stable sort by
    start time, latest first. *)
Fixpoint insertRun (x : TestRun) (l : list TestRun) : list TestRun :=
  match l with
  | [] => [x]
  | y :: l' =>
      if run_startedAt x <? run_startedAt y then y :: insertRun x l' else x :: l
  end.
Definition sortRuns (l : list TestRun) : list TestRun := foldr insertRun [] l.

Definition maxAttempts : nat := 30.

Definition terminal (status : string) : bool :=
  String.eqb status "passed" || String.eqb status "failed" || String.eqb status "completed".

(** The polling loop, by recursion on [maxAttempts - attempts]:
    [while (attempts < maxAttempts) { wait 1 s; poll; if terminal break;
    attempts++ }]. *)
Fixpoint waitLoop (api : Api) (testRunId : string) (remaining : nat) : Flow unit :=
  match remaining with
  | O => ret tt
  | S remaining' =>
      let attempts := (maxAttempts - remaining)%nat in
      emit (Delay 1000) ;;;
      let* status := request (GetTestRun testRunId) (getRunStatus api testRunId attempts) in
      if terminal status then ret tt
      else waitLoop api testRunId remaining'
  end.

Definition waitForRun (api : Api) (testRunId : string) : Flow unit :=
  waitLoop api testRunId maxAttempts.

(** The selection step: [None] when the flow returned early with an
    existing report, otherwise the run to generate a report for. *)
Definition selectRun (api : Api) (scriptId : string) (scriptProjectId : option string)
  : Flow (option string) :=
  let* existingRuns :=
    request (GetTestRuns scriptId scriptProjectId)
            (getTestRuns api scriptId scriptProjectId) in
  if (0 <? length existingRuns)%nat then
    match sortRuns existingRuns with
    | [] => throw (Error "Cannot read properties of undefined")
    | mostRecentRun :: _ =>
        match present (executionReportUrl mostRecentRun) with
        | Some url =>
            emit (SetSelectedReport url) ;;;
            (match scriptProjectId with
             | Some p => emit (SetSelectedProjectId p)
             | None => ret tt
             end) ;;;
            emit (SetActiveView ViewAllure) ;;;
            emit LoadData ;;;
            ret None
        | None => ret (Some (run_id mostRecentRun))
        end
    end
  else
    let* testRunId := request (PostStartRun scriptId) (startRun api scriptId) in
    waitForRun api testRunId ;;;
    ret (Some testRunId).

(** [projectId || script.projectId] *)
Definition scriptProjectIdOf (projectId script : option string) : option string :=
  match present projectId with
  | Some p => Some p
  | None => present script
  end.

Definition handleImportScriptAndGenerateReport
    (api : Api) (scriptId : string) (projectId : option string) : Flow unit :=
  try_catch
    (let* script := request (GetScript scriptId) (getScript api scriptId) in
     let scriptProjectId := scriptProjectIdOf projectId script in
     let* target := selectRun api scriptId scriptProjectId in
     match target with
     | None => ret tt
     | Some testRunId =>
         let* reportUrl := request (PostGenerate testRunId) (generate api testRunId) in
         (match scriptProjectId with
          | Some p => emit (SetSelectedProjectId p)
          | None => ret tt
          end) ;;;
         emit LoadData ;;;
         match present reportUrl with
         | Some url => emit (SetSelectedReport url) ;;; emit (SetActiveView ViewAllure)
         | None => emit (SetActiveView ViewRuns)
         end
     end)
    (λ error, throw (Error (or_else (message error) "Failed to generate report"))).

End Dashboard.
Export Dashboard.

(* ===================================================================== *)
(** ** The controller: the other request handlers                         *)
(* ===================================================================== *)

Module Controller.

(** What a handler sends: the JSON body of a success, or a status with an
    error text. *)
Inductive Reply :=
| ReplyReport (reportPath reportUrl : string)   (* generateReport: 200 *)
| ReplyUrl (reportUrl : string)                 (* getReportUrl: 200 *)
| ReplyReports (reports : list ReportInfo)      (* getAllReports: 200 *)
| ReplyMessage (message : string)               (* cleanupOldReports: 200 *)
| ReplyError (status : Z) (error : string).

(** A statement that changes the database. *)
Inductive DbWrite :=
| SetExecutionReportUrl (testRunId reportUrl : string).

(** The error of an [UPDATE] on a table without the column (code 42703). *)
Definition undefinedColumn : Exn :=
  Error "column executionReportUrl of relation TestRun does not exist".
Definition isUndefinedColumn (e : Exn) : bool :=
  match e with
  | Error m => String.eqb m "column executionReportUrl of relation TestRun does not exist"
  | _ => false
  end.

(** [UPDATE "TestRun" SET "executionReportUrl" = $2 WHERE id = $1]; the
    statement that was run is handed back. *)
Definition db_update (db : Database) (reportUrlColumn : bool) (wr : DbWrite)
  : M (list DbWrite) :=
  if negb (online db) then throw (Error "connect ECONNREFUSED")
  else if negb reportUrlColumn then throw undefinedColumn
  else ret [wr].

(** [SELECT id FROM "TestRun" WHERE id = $1 AND "userId" = $2] *)
Definition selectOwned (db : Database) (testRunId userId : string) : list TestRunRow :=
  List.filter (λ tr, String.eqb (tr_id tr) testRunId && String.eqb (tr_userId tr) userId)
              (AllureController.TestRun db).

(** [SELECT ... FROM "TestRun" tr JOIN "Script" s ON s.id = tr."scriptId"
    WHERE tr.id = $1] *)
Definition selectForIndex (db : Database) (testRunId : string)
  : list (TestRunRow * ScriptRow) :=
  tr ← List.filter (λ tr, String.eqb (tr_id tr) testRunId) (AllureController.TestRun db);
  s ← List.filter (λ s, String.eqb (s_id s) (tr_scriptId tr)) (Script db);
  [(tr, s)].

(** A project id inside a template literal: [null] reads ["null"]. *)
Definition projectIdText (o : option string) : string :=
  match o with Some p => p | None => "null" end.

(** The index entry built from the joined row.  The interface gives the
    entry a string for its project; for a script without project the
    text of the id stands here, as it does in the ledger's file name. *)
Definition entryOfRow (r : TestRunRow * ScriptRow) (reportUrl : string) (now : Timestamp)
  : ReportIndexEntry :=
  {| id := tr_id r.1;
     projectId := projectIdText (s_projectId r.2);
     scriptId := Some (tr_scriptId r.1);
     scriptName := Some (s_name r.2);
     status := Some (tr_status r.1);
     startedAt := Some (tr_startedAt r.1);
     completedAt := tr_completedAt r.1;
     reportUrl := reportUrl;
     createdAt := now |}.

(** Verify test run exists and belongs to user. *)
Definition checkOwner (db : Database) (userId : option string) (testRunId : string)
  : M bool :=
  match present userId with
  | Some uid =>
      let* rows := db_query db (selectOwned db testRunId uid) in
      ret (negb (length rows =? 0)%nat)
  | None => ret true
  end.

(** The [if (reportUrl) { ... }] block: write the URL back, then append
    to the file-backed index; neither failure leaves the block. *)
Definition recordReport (db : Database) (reportUrlColumn : bool)
    (testRunId reportUrl : string) : M (list DbWrite) :=
  let* writes :=
    try_catch
      (db_update db reportUrlColumn (SetExecutionReportUrl testRunId reportUrl))
      (λ dbErr,
         (if isUndefinedColumn dbErr
          then logger WARN "executionReportUrl column missing on TestRun; skipping DB update."
          else logger ERROR "Failed to update executionReportUrl on TestRun:") ;;;
         ret []) in
  try_catch
    (let* rows := db_query db (selectForIndex db testRunId) in
     match rows with
     | r :: _ =>
         let* now := Date_now in
         appendProjectIndexEntry (projectIdText (s_projectId r.2))
                                 (entryOfRow r reportUrl now)
     | [] =>
         logger WARN ("TestRun " +:+ testRunId +:+
                      " not found during index append; skipping project index update.")
     end)
    (λ indexErr, logger WARN "Failed to append project index entry:") ;;;
  ret writes.

Definition generateReport (db : Database) (reportUrlColumn : bool)
    (userId : option string) (testRunId : string) : M (Reply * list DbWrite) :=
  try_catch
    (if negb (truthy testRunId) then ret (ReplyError 400 "Test run ID is required", [])
     else
       let* owned := checkOwner db userId testRunId in
       if negb owned then ret (ReplyError 404 "Test run not found", [])
       else
         let* reportPath := AllureService.generateReport testRunId in
         let* reportUrl := AllureService.getReportUrl testRunId in
         let* writes :=
           if truthy reportUrl
           then recordReport db reportUrlColumn testRunId reportUrl
           else ret [] in
         logger INFO ("Execution report generated for test run: " +:+ testRunId) ;;;
         ret (ReplyReport reportPath reportUrl, writes))
    (λ error,
       logger ERROR "Error generating Execution report:" ;;;
       logger ERROR "Error details:" ;;;
       ret (ReplyError 500 (or_else (message error) "Failed to generate Execution report"),
            [])).

Definition getReportUrl (testRunId : string) : M Reply :=
  try_catch
    (let* reportUrl := AllureService.getReportUrl testRunId in
     if negb (truthy reportUrl) then ret (ReplyError 404 "Report not found")
     else ret (ReplyUrl reportUrl))
    (λ error,
       logger ERROR "Error getting Execution report URL:" ;;;
       ret (ReplyError 500 (or_else (message error) "Failed to get report URL"))).

Definition getAllReports : M Reply :=
  try_catch
    (let* reports := AllureService.getAllReports in
     ret (ReplyReports reports))
    (λ error,
       logger ERROR "Error getting all Execution reports:" ;;;
       ret (ReplyError 500 (or_else (message error) "Failed to get reports"))).

(** [days || 7] for a number that may be missing. *)
Definition daysOrDefault (days : option Z) : Z :=
  match days with
  | Some d => if d =? 0 then 7 else d
  | None => 7
  end.

Definition cleanupOldReports (days : option Z) : M Reply :=
  try_catch
    (let daysToKeep := daysOrDefault days in
     AllureService.cleanupOldReports daysToKeep ;;;
     ret (ReplyMessage ("Cleaned up reports older than " +:+ pretty daysToKeep +:+ " days")))
    (λ error,
       logger ERROR "Error cleaning up Execution reports:" ;;;
       ret (ReplyError 500 (or_else (message error) "Failed to cleanup reports"))).

End Controller.

(* ===================================================================== *)
(** ** The dashboard: loading with backoff, and the pages of runs         *)
(* ===================================================================== *)

Module DashboardData.

(** What [fetchWithBackoff] does, in order. *)
Inductive FetchEvent :=
| FetchGet (url : string)
| FetchDelay (ms : Z)
| FetchWarn          (* console.warn: rate limited, backing off *)
| FetchError.        (* console.error *)

(** The answer to one GET: the payload, or a rejection with the HTTP
    status of the response when there is one. *)
Inductive Answer (T : Type) :=
| Payload (data : T)
| Rejected (status : option Z).
Arguments Payload {T} data.
Arguments Rejected {T} status.

Definition isRateLimit (status : option Z) : bool :=
  match status with Some s => s =? 429 | None => false end.

(** [fetchWithBackoff(url, options, retries, backoffMs)]; [answers k] is
    the answer to the GET with number [k], and [k] counts the GETs made
    before this call. *)
Fixpoint fetchWithBackoff {T} (answers : nat → Answer T) (url : string)
    (retries : nat) (backoffMs : Z) (k : nat) : ST (list FetchEvent) (option T) :=
  λ tr,
    match answers k with
    | Payload d => (Return (Some d), tr ++ [FetchGet url])
    | Rejected status =>
        match retries with
        | S retries' =>
            if isRateLimit status then
              fetchWithBackoff answers url retries' (backoffMs * 2) (S k)
                (tr ++ [FetchGet url; FetchWarn; FetchDelay backoffMs])
            else (Return None, tr ++ [FetchGet url; FetchError])
        | O => (Return None, tr ++ [FetchGet url; FetchError])
        end
    end.

(** [testRuns.slice(start, end)] for [0 <= start <= end]. *)
Definition slice {A} (start end_ : nat) (l : list A) : list A :=
  take (end_ - start) (drop start l).

(** [Math.ceil(n / size)] for a page size of at least one. *)
Definition ceilDiv (n size : nat) : nat := ((n + (size - 1)) / size)%nat.

(** Derived pagination values.  [runsPage] is at least one: the state
    starts at 1 and the buttons keep it between 1 and [totalPages]. *)
Definition totalPages (totalRuns runsPageSize : nat) : nat :=
  Nat.max 1 (ceilDiv totalRuns runsPageSize).

Definition pagedRuns {A} (testRuns : list A) (runsPage runsPageSize : nat) : list A :=
  let start := ((runsPage - 1) * runsPageSize)%nat in
  let end_ := (start + runsPageSize)%nat in
  slice start end_ testRuns.

(** The caption: [Showing first-last of totalRuns]. *)
Definition showingFirst (runsPage runsPageSize totalRuns : nat) : nat :=
  Nat.min ((runsPage - 1) * runsPageSize + 1) totalRuns.
Definition showingLast (runsPage runsPageSize totalRuns : nat) : nat :=
  Nat.min (runsPage * runsPageSize) totalRuns.

(** The buttons: [setRunsPage(p => Math.max(1, p - 1))] and
    [setRunsPage(p => Math.min(totalPages, p + 1))]. *)
Definition prevPage (p : nat) : nat := Nat.max 1 (p - 1).
Definition nextPage (total p : nat) : nat := Nat.min total (p + 1).

End DashboardData.

(* ===================================================================== *)
(** ** Vocabulary of the specification                                    *)
(* ===================================================================== *)

(** A computation that returns from every state. *)
Definition no_throw {S A} (m : ST S A) : Prop :=
  ∀ w, ∃ a w', m w = (Return a, w').

(** A computation whose exceptions all satisfy [P]. *)
Definition throws_only {S A} (P : Exn → Prop) (m : ST S A) : Prop :=
  ∀ w e w', m w = (Throw e, w') → P e.

(** A computation that leaves the clock, the working directory and the
    installed CLI as they are. *)
Definition stable {A} (m : M A) : Prop :=
  ∀ w r w', m w = (r, w') →
    clock w' = clock w ∧ cwd w' = cwd w ∧ allure_cli w' = allure_cli w.

(** The CLI keeps its output directory and puts no directory where the
    entry page goes. *)
Definition cli_keeps_output (cli : AllureCli) : Prop :=
  ∀ results out t,
    is_dir (find_node out t) = true →
    is_dir (find_node (join out "index.html") t) = false →
    is_dir (find_node out (cli results out t).2) = true ∧
    is_dir (find_node (join out "index.html") (cli results out t).2) = false.

(** The CLI fails on every tree. *)
Definition cli_fails (cli : AllureCli) : Prop :=
  ∀ results out t, (cli results out t).1 ≠ None.

(** The result pool and the reports root exist, no regular file sits
    where a run's artifact directory goes and no directory where its
    entry page goes. *)
Definition artifactWritable (testRunId : string) (t : node) : Prop :=
  is_dir (find_node ALLURE_RESULTS_DIR t) = true ∧
  is_dir (find_node ALLURE_REPORTS_DIR t) = true ∧
  is_file (find_node (reportPathOf testRunId) t) = false ∧
  is_dir (find_node (indexHtmlOf testRunId) t) = false.

(** Two worlds that differ at most in the fault schedule and the log. *)
Definition same_files (w w' : World) : Prop :=
  fs w' = fs w ∧ clock w' = clock w ∧ cwd w' = cwd w ∧ allure_cli w' = allure_cli w.

(** The entries a project's ledger holds: those of the JSON array stored
    at the ledger path, none when the ledger is missing or is no array. *)
Definition ledgerOf (projectId : string) (t : node) : list ReportIndexEntry :=
  match find_node (getProjectIndexPath projectId) t with
  | Some (File _ (JsonArray l)) => l
  | _ => []
  end.

(** The index directory exists and neither the ledger nor its temporary
    sibling is a directory. *)
Definition indexWritable (projectId : string) (t : node) : Prop :=
  is_dir (find_node ALLURE_INDEX_DIR t) = true ∧
  is_dir (find_node (getProjectIndexPath projectId) t) = false ∧
  is_dir (find_node (tmpPathOf projectId) t) = false.

(** What [getAllReports] lists for a tree: one record per entry of the
    reports root. *)
Definition infoOfEntry (e : string * node) : ReportInfo :=
  {| info_id := e.1;
     info_path := "/allure-reports/" +:+ e.1 +:+ "/index.html";
     info_createdAt := birthtime (stats_of e.2) |}.

Definition listReports (t : node) : list ReportInfo :=
  match find_node ALLURE_REPORTS_DIR t with
  | Some (Dir _ es) => infoOfEntry <$> map_to_list es
  | _ => []
  end.

(** The contents of the entry resource of a run's artifact. *)
Definition entryResource (testRunId : string) (t : node) : option FileData :=
  match find_node (indexHtmlOf testRunId) t with
  | Some (File _ d) => Some d
  | _ => None
  end.

(** Events of the flow, by kind. *)
Definition isCreate (e : Event) : bool :=
  match e with PostStartRun _ => true | _ => false end.
Definition isPoll (e : Event) : bool :=
  match e with GetTestRun _ => true | _ => false end.
Definition isDelay (e : Event) : bool :=
  match e with Delay _ => true | _ => false end.
Definition isGenerate (e : Event) : bool :=
  match e with PostGenerate _ => true | _ => false end.

Definition count (f : Event → bool) (tr : list Event) : nat :=
  length (List.filter f tr).

(** One round of the wait, and [n] rounds in a row. *)
Definition pollRound (testRunId : string) : list Event :=
  [Delay 1000; GetTestRun testRunId].
Definition rounds (n : nat) (testRunId : string) : list Event :=
  concat (replicate n (pollRound testRunId)).

(** The poll with number [i] is answered, with a status that is not
    terminal. *)
Definition pending (api : Api) (testRunId : string) (i : nat) : Prop :=
  ∃ st, getRunStatus api testRunId i = Some st ∧ terminal st = false.

(** Two paths that branch off from each other: a common prefix, then
    different segments. *)
Definition diverges (x y : path) : Prop :=
  ∃ pre a b p q, x = pre ++ a :: p ∧ y = pre ++ b :: q ∧ a ≠ b.

(** Two trees that hold the same at every path of a set. *)
Definition agree_on (S : path → Prop) (t t' : node) : Prop :=
  ∀ x, S x → find_node x t' = find_node x t.

(** A computation that leaves the paths of [S] as they are, in every
    world whose CLI satisfies [C]; it also leaves the CLI in place. *)
Definition keeps (C : AllureCli → Prop) (S : path → Prop) {A} (m : M A) : Prop :=
  ∀ w r w', C (allure_cli w) → m w = (r, w') →
    agree_on S (fs w) (fs w') ∧ allure_cli w' = allure_cli w.

(** The paths an append for a project may touch are its ledger and the
    temporary sibling; [beside_ledger] holds of all paths that branch off
    from both. *)
Definition beside_ledger (projectId : string) (x : path) : Prop :=
  diverges (getProjectIndexPath projectId) x ∧ diverges (tmpPathOf projectId) x.

(** The paths that branch off from a run's result file and from its
    artifact directory. *)
Definition beside_run (testRunId : string) (x : path) : Prop :=
  diverges (resultFileOf testRunId) x ∧ diverges (reportPathOf testRunId) x.

(** The CLI writes below its output directory only. *)
Definition cli_local (cli : AllureCli) : Prop :=
  ∀ results out t x, diverges out x → find_node x (cli results out t).2 = find_node x t.

(** The ownership check of the generate handler lets a request through:
    there is no user on the request, or the database answers and holds a
    run of that id for the user. *)
Definition ownerCheckPasses (db : Database) (userId : option string) (testRunId : string)
  : Prop :=
  match present userId with
  | None => True
  | Some uid => online db = true ∧ Controller.selectOwned db testRunId uid ≠ []
  end.

(** The rounds of a backoff: [n] GETs that were rate limited, each with
    its warning and the delay before the next try; the delay doubles
    from round to round. *)
Definition backoffRounds (url : string) (backoffMs : Z) (n : nat)
  : list DashboardData.FetchEvent :=
  i ← seq 0 n;
  [DashboardData.FetchGet url; DashboardData.FetchWarn;
   DashboardData.FetchDelay (backoffMs * 2 ^ Z.of_nat i)].

(** Events of the flow that change what the dashboard shows. *)
Definition isStateChange (e : Event) : bool :=
  match e with
  | SetSelectedReport _ | SetSelectedProjectId _ | SetActiveView _ | LoadData => true
  | _ => false
  end.
Definition isView (e : Event) : bool :=
  match e with SetActiveView _ => true | _ => false end.

(** An entry of the reports root is swept when it is older than
    [daysToKeep] days. *)
Definition expired (daysToKeep now : Z) (n : node) : bool :=
  daysToKeep * 24 * 60 * 60 * 1000 <? now - mtimeMs (stats_of n).


(** The last character of a string. *)
Fixpoint last_char (s : string) : option ascii :=
  match s with
  | EmptyString => None
  | String c EmptyString => Some c
  | String _ s' => last_char s'
  end.

(* ===================================================================== *)
(** ** Sample worlds                                                      *)
(* ===================================================================== *)

Module Sample.

Definition day : Z := 24 * 60 * 60 * 1000.

(** The CLI is not installed: the command fails and touches nothing. *)
Definition cli_missing : AllureCli :=
  λ _ _ t, (Some "npx: command not found", t).

(** The CLI works: it writes its own entry page into the output directory. *)
Definition cli_works : AllureCli :=
  λ _ out t,
    match write 0 (join out "index.html") (Raw "<html>allure</html>") t with
    | inr t' => (None, t')
    | inl _ => (Some "allure: cannot write output", t)
    end.

Definition entryOf (runId project : string) (at_ : Timestamp) : ReportIndexEntry :=
  {| id := runId; projectId := project; scriptId := Some "s1";
     scriptName := Some "login"; status := Some "passed";
     startedAt := Some at_; completedAt := Some (at_ + 5);
     reportUrl := reportUrlOf runId; createdAt := at_ + 9 |}.

Definition dir (at_ : Timestamp) (l : list (string * node)) : node :=
  Dir (fresh at_) (list_to_map l).

(** The tree right after [ensureDirectories]. *)
Definition tree_empty : node :=
  dir 0 [("allure-results", dir 0 []);
         ("allure-reports", dir 0 [("by-project", dir 0 [])])].

(** A tree with one report, an indexed project and a damaged ledger. *)
Definition tree_used : node :=
  dir 0 [("allure-results", dir 0 []);
         ("allure-reports",
          dir 0 [("run-1", dir (2 * day) [("index.html", File (fresh (2 * day)) (Raw "<html>1</html>"))]);
                 ("by-project",
                  dir day [("p1.json", File (fresh day)
                                         (JsonArray [entryOf "run-1" "p1" 50; entryOf "run-0" "p1" 10]));
                            ("p2.json", File (fresh day) (Raw "[{ truncated"))])])].

Definition world (t : node) (now : Timestamp) (fl : list bool) (cli : AllureCli) : World :=
  {| fs := t; clock := now; cwd := ["srv"; "app"]; faults := fl; logs := [];
     allure_cli := cli |}.

(** A database with three runs of two users, and a tree from before the
    index existed: artifacts for two runs, no ledger. *)
Definition db : Database :=
  {| AllureController.TestRun :=
       [ {| tr_id := "run-0"; tr_status := "running"; tr_startedAt := 10;
            tr_completedAt := None; tr_scriptId := "s1"; tr_userId := "u1" |};
         {| tr_id := "run-1"; tr_status := "passed"; tr_startedAt := 50;
            tr_completedAt := Some 55; tr_scriptId := "s1"; tr_userId := "u1" |};
         {| tr_id := "run-2"; tr_status := "failed"; tr_startedAt := 60;
            tr_completedAt := Some 66; tr_scriptId := "s1"; tr_userId := "u1" |};
         {| tr_id := "run-3"; tr_status := "passed"; tr_startedAt := 70;
            tr_completedAt := Some 77; tr_scriptId := "s1"; tr_userId := "u2" |} ];
     Script := [ {| s_id := "s1"; s_name := "login"; s_projectId := Some "p1" |} ];
     online := true |}.

Definition tree_legacy : node :=
  dir 0 [("allure-results", dir 0 []);
         ("allure-reports",
          dir 0 [("run-0", dir 20 []); ("run-1", dir 60 []); ("run-3", dir 80 []);
                 ("by-project", dir 0 [])])].

(** A backend for a script without runs: the new run passes at the
    third poll. *)
Definition api_fresh : Api :=
  {| getScript := λ _, Some (Some "p1");
     getTestRuns := λ _ _, Some [];
     startRun := λ _, Some "run-new";
     getRunStatus := λ _ i, Some (if (i <? 2)%nat then "running" else "passed");
     generate := λ r, Some (Some (reportUrlOf r)) |}.

(** A backend whose new run never finishes. *)
Definition api_stuck : Api :=
  {| getScript := λ _, Some (Some "p1");
     getTestRuns := λ _ _, Some [];
     startRun := λ _, Some "run-new";
     getRunStatus := λ _ _, Some "running";
     generate := λ r, Some (Some (reportUrlOf r)) |}.

(** A backend for a script with three runs; the latest has a report. *)
Definition api_cached : Api :=
  {| getScript := λ _, Some (Some "p1");
     getTestRuns := λ _ _,
       Some [ {| run_id := "a"; run_status := "passed"; run_startedAt := 10;
                 executionReportUrl := None |};
              {| run_id := "c"; run_status := "passed"; run_startedAt := 30;
                 executionReportUrl := Some "/allure-reports/c/index.html" |};
              {| run_id := "b"; run_status := "failed"; run_startedAt := 20;
                 executionReportUrl := None |} ];
     startRun := λ _, Some "run-new";
     getRunStatus := λ _ _, Some "running";
     generate := λ r, Some (Some (reportUrlOf r)) |}.

(** The same runs, none with a report. *)
Definition api_unreported : Api :=
  {| getScript := λ _, Some (Some "p1");
     getTestRuns := λ _ _,
       Some [ {| run_id := "a"; run_status := "passed"; run_startedAt := 10;
                 executionReportUrl := None |};
              {| run_id := "c"; run_status := "passed"; run_startedAt := 30;
                 executionReportUrl := Some EmptyString |};
              {| run_id := "b"; run_status := "failed"; run_startedAt := 20;
                 executionReportUrl := None |} ];
     startRun := λ _, Some "run-new";
     getRunStatus := λ _ _, Some "running";
     generate := λ r, Some (Some (reportUrlOf r)) |}.


(** The command fails after it has removed its output directory (it is
    run with [--clean]). *)
Definition cli_cleans : AllureCli :=
  λ _ out t, (Some "allure: generation failed", remove 0 out t).



(** A tree in which a directory sits where the ledger of [p1] goes. *)
Definition tree_blocked : node :=
  dir 0 [("allure-results", dir 0 []);
         ("allure-reports", dir 0 [("by-project", dir 0 [("p1.json", dir 0 [])])])].

(** A backend that rejects the request for a report. *)
Definition api_no_generator : Api :=
  {| getScript := λ _, Some (Some "p1");
     getTestRuns := λ _ _, Some [];
     startRun := λ _, Some "run-new";
     getRunStatus := λ _ _, Some "passed";
     generate := λ _, None |}.

(** An old report of a project whose ledger was written to a day ago
    (the clock being at nine days). *)
Definition tree_stale : node :=
  dir 0 [("allure-results", dir 0 []);
         ("allure-reports",
          dir 0 [("run-1", dir 0 [("index.html", File (fresh 0) (Raw "<html>1</html>"))]);
                 ("by-project",
                  dir (8 * day) [("p1.json", File (fresh (8 * day))
                                              (JsonArray [entryOf "run-1" "p1" 0]))])])].

(** The same world at a later time. *)
Definition later (now : Timestamp) (w : World) : World :=
  {| fs := fs w; clock := now; cwd := cwd w; faults := faults w; logs := [];
     allure_cli := allure_cli w |}.

(** A service that generated one report, indexed it, and was then left
    alone for eight days. *)
Definition after_one_report : World :=
  let w0 := world tree_empty 0 [] cli_missing in
  let w1 := (generateReport "run-1" w0).2 in
  (appendProjectIndexEntry "p1" (entryOf "run-1" "p1" 0) w1).2.

Definition eight_days_later : World := later (8 * day) after_one_report.

End Sample.

(* ===================================================================== *)
(** * Properties                                                          *)
(* ===================================================================== *)

(** ** The directory tree *)

Section tree.
Implicit Types (t c : node) (p q : path) (s : string) (now : Timestamp).

Lemma find_node_app p q t :
  find_node (p ++ q) t = find_node p t ≫= find_node q.
Proof.
  revert t. induction p as [|s p IH]; intros t; [done|].
  simpl. destruct t as [|st es]; [done|].
  destruct (es !! s) as [c|]; [apply IH | done].
Qed.

Lemma find_node_join p s t :
  find_node (join p s) t =
  match find_node p t with
  | Some (Dir _ es) => es !! s
  | _ => None
  end.
Proof.
  unfold join. rewrite find_node_app.
  destruct (find_node p t) as [[|st es]|]; simpl; [done| |done].
  by destruct (es !! s).
Qed.

(** Whatever exists has a directory above it. *)
Lemma find_node_join_Some p s t c :
  find_node (join p s) t = Some c →
  is_dir (find_node p t) = true.
Proof.
  rewrite find_node_join.
  by destruct (find_node p t) as [[|st es]|].
Qed.

Lemma write_find now p d t t' :
  write now p d t = inr t' → ∃ st, find_node p t' = Some (File st d).
Proof.
  revert t t'. induction p as [|s p IH]; intros t t' H; simpl in H.
  - destruct t; simplify_eq. eauto.
  - destruct t as [|st es]; [done|].
    destruct (es !! s) as [c|] eqn:Hs.
    + destruct (write now p d c) as [e|c'] eqn:Hw; simplify_eq.
      destruct (IH _ _ Hw) as [st' Hf]. exists st'.
      simpl. by rewrite lookup_insert_eq.
    + destruct p; simplify_eq. exists (fresh now).
      simpl. by rewrite lookup_insert_eq.
Qed.

(** Writing below an existing directory succeeds unless the target is
    itself a directory. *)
Lemma write_join_succeeds now p s d t :
  is_dir (find_node p t) = true →
  is_dir (find_node (join p s) t) = false →
  ∃ t', write now (join p s) d t = inr t'.
Proof.
  unfold join. revert t. induction p as [|a p IH]; intros t Hd Hn; simpl in *.
  - destruct t as [|st es]; [done|].
    destruct (es !! s) as [c|] eqn:Hs; [|eauto].
    destruct c; [eauto | done].
  - destruct t as [|st es]; [done|].
    destruct (es !! a) as [c|] eqn:Ha; [|done].
    destruct (IH c Hd Hn) as [c' ->]. eauto.
Qed.

(** A successful write leaves paths that branch off untouched. *)
Lemma write_frame now pre a b p q d t t' :
  a ≠ b →
  write now (pre ++ a :: p) d t = inr t' →
  find_node (pre ++ b :: q) t' = find_node (pre ++ b :: q) t.
Proof.
  intros Hab. revert t t'. induction pre as [|x pre IH]; intros t t' H; simpl in *.
  - destruct t as [|st es]; [done|].
    destruct (es !! a) as [c|] eqn:Ha.
    + destruct (write now p d c); simplify_eq.
      simpl. by rewrite lookup_insert_ne.
    + destruct p; simplify_eq. simpl. by rewrite lookup_insert_ne.
  - destruct t as [|st es]; [done|].
    destruct (es !! x) as [c|] eqn:Hx.
    + destruct (write now (pre ++ a :: p) d c) as [|c'] eqn:Hw; simplify_eq.
      simpl. rewrite lookup_insert_eq. eauto.
    + destruct (pre ++ a :: p) eqn:Hp; [by destruct pre | done].
Qed.

Lemma mkdirp_find now p t t' :
  mkdirp now p t = inr t' → is_dir (find_node p t') = true.
Proof.
  revert t t'. induction p as [|s p IH]; intros t t' H.
  - destruct t; simpl in H; simplify_eq. done.
  - destruct t as [|st es]; simpl in H; [done|].
    destruct (es !! s) as [c|].
    + destruct (mkdirp now p c) as [|c'] eqn:Hm; simplify_eq.
      simpl. rewrite lookup_insert_eq. eauto.
    + destruct (mkdirp now p (Dir (fresh now) ∅)) as [|c'] eqn:Hm; simplify_eq.
      simpl. rewrite lookup_insert_eq. eauto.
Qed.

Lemma mkdirp_join_succeeds now p s t :
  is_dir (find_node p t) = true →
  is_file (find_node (join p s) t) = false →
  ∃ t', mkdirp now (join p s) t = inr t'.
Proof.
  unfold join. revert t. induction p as [|a p IH]; intros t Hd Hn; simpl in *.
  - destruct t as [|st es]; [done|].
    destruct (es !! s) as [c|] eqn:Hs; simpl; [|eauto].
    destruct c; [done | eauto].
  - destruct t as [|st es]; [done|].
    destruct (es !! a) as [c|] eqn:Ha; [|done].
    destruct (IH c Hd Hn) as [c' ->]. eauto.
Qed.

Lemma remove_cons_cons now s y l st es :
  remove now (s :: y :: l) (Dir st es) =
  match es !! s with
  | None => Dir st es
  | Some c => Dir st (<[s:=remove now (y :: l) c]> es)
  end.
Proof. done. Qed.

Lemma place_cons_Some now s p src st es c :
  es !! s = Some c →
  place now (s :: p) src (Dir st es) =
  match place now p src c with
  | inr c' => inr (Dir (match p with [] => touch now st | _ => st end) (<[s:=c']> es))
  | inl e => inl e
  end.
Proof. intros H. simpl. by rewrite H. Qed.

(** Renaming a regular file onto a sibling name that is free or held by
    a regular file replaces the sibling. *)
Lemma rename_sibling now p a b t sa da :
  a ≠ b →
  find_node (join p a) t = Some (File sa da) →
  is_dir (find_node (join p b) t) = false →
  ∃ t', rename now (join p a) (join p b) t = inr t' ∧
        find_node (join p b) t' = Some (File sa da).
Proof.
  intros Hab. unfold rename, join. intros Ha. rewrite Ha. revert Ha.
  revert t. induction p as [|x p IH]; intros t Ha Hb.
  - simpl in *. destruct t as [|st es]; [done|].
    destruct (es !! a) as [c|] eqn:Hc; [|done]. simplify_eq. simpl.
    rewrite lookup_delete_ne by done.
    destruct (es !! b) as [c|] eqn:Hc'.
    + destruct c; [|done]. simpl. eexists; split; [done|].
      simpl. by rewrite lookup_insert_eq.
    + eexists; split; [done|]. simpl. by rewrite lookup_insert_eq.
  - destruct t as [|st es]; [done|].
    change ((x :: p) ++ [a]) with (x :: (p ++ [a])) in *.
    change ((x :: p) ++ [b]) with (x :: (p ++ [b])) in *.
    assert (∃ y l, p ++ [a] = y :: l) as (y & l & Hpa).
    { destruct p; simpl; eauto. }
    cbn [find_node] in Ha, Hb.
    destruct (es !! x) as [c|] eqn:Hx; [|done].
    destruct (IH c Ha Hb) as (c' & Hp & Hf).
    rewrite Hpa in *. rewrite remove_cons_cons, Hx.
    erewrite place_cons_Some by apply lookup_insert_eq.
    rewrite Hp. eexists; split; [done|].
    cbn [find_node]. by rewrite lookup_insert_eq.
Qed.

(** A failed or successful rename of a sibling never shows a third name
    differently; [remove] alone keeps siblings too. *)
Lemma remove_frame now pre a b p q t :
  a ≠ b →
  find_node (pre ++ b :: q) (remove now (pre ++ a :: p) t) = find_node (pre ++ b :: q) t.
Proof.
  intros Hab. revert t. induction pre as [|x pre IH]; intros t.
  - simpl. destruct t as [|st es]; [done|].
    destruct (es !! a) as [c|] eqn:Ha; [|done].
    destruct p; simpl.
    + by rewrite lookup_delete_ne.
    + by rewrite lookup_insert_ne.
  - destruct t as [|st es]; [done|].
    change ((x :: pre) ++ a :: p) with (x :: (pre ++ a :: p)).
    change ((x :: pre) ++ b :: q) with (x :: (pre ++ b :: q)).
    assert (∃ y l, pre ++ a :: p = y :: l) as (y & l & Hpa).
    { destruct pre; simpl; eauto. }
    rewrite Hpa in *. rewrite remove_cons_cons.
    destruct (es !! x) as [c|] eqn:Hx; [|done].
    cbn [find_node]. rewrite lookup_insert_eq, Hx. apply IH.
Qed.

(** A directory made where nothing was is empty. *)
Lemma mkdirp_join_new now p s t t' :
  find_node (join p s) t = None →
  mkdirp now (join p s) t = inr t' →
  find_node (join p s) t' = Some (Dir (fresh now) ∅).
Proof.
  unfold join. revert t t'. induction p as [|a p IH]; intros t t' Hn H.
  - destruct t as [|st es]; [done|]. simpl in Hn, H.
    destruct (es !! s) as [c|] eqn:Hs; [by destruct c|]. simplify_eq.
    simpl. by rewrite lookup_insert_eq.
  - destruct t as [|st es]; [done|]. simpl in Hn, H.
    destruct (es !! a) as [c|] eqn:Ha.
    + destruct (mkdirp now (p ++ [s]) c) as [|c'] eqn:Hm; simplify_eq.
      simpl. rewrite lookup_insert_eq. eauto.
    + destruct (mkdirp now (p ++ [s]) (Dir (fresh now) ∅)) as [|c'] eqn:Hm; simplify_eq.
      simpl. rewrite lookup_insert_eq. eapply IH; [|done].
      destruct p; simpl; by rewrite lookup_empty.
Qed.

End tree.

(** ** The monad *)

Section monad.
Context {S : Type}.
Implicit Types (w : S).

Lemma bind_Return {A B} (m : ST S A) (k : A → ST S B) w a w1 :
  m w = (Return a, w1) → bind m k w = k a w1.
Proof. unfold bind. by intros ->. Qed.

Lemma bind_Throw {A B} (m : ST S A) (k : A → ST S B) w e w1 :
  m w = (Throw e, w1) → bind m k w = (Throw e, w1).
Proof. unfold bind. by intros ->. Qed.

Lemma bind_inv {A B} (m : ST S A) (k : A → ST S B) w r w' :
  bind m k w = (r, w') →
  (∃ a w1, m w = (Return a, w1) ∧ k a w1 = (r, w')) ∨
  (∃ e, m w = (Throw e, w') ∧ r = Throw e).
Proof.
  unfold bind. destruct (m w) as [[a|e] w1]; intros H.
  - left. eauto.
  - right. simplify_eq. eauto.
Qed.

Lemma try_catch_inv {A} (m : ST S A) (h : Exn → ST S A) w r w' :
  try_catch m h w = (r, w') →
  (∃ a, m w = (Return a, w') ∧ r = Return a) ∨
  (∃ e w1, m w = (Throw e, w1) ∧ h e w1 = (r, w')).
Proof.
  unfold try_catch. destruct (m w) as [[a|e] w1]; intros H.
  - left. simplify_eq. eauto.
  - right. eauto.
Qed.

Lemma no_throw_ret {A} (a : A) : no_throw (S:=S) (ret a).
Proof. intros w. by exists a, w. Qed.

Lemma no_throw_bind {A B} (m : ST S A) (k : A → ST S B) :
  no_throw m → (∀ a, no_throw (k a)) → no_throw (bind m k).
Proof.
  intros Hm Hk w. destruct (Hm w) as (a & w1 & H).
  rewrite (bind_Return _ _ _ _ _ H). apply Hk.
Qed.

(** A [try] whose handler returns never throws. *)
Lemma no_throw_try_catch {A} (m : ST S A) (h : Exn → ST S A) :
  (∀ e, no_throw (h e)) → no_throw (try_catch m h).
Proof.
  intros Hh w. unfold try_catch.
  destruct (m w) as [[a|e] w1]; [by eauto | apply Hh].
Qed.

Lemma throws_only_bind {A B} (P : Exn → Prop) (m : ST S A) (k : A → ST S B) :
  throws_only P m → (∀ a, throws_only P (k a)) → throws_only P (bind m k).
Proof.
  intros Hm Hk w e w' H.
  destruct (bind_inv _ _ _ _ _ H) as [(a & w1 & _ & Hk')|(e' & Hm' & ?)].
  - eapply Hk, Hk'.
  - simplify_eq. eapply Hm, Hm'.
Qed.

Lemma throws_only_no_throw {A} (P : Exn → Prop) (m : ST S A) :
  no_throw m → throws_only P m.
Proof. intros Hm w e w' H. destruct (Hm w) as (a & w1 & H'). congruence. Qed.

Lemma throws_only_when (P : Exn → Prop) b (m : ST S unit) :
  throws_only P m → throws_only P (when b m).
Proof.
  intros Hm. destruct b; [done|]. apply throws_only_no_throw, no_throw_ret.
Qed.

End monad.

(** ** Primitive calls *)

Lemma no_throw_logger lvl msg : no_throw (logger lvl msg).
Proof. intros w. by eexists _, _. Qed.

Lemma no_throw_existsSync p : no_throw (existsSync p).
Proof. intros w. by eexists _, _. Qed.

Lemma no_throw_path_of p : no_throw (path_of p).
Proof. intros w. by eexists _, _. Qed.

Lemma io_fault_inv sc w r w' :
  io_fault sc w = (r, w') →
  same_files w w' ∧ logs w' = logs w ∧
  (faults w = [] → faults w' = []) ∧
  match r with
  | Return _ => True
  | Throw e => is_fs_error e = true ∧ faults w ≠ []
  end.
Proof.
  unfold io_fault, same_files.
  destruct (faults w) as [|[] fl] eqn:Hf; intros H; simplify_eq; simpl;
    repeat split; eauto; done.
Qed.

Lemma io_fault_none sc w : faults w = [] → io_fault sc w = (Return tt, w).
Proof. unfold io_fault. by intros ->. Qed.

(** A state-changing call: on success the tree is the one the tree
    operation computed; on failure the tree is unchanged. *)
Lemma fs_update_inv sc f w r w' :
  fs_update sc f w = (r, w') →
  clock w' = clock w ∧ cwd w' = cwd w ∧ allure_cli w' = allure_cli w ∧
  logs w' = logs w ∧ (faults w = [] → faults w' = []) ∧
  match r with
  | Return _ => f (clock w) (fs w) = inr (fs w')
  | Throw e => fs w' = fs w ∧ is_fs_error e = true ∧
               (faults w = [] → ∃ c, f (clock w) (fs w) = inl c)
  end.
Proof.
  unfold fs_update. intros H.
  destruct (bind_inv _ _ _ _ _ H) as [(a & w1 & Hio & Hk)|(e & Hio & ->)];
    apply io_fault_inv in Hio as ((Hfs & Hc & Hd & Ha) & Hl & Hnil & He).
  - rewrite Hc, Hfs in Hk.
    destruct (f (clock w) (fs w)) as [c|t] eqn:Hf; simplify_eq; simpl;
      repeat split; eauto.
  - destruct He as [He Hne]. repeat split; eauto. done.
Qed.

Lemma fs_update_ok sc f w t :
  faults w = [] → f (clock w) (fs w) = inr t →
  fs_update sc f w = (Return tt, with_fs t w).
Proof.
  intros Hf Ht. unfold fs_update.
  rewrite (bind_Return _ _ _ _ _ (io_fault_none _ _ Hf)). by rewrite Ht.
Qed.

(** A read-only call never changes the tree. *)
Lemma fs_query_inv {A} sc (f : node → Errno + A) w r w' :
  fs_query sc f w = (r, w') →
  same_files w w' ∧ logs w' = logs w ∧ (faults w = [] → faults w' = []) ∧
  match r with
  | Return a => f (fs w) = inr a
  | Throw e => is_fs_error e = true ∧ (faults w = [] → ∃ c, f (fs w) = inl c)
  end.
Proof.
  unfold fs_query. intros H.
  destruct (bind_inv _ _ _ _ _ H) as [(a & w1 & Hio & Hk)|(e & Hio & ->)];
    apply io_fault_inv in Hio as (Hsame & Hl & Hnil & He).
  - destruct Hsame as (Hfs & Hc & Hd & Ha). rewrite Hfs in Hk.
    destruct (f (fs w)) as [c|t] eqn:Hf; simplify_eq; repeat split; eauto.
  - destruct He as [He Hne]. repeat split; eauto; try apply Hsame. done.
Qed.

Lemma fs_query_ok {A} sc (f : node → Errno + A) w a :
  faults w = [] → f (fs w) = inr a → fs_query sc f w = (Return a, w).
Proof.
  intros Hf Ha. unfold fs_query.
  rewrite (bind_Return _ _ _ _ _ (io_fault_none _ _ Hf)). by rewrite Ha.
Qed.

Lemma fs_query_fail {A} sc (f : node → Errno + A) w c :
  faults w = [] → f (fs w) = inl c → fs_query sc f w = (Throw (FsError c sc), w).
Proof.
  intros Hf Ha. unfold fs_query.
  rewrite (bind_Return _ _ _ _ _ (io_fault_none _ _ Hf)). by rewrite Ha.
Qed.

(** ** The project index *)

(** Unfolding of the monadic glue, leaving the [fs] calls in place. *)
Ltac mred :=
  cbv beta iota zeta delta
    [bind try_catch ret throw when existsSync logger path_of Date_now
     readFileSync writeFileSync renameSync mkdirSync rmSync readdirSync statSync
     JSON_parse arrayOrEmpty].

Lemma ledgerOf_read p t d :
  read (getProjectIndexPath p) t = inr d → arrayOrEmpty d = ledgerOf p t.
Proof.
  unfold read, ledgerOf.
  destruct (find_node _ t) as [[st d'|]|]; intros; simplify_eq. by destruct d.
Qed.

Lemma ledgerOf_unreadable p t c :
  read (getProjectIndexPath p) t = inl c → ledgerOf p t = [].
Proof.
  unfold read, ledgerOf.
  by destruct (find_node _ t) as [[st d'|]|].
Qed.

Lemma ledgerOf_missing p t :
  find_node (getProjectIndexPath p) t = None → ledgerOf p t = [].
Proof. unfold ledgerOf. by intros ->. Qed.

Lemma same_files_refl w : same_files w w.
Proof. by unfold same_files. Qed.

Lemma same_files_with_logs w w' l : same_files w w' → same_files w (with_logs l w').
Proof. by unfold same_files. Qed.

Lemma same_files_with_faults w w' l : same_files w w' → same_files w (with_faults l w').
Proof. by unfold same_files. Qed.

Lemma same_files_trans w1 w2 w3 : same_files w1 w2 → same_files w2 w3 → same_files w1 w3.
Proof. unfold same_files. intros (-> & -> & -> & ->) (-> & -> & -> & ->). done. Qed.

Create HintDb world discriminated.
#[local] Hint Resolve same_files_refl same_files_with_logs same_files_with_faults : world.

(** [readProjectIndex] returns from every world, leaves the tree alone
    and yields the ledger or, on a failure, the empty list. *)
Lemma readProjectIndex_spec p w :
  ∃ l w', readProjectIndex p w = (Return l, w') ∧
          same_files w w' ∧
          (l = [] ∨ l = ledgerOf p (fs w)) ∧
          (faults w = [] → l = ledgerOf p (fs w) ∧ faults w' = []).
Proof.
  unfold readProjectIndex. mred.
  destruct (find_node (getProjectIndexPath p) (fs w)) as [n|] eqn:Hn; simpl.
  2:{ eexists _, _. split; [done|]. rewrite (ledgerOf_missing _ _ Hn).
      eauto with world. }
  destruct (fs_query "open" (read (getProjectIndexPath p)) w) as [[d|e] w1] eqn:Hq;
    apply fs_query_inv in Hq as (Hsame & Hl & Hnil & Hr).
  - rewrite <- (ledgerOf_read _ _ _ Hr).
    destruct d as [s|l|r]; eexists _, _; (split; [done|]); simpl;
      eauto 6 with world.
  - eexists _, _. split; [done|]. split; [eauto with world|]. split; [eauto|].
    intros Hf. simpl. split; [|eauto].
    destruct Hr as [_ Hr]. destruct (Hr Hf) as [c Hread].
    by rewrite (ledgerOf_unreadable _ _ _ Hread).
Qed.

Lemma place_find now p x t t' :
  place now p x t = inr t' → find_node p t' = Some x.
Proof.
  revert t t'. induction p as [|s p IH]; intros t t' H; simpl in H.
  - destruct (replaces x t); by simplify_eq.
  - destruct t as [|st es]; [done|].
    destruct (es !! s) as [c|] eqn:Hs.
    + destruct (place now p x c) as [|c'] eqn:Hp; simplify_eq.
      simpl. rewrite lookup_insert_eq. eauto.
    + destruct p; simplify_eq. simpl. by rewrite lookup_insert_eq.
Qed.

Lemma length_append (s x : string) :
  String.length (s +:+ x) = (String.length s + String.length x)%nat.
Proof. induction s as [|a s IH]; simpl; [done | by rewrite IH]. Qed.

Lemma append_nonempty_ne (s x : string) : x ≠ EmptyString → s +:+ x ≠ s.
Proof.
  intros Hx Heq. assert (String.length (s +:+ x) = String.length s) as Hlen by by rewrite Heq.
  rewrite length_append in Hlen. destruct x; [done|]. simpl in Hlen. lia.
Qed.

Lemma tmp_name_ne p : (p +:+ ".json") +:+ ".tmp" ≠ p +:+ ".json".
Proof. by apply append_nonempty_ne. Qed.

(** The inner read of [appendProjectIndexEntry] returns from every world
    without touching the tree. *)
Lemma readCurrent_spec p w :
  ∃ l w', readCurrent p w = (Return l, w') ∧
          same_files w w' ∧
          (l = [] ∨ l = ledgerOf p (fs w)) ∧
          (faults w = [] → l = ledgerOf p (fs w) ∧ faults w' = []).
Proof.
  unfold readCurrent. mred.
  destruct (find_node (getProjectIndexPath p) (fs w)) as [n|] eqn:Hn; simpl.
  2:{ eexists _, _. split; [done|]. rewrite (ledgerOf_missing _ _ Hn).
      eauto with world. }
  destruct (fs_query "open" (read (getProjectIndexPath p)) w) as [[d|e] w1] eqn:Hq;
    apply fs_query_inv in Hq as (Hsame & Hl & Hnil & Hr).
  - rewrite <- (ledgerOf_read _ _ _ Hr).
    destruct d as [s|l|r]; eexists _, _; (split; [done|]); simpl;
      eauto 6 with world.
  - eexists _, _. split; [done|]. split; [eauto with world|]. split; [eauto|].
    intros Hf. simpl. split; [|eauto].
    destruct Hr as [_ Hr]. destruct (Hr Hf) as [c Hread].
    by rewrite (ledgerOf_unreadable _ _ _ Hread).
Qed.

(** An unparseable ledger is read as the empty list, with a warning. *)
Lemma readCurrent_unparseable p w st text :
  faults w = [] →
  find_node (getProjectIndexPath p) (fs w) = Some (File st (Raw text)) →
  readCurrent p w =
  (Return [],
   with_logs (logs w ++ [(WARN, "Index parse error for project " +:+ p +:+ ", resetting:")]) w).
Proof.
  intros Hf Hn. unfold readCurrent. mred. rewrite Hn.
  rewrite (fs_query_ok _ _ _ (Raw text) Hf); [done|].
  unfold read. by rewrite Hn.
Qed.

(** With a working file system the body of the append rewrites the ledger
    to the upserted list. *)
Lemma appendBody_ok p e w :
  faults w = [] → indexWritable p (fs w) →
  ∃ w' st, appendBody p e w = (Return tt, w') ∧
           find_node (getProjectIndexPath p) (fs w') =
             Some (File st (JsonArray (upsert e (ledgerOf p (fs w))))) ∧
           faults w' = [] ∧ logs w' = logs (readCurrent p w).2.
Proof.
  intros Hf (Hdir & Hled & Htmp). unfold appendBody.
  destruct (readCurrent_spec p w) as (l & w1 & Hr & (Hfs & Hck & _) & _ & Hnf).
  destruct (Hnf Hf) as [-> Hf1]. rewrite (bind_Return _ _ _ _ _ Hr). rewrite Hr.
  unfold tmpPathOf, getProjectIndexPath in *.
  destruct (write_join_succeeds (clock w1) ALLURE_INDEX_DIR ((p +:+ ".json") +:+ ".tmp")
              (JsonArray (upsert e (ledgerOf p (fs w)))) (fs w1)) as [t1 Hw];
    [by rewrite Hfs..|].
  unfold writeFileSync.
  rewrite (bind_Return _ _ _ _ _ (fs_update_ok _ _ _ _ Hf1 Hw)).
  destruct (write_find _ _ _ _ _ Hw) as [st Hst].
  destruct (rename_sibling (clock w1) ALLURE_INDEX_DIR _ (p +:+ ".json") t1 st _
              (tmp_name_ne p) Hst) as (t2 & Hren & Hfind).
  { unfold join. erewrite write_frame; [|apply tmp_name_ne|apply Hw].
    by rewrite Hfs. }
  unfold renameSync. erewrite fs_update_ok; [|done|apply Hren].
  eexists _, st. split; [done|]. cbn [fs faults logs snd with_fs]. done.
Qed.

(** From every world the append returns; either the ledger now holds the
    upserted list, or the ledger is as before and the failure is the last
    line of the log. *)
Lemma appendProjectIndexEntry_total p e w :
  ∃ w', appendProjectIndexEntry p e w = (Return tt, w') ∧
        ((∃ st cur, (cur = [] ∨ cur = ledgerOf p (fs w)) ∧
            find_node (getProjectIndexPath p) (fs w') =
              Some (File st (JsonArray (upsert e cur)))) ∨
         (find_node (getProjectIndexPath p) (fs w') =
            find_node (getProjectIndexPath p) (fs w) ∧
          last (logs w') =
            Some (ERROR, "Failed to append index for project " +:+ p +:+ ":"))).
Proof.
  unfold appendProjectIndexEntry, try_catch.
  destruct (appendBody p e w) as [[[]|err] w3] eqn:Hb; unfold appendBody in Hb;
    destruct (readCurrent_spec p w) as (l & w1 & Hr & (Hfs & _) & Hl & _);
    rewrite (bind_Return _ _ _ _ _ Hr) in Hb;
    apply bind_inv in Hb as [(a & w2 & Hw & Hren)|(e' & Hw & ?)]; simplify_eq.
  - eexists; split; [done|]. left.
    apply fs_update_inv in Hw as (_ & _ & _ & _ & _ & Hw).
    apply fs_update_inv in Hren as (_ & _ & _ & _ & _ & Hren).
    unfold rename in Hren.
    destruct (write_find _ _ _ _ _ Hw) as [st Hst]. rewrite Hst in Hren.
    apply place_find in Hren. eauto.
  - eexists; split; [done|]. right. cbn [fs logs with_logs].
    rewrite last_snoc. split; [|done].
    apply fs_update_inv in Hw as (_ & _ & _ & _ & _ & Hw).
    apply fs_update_inv in Hren as (_ & _ & _ & _ & _ & -> & _).
    unfold getProjectIndexPath, tmpPathOf, join in *.
    erewrite write_frame; [|apply tmp_name_ne|apply Hw]. by rewrite Hfs.
  - eexists; split; [done|]. right. cbn [fs logs with_logs].
    rewrite last_snoc. split; [|done].
    apply fs_update_inv in Hw as (_ & _ & _ & _ & _ & -> & _). by rewrite Hfs.
Qed.

(** *** The upsert on lists *)






Lemma ledgerOf_file p t st l :
  find_node (getProjectIndexPath p) t = Some (File st (JsonArray l)) → ledgerOf p t = l.
Proof. unfold ledgerOf. by intros ->. Qed.




(** *** No index operation throws *)

Lemma no_throw_readProjectIndex p : no_throw (readProjectIndex p).
Proof.
  intros w. destruct (readProjectIndex_spec p w) as (l & w' & H & _). eauto.
Qed.

Lemma no_throw_appendProjectIndexEntry p e : no_throw (appendProjectIndexEntry p e).
Proof.
  apply no_throw_try_catch. intros err. apply no_throw_logger.
Qed.

Lemma no_throw_listAllProjectIndexes : no_throw listAllProjectIndexes.
Proof.
  apply no_throw_try_catch. intros err.
  apply no_throw_bind; [apply no_throw_logger|]. intros _. apply no_throw_ret.
Qed.

(** [C6] No operation of the project index propagates a failure: [read],
    [append] and [listAll] return from every world.  A read whose file
    access throws, or whose ledger is not parseable, yields the empty
    list.  An append over an unparseable ledger logs a warning and writes
    the one-entry ledger; an append whose write throws returns normally
    with the failure logged and the ledger as it was. *)
Theorem project_index_never_throws :
  (∀ p, no_throw (readProjectIndex p)) ∧
  (∀ p e, no_throw (appendProjectIndexEntry p e)) ∧
  no_throw listAllProjectIndexes ∧
  (∀ p w, ∃ l w', readProjectIndex p w = (Return l, w') ∧
                  (l = [] ∨ l = ledgerOf p (fs w))) ∧
  (∀ p w ex w1,
     is_Some (find_node (getProjectIndexPath p) (fs w)) →
     readFileSync (getProjectIndexPath p) w = (Throw ex, w1) →
     (readProjectIndex p w).1 = Return []) ∧
  (∀ p w st text,
     find_node (getProjectIndexPath p) (fs w) = Some (File st (Raw text)) →
     (readProjectIndex p w).1 = Return []) ∧
  (∀ p e w st text,
     faults w = [] → indexWritable p (fs w) →
     find_node (getProjectIndexPath p) (fs w) = Some (File st (Raw text)) →
     let w' := (appendProjectIndexEntry p e w).2 in
     ledgerOf p (fs w') = [e] ∧
     logs w' = logs w ++ [(WARN, "Index parse error for project " +:+ p +:+ ", resetting:")]) ∧
  (∀ p e w l w1 ex w2,
     readCurrent p w = (Return l, w1) →
     writeFileSync (tmpPathOf p) (JsonArray (upsert e l)) w1 = (Throw ex, w2) →
     appendProjectIndexEntry p e w =
       (Return tt,
        with_logs (logs w2 ++ [(ERROR, "Failed to append index for project " +:+ p +:+ ":")]) w2) ∧
     find_node (getProjectIndexPath p) (fs w2) = find_node (getProjectIndexPath p) (fs w)).
Proof.
  split; [apply no_throw_readProjectIndex|].
  split; [apply no_throw_appendProjectIndexEntry|].
  split; [apply no_throw_listAllProjectIndexes|].
  split; [|split; [|split; [|split]]].
  - intros p w. destruct (readProjectIndex_spec p w) as (l & w' & H & _ & Hl & _). eauto.
  - intros p w ex w1 [n Hn] Hread. unfold readProjectIndex. mred. rewrite Hn.
    unfold readFileSync in Hread. cbn [negb]. by rewrite Hread.
  - intros p w st text Hn. unfold readProjectIndex. mred. rewrite Hn. cbn [negb].
    destruct (fs_query "open" (read (getProjectIndexPath p)) w) as [[d|e] w1] eqn:Hq; [|done].
    apply fs_query_inv in Hq as (_ & _ & _ & Hr). unfold read in Hr. rewrite Hn in Hr.
    by simplify_eq.
  - intros p e w st text Hf Hw Hn w'. subst w'.
    unfold appendProjectIndexEntry, try_catch.
    destruct (appendBody_ok p e w Hf Hw) as (w' & st' & -> & Hfind & _ & Hlog).
    cbn [snd]. rewrite (ledgerOf_file _ _ _ _ Hfind), Hlog.
    rewrite (readCurrent_unparseable _ _ _ _ Hf Hn).
    unfold ledgerOf. rewrite Hn. done.
  - intros p e w l w1 ex w2 Hr Hwrite.
    unfold appendProjectIndexEntry, try_catch, appendBody.
    rewrite (bind_Return _ _ _ _ _ Hr), (bind_Throw _ _ _ _ _ Hwrite).
    split; [done|].
    destruct (readCurrent_spec p w) as (l' & w1' & Hr' & (Hfs & _) & _).
    rewrite Hr in Hr'. simplify_eq.
    apply fs_update_inv in Hwrite as (_ & _ & _ & _ & _ & -> & _). by rewrite Hfs.
Qed.

Lemma project_index_never_throws_witness :
  let w := Sample.world Sample.tree_used (3 * Sample.day) [] Sample.cli_missing in
  let e := Sample.entryOf "run-7" "p2" 99 in
  let w' := (appendProjectIndexEntry "p2" e w).2 in
  faults w = [] ∧ indexWritable "p2" (fs w) ∧
  ledgerOf "p2" (fs w') = [e] ∧
  logs w' = [(WARN, "Index parse error for project p2, resetting:")].
Proof.
  intros w e w'.
  assert (faults w = []) as Hf by reflexivity.
  assert (indexWritable "p2" (fs w)) as Hw by (repeat split; vm_compute; reflexivity).
  split; [exact Hf|]. split; [exact Hw|].
  destruct project_index_never_throws as (_ & _ & _ & _ & _ & _ & H & _).
  refine (H "p2" e w (fresh Sample.day) "[{ truncated" Hf Hw _).
  vm_compute. reflexivity.
Defined.

(** ** Names and [path.join] *)

Lemma hasSeparator_cons c s : hasSeparator (String c s) = Ascii.eqb "/" c || hasSeparator s.
Proof. unfold hasSeparator. cbn [includes startsWith]. by destruct (Ascii.eqb "/" c). Qed.

Lemma hasSeparator_append a b : hasSeparator (a +:+ b) = hasSeparator a || hasSeparator b.
Proof.
  induction a as [|c a IH]; [done|].
  change (String c a +:+ b) with (String c (a +:+ b)).
  rewrite !hasSeparator_cons, IH. by rewrite orb_assoc.
Qed.

Lemma split_sep_segment s : hasSeparator s = false → split_sep s = [s].
Proof.
  induction s as [|c s IH]; [done|]. rewrite hasSeparator_cons.
  intros H. apply orb_false_elim in H as [Hc Hs]. cbn [split_sep]. by rewrite Hc, (IH Hs).
Qed.

(** On a segment the model's [join] is [path.join]. *)
Lemma path_join_segment dir s : segment s = true → path_join dir s = Some (join dir s).
Proof.
  unfold segment, path_join. intros H. apply andb_prop in H as [Hsep Hs].
  apply negb_true_iff in Hsep, Hs. rewrite (split_sep_segment _ Hsep). cbn [foldl enter].
  apply orb_false_elim in Hs as [Hs H2]. rewrite Hs. by rewrite H2.
Qed.

Lemma segment_suffix p x :
  hasSeparator p = false → hasSeparator x = false → (2 < String.length x)%nat →
  segment (p +:+ x) = true.
Proof.
  intros Hp Hx Hlen. unfold segment. rewrite hasSeparator_append, Hp, Hx. cbn [orb negb andb].
  apply negb_true_iff.
  assert (∀ y, (String.length y < 3)%nat → String.eqb (p +:+ x) y = false) as Hne.
  { intros y Hy. apply String.eqb_neq. intros Heq.
    assert (String.length (p +:+ x) = String.length y) as Hl by (by rewrite Heq).
    rewrite length_append in Hl. lia. }
  rewrite !Hne by (cbn; lia). done.
Qed.

Lemma segment_no_separator s : segment s = true → hasSeparator s = false.
Proof. unfold segment. intros H. apply andb_prop in H as [H _]. by apply negb_true_iff. Qed.

(** For an id that is a segment, the paths of the model are the paths
    the service computes with [path.join]. *)
Lemma service_paths_of_segment id :
  segment id = true →
  path_join ALLURE_REPORTS_DIR id = Some (reportPathOf id) ∧
  path_join ALLURE_RESULTS_DIR (id +:+ "-result.json") = Some (resultFileOf id) ∧
  path_join ALLURE_INDEX_DIR (id +:+ ".json") = Some (getProjectIndexPath id) ∧
  path_join ALLURE_INDEX_DIR ((id +:+ ".json") +:+ ".tmp") = Some (tmpPathOf id).
Proof.
  intros Hs. pose proof (segment_no_separator _ Hs) as Hsep.
  split; [by apply path_join_segment|].
  split; [apply path_join_segment, segment_suffix; [done|done|cbn; lia]|].
  split; [apply path_join_segment, segment_suffix; [done|done|cbn; lia]|].
  apply path_join_segment, segment_suffix; [|done|cbn; lia].
  by rewrite hasSeparator_append, Hsep.
Qed.

(** Other ids reach other places: [path.join] resolves [".."], so an id
    with separators can name the result file of a run, and the empty id
    names the reports root itself. *)
Lemma path_join_resolves :
  path_join ALLURE_INDEX_DIR ("../../allure-results/run-1-result" +:+ ".json")
    = Some (resultFileOf "run-1") ∧
  path_join ALLURE_REPORTS_DIR EmptyString = Some ALLURE_REPORTS_DIR ∧
  path_join ALLURE_REPORTS_DIR "x/../run-1" = Some (reportPathOf "run-1") ∧
  path_join ALLURE_REPORTS_DIR ".." = Some [] ∧
  path_join ALLURE_REPORTS_DIR "../.." = None.
Proof. repeat split; vm_compute; reflexivity. Qed.

(** ** Report generation *)

#[global] Arguments find_node : simpl never.

Section stable.

Lemma stable_ret {A} (a : A) : stable (ret a).
Proof. intros w r w' H. unfold ret in H. by simplify_eq. Qed.

Lemma stable_throw {A} e : stable (throw (A:=A) e).
Proof. intros w r w' H. unfold throw in H. by simplify_eq. Qed.

Lemma stable_bind {A B} (m : M A) (k : A → M B) :
  stable m → (∀ a, stable (k a)) → stable (bind m k).
Proof.
  intros Hm Hk w r w' H.
  destruct (bind_inv _ _ _ _ _ H) as [(a & w1 & Hm' & Hk')|(e & Hm' & _)].
  - destruct (Hm _ _ _ Hm') as (H1 & H2 & H3).
    destruct (Hk _ _ _ _ Hk') as (H4 & H5 & H6). repeat split; congruence.
  - eapply Hm, Hm'.
Qed.

Lemma stable_try_catch {A} (m : M A) (h : Exn → M A) :
  stable m → (∀ e, stable (h e)) → stable (try_catch m h).
Proof.
  intros Hm Hh w r w' H.
  destruct (try_catch_inv _ _ _ _ _ H) as [(a & Hm' & _)|(e & w1 & Hm' & Hh')].
  - eapply Hm, Hm'.
  - destruct (Hm _ _ _ Hm') as (H1 & H2 & H3).
    destruct (Hh _ _ _ _ Hh') as (H4 & H5 & H6). repeat split; congruence.
Qed.

Lemma stable_when b (m : M unit) : stable m → stable (when b m).
Proof. intros Hm. destruct b; [done | apply stable_ret]. Qed.

Lemma stable_existsSync p : stable (existsSync p).
Proof. intros w r w' H. unfold existsSync in H. by simplify_eq. Qed.

Lemma stable_logger lvl msg : stable (logger lvl msg).
Proof. intros w r w' H. unfold logger in H. by simplify_eq. Qed.

Lemma stable_path_of p : stable (path_of p).
Proof. intros w r w' H. unfold path_of in H. by simplify_eq. Qed.

Lemma stable_Date_now : stable Date_now.
Proof. intros w r w' H. unfold Date_now in H. by simplify_eq. Qed.

Lemma stable_fs_update sc f : stable (fs_update sc f).
Proof. intros w r w' H. apply fs_update_inv in H as (? & ? & ? & _). done. Qed.

Lemma stable_fs_query {A} sc (f : node → Errno + A) : stable (fs_query sc f).
Proof. intros w r w' H. apply fs_query_inv in H as ((_ & ? & ? & ?) & _). done. Qed.

Lemma stable_execSync results out : stable (execSync_allure_generate results out).
Proof.
  intros w r w' H. unfold execSync_allure_generate in H.
  destruct (allure_cli w results out (fs w)) as [[m|] t]; by simplify_eq.
Qed.

End stable.

Ltac solve_stable :=
  repeat first
    [ apply stable_fs_update | apply stable_fs_query | apply stable_execSync
    | apply stable_ret | apply stable_throw | apply stable_existsSync
    | apply stable_logger | apply stable_path_of | apply stable_Date_now
    | apply stable_when
    | apply stable_try_catch; [|intros ?]
    | apply stable_bind; [|intros ?] ].

Lemma stable_generatePrimary testRunId : stable (generatePrimary testRunId).
Proof.
  unfold generatePrimary, ensureResultFile, ensureReportDir, tryAllureCli, writeBasicReport,
    writeFileSync, mkdirSync.
  solve_stable.
Qed.

Lemma stable_generateFallback e testRunId : stable (generateFallback e testRunId).
Proof.
  unfold generateFallback, ensureReportDir, writeFileSync, mkdirSync. solve_stable.
Qed.

(** Exceptions of the [fs] calls are file-system errors. *)
Lemma throws_fs_update sc f : throws_only (λ e, is_fs_error e = true) (fs_update sc f).
Proof. intros w e w' H. by apply fs_update_inv in H as (_ & _ & _ & _ & _ & _ & ? & _). Qed.

(** The CLI step absorbs every failure of the command. *)
Lemma tryAllureCli_spec reportPath w :
  ∃ b w', tryAllureCli reportPath w = (Return b, w') ∧
          fs w' = (allure_cli w ALLURE_RESULTS_DIR reportPath (fs w)).2 ∧
          b = (if (allure_cli w ALLURE_RESULTS_DIR reportPath (fs w)).1 is Some _
               then true else false) ∧
          faults w' = faults w.
Proof.
  unfold tryAllureCli, execSync_allure_generate. mred.
  destruct (allure_cli w ALLURE_RESULTS_DIR reportPath (fs w)) as [[m|] t];
    eexists _, _; (split; [done|]); done.
Qed.

Lemma no_throw_tryAllureCli reportPath : no_throw (tryAllureCli reportPath).
Proof. intros w. destruct (tryAllureCli_spec reportPath w) as (b & w' & H & _). eauto. Qed.

Lemma throws_generatePrimary testRunId :
  throws_only (λ e, is_fs_error e = true) (generatePrimary testRunId).
Proof.
  unfold generatePrimary, ensureResultFile, ensureReportDir, writeBasicReport,
    writeFileSync, mkdirSync.
  repeat first
    [ apply throws_fs_update
    | apply throws_only_when
    | apply throws_only_no_throw;
      first [ apply no_throw_existsSync | apply no_throw_logger | apply no_throw_path_of
            | apply no_throw_tryAllureCli | apply no_throw_ret
            | by (intros ?; eexists _, _) ]
    | apply throws_only_bind; [|intros ?] ].
Qed.

Lemma throws_generateFallback e testRunId :
  throws_only (λ e, is_fs_error e = true) (generateFallback e testRunId).
Proof.
  unfold generateFallback, ensureReportDir, writeFileSync, mkdirSync.
  repeat first
    [ apply throws_fs_update
    | apply throws_only_when
    | apply throws_only_no_throw;
      first [ apply no_throw_existsSync | apply no_throw_path_of ]
    | apply throws_only_bind; [|intros ?] ].
Qed.

Lemma stable_ensureResultFile testRunId : stable (ensureResultFile testRunId).
Proof. unfold ensureResultFile, writeFileSync. solve_stable. Qed.

Lemma stable_ensureReportDir p : stable (ensureReportDir p).
Proof. unfold ensureReportDir, mkdirSync. solve_stable. Qed.

Lemma stable_tryAllureCli p : stable (tryAllureCli p).
Proof. unfold tryAllureCli. solve_stable. Qed.

Lemma stable_writeBasicReport testRunId b : stable (writeBasicReport testRunId b).
Proof. unfold writeBasicReport, writeFileSync. solve_stable. Qed.

Lemma path_string_cwd w w' p : cwd w' = cwd w → path_string w' p = path_string w p.
Proof. unfold path_string. by intros ->. Qed.

Lemma path_string_nonempty w p : path_string w p ≠ EmptyString.
Proof. done. Qed.

(** Once the entry page is in place, the artifact directory exists. *)
Lemma writeBasicReport_Return testRunId b w w' :
  writeBasicReport testRunId b w = (Return tt, w') →
  is_dir (find_node (reportPathOf testRunId) (fs w')) = true ∧
  is_file (find_node (indexHtmlOf testRunId) (fs w')) = true ∨
  fs w' = fs w ∧ is_Some (find_node (indexHtmlOf testRunId) (fs w)) ∧ b = false.
Proof.
  unfold writeBasicReport. intros H.
  apply bind_inv in H as [(hasIndex & w1 & H1 & H)|(e & _ & ?)]; [|done].
  unfold existsSync in H1. simplify_eq.
  destruct (b || negb _) eqn:Hb; simpl in H.
  - left. apply bind_inv in H as [([] & w2 & H2 & H)|(e & _ & ?)]; [|done].
    unfold path_of, logger, bind in H. simplify_eq. cbn [fs with_logs].
    apply fs_update_inv in H2 as (_ & _ & _ & _ & _ & H2).
    destruct (write_find _ _ _ _ _ H2) as [st Hst].
    unfold indexHtmlOf. rewrite Hst. split; [|done].
    by eapply find_node_join_Some.
  - right. unfold ret in H. simplify_eq.
    apply orb_false_elim in Hb as [-> Hb]. split; [done|]. split; [|done].
    unfold indexHtmlOf. by destruct (find_node _ (fs w')).
Qed.

Lemma generatePrimary_Return testRunId w s w' :
  generatePrimary testRunId w = (Return s, w') →
  s = path_string w (reportPathOf testRunId) ∧
  is_dir (find_node (reportPathOf testRunId) (fs w')) = true.
Proof.
  unfold generatePrimary. intros H.
  apply bind_inv in H as [(a1 & w1 & H1 & H)|(e & _ & ?)]; [|done].
  apply bind_inv in H as [(a2 & w2 & H2 & H)|(e & _ & ?)]; [|done].
  apply bind_inv in H as [(b & w3 & H3 & H)|(e & _ & ?)]; [|done].
  apply bind_inv in H as [([] & w4 & H4 & H)|(e & _ & ?)]; [|done].
  unfold path_of, logger, ret, bind in H. simplify_eq. cbn [fs with_logs].
  apply stable_ensureResultFile in H1 as (_ & Hc1 & _).
  apply stable_ensureReportDir in H2 as (_ & Hc2 & _).
  apply stable_tryAllureCli in H3 as (_ & Hc3 & _).
  pose proof (stable_writeBasicReport _ _ _ _ _ H4) as (_ & Hc4 & _).
  split; [apply path_string_cwd; congruence|].
  apply writeBasicReport_Return in H4 as [[Hd _]|(Hfs & [n Hn] & _)]; [done|].
  rewrite Hfs. unfold indexHtmlOf in Hn. by eapply find_node_join_Some.
Qed.

Lemma generateFallback_Return e testRunId w s w' :
  generateFallback e testRunId w = (Return s, w') →
  s = path_string w (reportPathOf testRunId) ∧
  is_dir (find_node (reportPathOf testRunId) (fs w')) = true ∧
  entryResource testRunId (fs w') = Some (Raw (errorHtml e testRunId)).
Proof.
  unfold generateFallback. intros H.
  apply bind_inv in H as [(a1 & w1 & H1 & H)|(e' & _ & ?)]; [|done].
  apply bind_inv in H as [(a2 & w2 & H2 & H)|(e' & _ & ?)]; [|done].
  unfold path_of in H. simplify_eq.
  apply stable_ensureReportDir in H1 as (_ & Hc1 & _).
  unfold writeFileSync in H2.
  pose proof (stable_fs_update _ _ _ _ _ H2) as (_ & Hc2 & _).
  split; [apply path_string_cwd; congruence|].
  apply fs_update_inv in H2 as (_ & _ & _ & _ & _ & H2).
  destruct (write_find _ _ _ _ _ H2) as [st Hst].
  unfold entryResource, indexHtmlOf. rewrite Hst. split; [|done].
  by eapply find_node_join_Some.
Qed.

Lemma bind_logger {A} lvl msg (k : unit → M A) w :
  bind (logger lvl msg) k w = k tt (with_logs (logs w ++ [(lvl, msg)]) w).
Proof. done. Qed.

(** A returning [generateReport] yields the run's artifact path and
    leaves the artifact directory in place. *)
Lemma generateReport_Return testRunId w s w' :
  generateReport testRunId w = (Return s, w') →
  s = path_string w (reportPathOf testRunId) ∧
  is_dir (find_node (reportPathOf testRunId) (fs w')) = true.
Proof.
  unfold generateReport. intros H.
  apply try_catch_inv in H as [(a & H & ?)|(e & w1 & H1 & H)]; simplify_eq.
  - by apply generatePrimary_Return in H.
  - rewrite bind_logger in H.
    apply try_catch_inv in H as [(a & H & ?)|(e' & w3 & H3 & H)]; simplify_eq.
    apply generateFallback_Return in H as (-> & Hd & _). split; [|done].
    apply path_string_cwd. cbn [cwd with_logs].
    by apply stable_generatePrimary in H1 as (_ & ? & _).
Qed.

(** A throwing [generateReport]: the primary path failed with a
    file-system error and so did the fallback, in creating the artifact
    directory or in writing the entry page. *)
Lemma generateReport_Throw testRunId w e w' :
  generateReport testRunId w = (Throw e, w') →
  ∃ e1 w1 f w2,
    generatePrimary testRunId w = (Throw e1, w1) ∧ is_fs_error e1 = true ∧
    is_fs_error f = true ∧
    (let wl := with_logs (logs w1 ++ [(ERROR, "Error generating Allure report:")]) w1 in
     (find_node (reportPathOf testRunId) (fs w1) = None ∧
      mkdirSync (reportPathOf testRunId) wl = (Throw f, w2)) ∨
     (∃ wd, ensureReportDir (reportPathOf testRunId) wl = (Return tt, wd) ∧
            writeFileSync (indexHtmlOf testRunId) (Raw (errorHtml e1 testRunId)) wd
              = (Throw f, w2))) ∧
    e = Error (or_else (message e1) "Failed to generate Allure report").
Proof.
  unfold generateReport. intros H.
  apply try_catch_inv in H as [(a & H & ?)|(e1 & w1 & H1 & H)]; [done|].
  rewrite bind_logger in H.
  apply try_catch_inv in H as [(a & H & ?)|(f & w2 & H3 & H)]; [done|].
  rewrite bind_logger in H. unfold throw in H. simplify_eq.
  exists e1, w1, f, w2. split; [done|].
  split; [by eapply throws_generatePrimary|].
  split; [by eapply throws_generateFallback|]. split; [|done].
  unfold generateFallback in H3.
  apply bind_inv in H3 as [([] & wd & Hd & H3)|(e' & Hd & ?)]; simplify_eq.
  - right. exists wd. split; [done|].
    apply bind_inv in H3 as [([] & w4 & H4 & H3)|(e' & H4 & ?)]; simplify_eq.
    done.
  - left. unfold ensureReportDir in Hd. revert Hd. mred. cbn [fs with_logs].
    destruct (find_node (reportPathOf testRunId) (fs w1)); cbn [negb]; [done|].
    intros Hd. split; [done|]. apply Hd.
Qed.

(** *** Generation with a working file system *)

Lemma ensureResultFile_ok testRunId w :
  faults w = [] →
  is_dir (find_node ALLURE_RESULTS_DIR (fs w)) = true →
  ∃ w1, ensureResultFile testRunId w = (Return tt, w1) ∧ faults w1 = [] ∧
        ∀ q, find_node (ALLURE_REPORTS_DIR ++ q) (fs w1) =
             find_node (ALLURE_REPORTS_DIR ++ q) (fs w).
Proof.
  intros Hf Hd. unfold ensureResultFile. mred.
  destruct (find_node (resultFileOf testRunId) (fs w)) as [n|] eqn:Hn; cbn [negb].
  { by exists w. }
  unfold resultFileOf in *.
  destruct (write_join_succeeds (clock w) ALLURE_RESULTS_DIR (testRunId +:+ "-result.json")
              (JsonObject (minimalResult testRunId (clock w) (clock w))) (fs w) Hd)
    as [t1 Hw]; [by rewrite Hn|].
  erewrite (fs_update_ok _ _ (with_logs _ w)); [|done|apply Hw].
  eexists. split; [done|]. split; [done|]. intros q. cbn [fs with_fs with_logs].
  eapply (write_frame _ [] "allure-results" "allure-reports"); [done|apply Hw].
Qed.

Lemma ensureReportDir_ok testRunId w :
  faults w = [] →
  is_dir (find_node ALLURE_REPORTS_DIR (fs w)) = true →
  is_file (find_node (reportPathOf testRunId) (fs w)) = false →
  is_dir (find_node (indexHtmlOf testRunId) (fs w)) = false →
  ∃ w2, ensureReportDir (reportPathOf testRunId) w = (Return tt, w2) ∧ faults w2 = [] ∧
        is_dir (find_node (reportPathOf testRunId) (fs w2)) = true ∧
        is_dir (find_node (indexHtmlOf testRunId) (fs w2)) = false.
Proof.
  intros Hf Hd Hnf Hni. unfold ensureReportDir. mred.
  destruct (find_node (reportPathOf testRunId) (fs w)) as [n|] eqn:Hn; cbn [negb].
  { exists w. repeat split; try done. rewrite Hn. by destruct n. }
  unfold reportPathOf in *.
  destruct (mkdirp_join_succeeds (clock w) ALLURE_REPORTS_DIR testRunId (fs w) Hd)
    as [t2 Hm]; [by rewrite Hn|].
  erewrite fs_update_ok; [|done|apply Hm].
  eexists. split; [done|]. split; [done|]. cbn [fs with_fs].
  split; [by eapply mkdirp_find|].
  unfold indexHtmlOf, reportPathOf. rewrite find_node_join.
  by rewrite (mkdirp_join_new _ _ _ _ _ Hn Hm).
Qed.

Lemma writeBasicReport_ok testRunId b w :
  faults w = [] →
  is_dir (find_node (reportPathOf testRunId) (fs w)) = true →
  is_dir (find_node (indexHtmlOf testRunId) (fs w)) = false →
  ∃ w4, writeBasicReport testRunId b w = (Return tt, w4) ∧ faults w4 = [] ∧
        (b = true → entryResource testRunId (fs w4) = Some (Raw (basicHtml testRunId))).
Proof.
  intros Hf Hd Hni. unfold writeBasicReport. mred.
  destruct (b || negb _) eqn:Hb.
  - destruct (write_join_succeeds (clock w) (reportPathOf testRunId) "index.html"
                (Raw (basicHtml testRunId)) (fs w) Hd Hni) as [t4 Hw].
    erewrite fs_update_ok; [|done|apply Hw].
    eexists. split; [done|]. split; [done|]. intros _. cbn [fs with_fs with_logs].
    destruct (write_find _ _ _ _ _ Hw) as [st Hst].
    unfold entryResource, indexHtmlOf. by rewrite Hst.
  - exists w. repeat split; try done. intros ->. done.
Qed.

(** With a working file system and a CLI that keeps its output directory,
    the primary path returns, whether the command succeeds or fails; when
    it fails, the entry resource is the basic page. *)
Lemma generatePrimary_ok testRunId w :
  faults w = [] →
  artifactWritable testRunId (fs w) →
  cli_keeps_output (allure_cli w) →
  ∃ w', generatePrimary testRunId w = (Return (path_string w (reportPathOf testRunId)), w') ∧
        (cli_fails (allure_cli w) →
         entryResource testRunId (fs w') = Some (Raw (basicHtml testRunId))).
Proof.
  intros Hf (Hres & Hrep & Hnf & Hni) Hcli.
  destruct (ensureResultFile_ok testRunId w Hf Hres) as (w1 & H1 & Hf1 & Hfr).
  assert (∀ q, find_node (join ALLURE_REPORTS_DIR testRunId ++ q) (fs w1) =
               find_node (join ALLURE_REPORTS_DIR testRunId ++ q) (fs w)) as Hfr'.
  { intros q. unfold join. rewrite <- !(assoc_L (++)). apply Hfr. }
  destruct (ensureReportDir_ok testRunId w1 Hf1) as (w2 & H2 & Hf2 & Hd2 & Hi2).
  { specialize (Hfr []). rewrite !(right_id_L [] (++)) in Hfr. by rewrite Hfr. }
  { specialize (Hfr' []). rewrite !(right_id_L [] (++)) in Hfr'.
    unfold reportPathOf. by rewrite Hfr'. }
  { unfold indexHtmlOf, reportPathOf, join at 1. by rewrite Hfr'. }
  destruct (tryAllureCli_spec (reportPathOf testRunId) w2) as (b & w3 & H3 & Hfs3 & Hb & Hf3).
  pose proof (stable_ensureResultFile _ _ _ _ H1) as (_ & _ & Hc1).
  pose proof (stable_ensureReportDir _ _ _ _ H2) as (_ & _ & Hc2).
  assert (allure_cli w2 = allure_cli w) as Hcw by congruence.
  rewrite Hcw in Hfs3, Hb.
  destruct (Hcli ALLURE_RESULTS_DIR (reportPathOf testRunId) (fs w2) Hd2 Hi2) as [Hd3 Hi3].
  rewrite <- Hfs3 in Hd3, Hi3.
  destruct (writeBasicReport_ok testRunId b w3) as (w4 & H4 & Hf4 & He4);
    [congruence|done|done|].
  assert (∃ s, generatePrimary testRunId w =
               (Return s, with_logs (logs w4 ++ [(INFO, "Report generated at: " +:+ s)]) w4))
    as [s Hs].
  { unfold generatePrimary.
    rewrite (bind_Return _ _ _ _ _ H1), (bind_Return _ _ _ _ _ H2),
      (bind_Return _ _ _ _ _ H3), (bind_Return _ _ _ _ _ H4).
    eexists. reflexivity. }
  destruct (generatePrimary_Return _ _ _ _ Hs) as [-> _].
  eexists. split; [apply Hs|]. intros Hfail. cbn [fs with_logs]. apply He4.
  rewrite Hb. specialize (Hfail ALLURE_RESULTS_DIR (reportPathOf testRunId) (fs w2)).
  by destruct (allure_cli w _ _ _).1.
Qed.



Lemma cli_missing_fails : cli_fails Sample.cli_missing.
Proof. intros results out t. done. Qed.

(** The last step of the primary path, when it returns: the entry page
    exists, and it is the basic page when the step was asked to write. *)
Lemma writeBasicReport_Return_page testRunId b w w' :
  writeBasicReport testRunId b w = (Return tt, w') →
  is_Some (find_node (indexHtmlOf testRunId) (fs w')) ∧
  (b = true → entryResource testRunId (fs w') = Some (Raw (basicHtml testRunId))).
Proof.
  unfold writeBasicReport. intros H.
  apply bind_inv in H as [(hasIndex & w1 & H1 & H)|(e & _ & ?)]; [|done].
  unfold existsSync in H1. simplify_eq.
  destruct (b || negb _) eqn:Hb; simpl in H.
  - apply bind_inv in H as [([] & w2 & H2 & H)|(e & _ & ?)]; [|done].
    unfold path_of, logger, bind in H. simplify_eq. cbn [fs with_logs].
    apply fs_update_inv in H2 as (_ & _ & _ & _ & _ & H2).
    destruct (write_find _ _ _ _ _ H2) as [st Hst].
    unfold entryResource, indexHtmlOf. rewrite Hst. split; [eauto|done].
  - unfold ret in H. simplify_eq. apply orb_false_elim in Hb as [-> Hb].
    split; [|done]. unfold indexHtmlOf. destruct (find_node _ (fs w')); [eauto|done].
Qed.

(** A returning primary path leaves an entry page; it is the basic page
    when the command, run in the tree left by the first two steps,
    failed. *)
Lemma generatePrimary_Return_page testRunId w s w' :
  generatePrimary testRunId w = (Return s, w') →
  is_Some (find_node (indexHtmlOf testRunId) (fs w')) ∧
  ((allure_cli w ALLURE_RESULTS_DIR (reportPathOf testRunId)
      (fs (ensureReportDir (reportPathOf testRunId) (ensureResultFile testRunId w).2).2)).1
   ≠ None →
   entryResource testRunId (fs w') = Some (Raw (basicHtml testRunId))).
Proof.
  unfold generatePrimary. intros H.
  apply bind_inv in H as [([] & w1 & H1 & H)|(e & _ & ?)]; [|done].
  apply bind_inv in H as [([] & w2 & H2 & H)|(e & _ & ?)]; [|done].
  apply bind_inv in H as [(b & w3 & H3 & H)|(e & _ & ?)]; [|done].
  apply bind_inv in H as [([] & w4 & H4 & H)|(e & _ & ?)]; [|done].
  unfold path_of, logger, ret, bind in H. simplify_eq. cbn [fs with_logs].
  rewrite H1. cbn [snd]. rewrite H2. cbn [snd].
  pose proof (stable_ensureResultFile _ _ _ _ H1) as (_ & _ & Hc1).
  pose proof (stable_ensureReportDir _ _ _ _ H2) as (_ & _ & Hc2).
  destruct (tryAllureCli_spec (reportPathOf testRunId) w2) as (b' & w3' & H3' & _ & Hb & _).
  rewrite Hc2, Hc1 in Hb. rewrite H3 in H3'. assert (b = b') as -> by congruence.
  destruct (writeBasicReport_Return_page _ _ _ _ H4) as [Hsome Hpage].
  split; [done|]. intros Hfail. apply Hpage. rewrite Hb.
  by destruct (allure_cli w _ _ _).1.
Qed.

(** A returning [generateReport]: either the primary path returned, or
    it threw a file-system error and the fallback wrote the error page. *)
Lemma generateReport_Return_page testRunId w p w' :
  generateReport testRunId w = (Return p, w') →
  is_Some (find_node (indexHtmlOf testRunId) (fs w')) ∧
  ((generatePrimary testRunId w = (Return p, w') ∧
    ((allure_cli w ALLURE_RESULTS_DIR (reportPathOf testRunId)
        (fs (ensureReportDir (reportPathOf testRunId) (ensureResultFile testRunId w).2).2)).1
     ≠ None →
     entryResource testRunId (fs w') = Some (Raw (basicHtml testRunId)))) ∨
   (∃ e1 w1, generatePrimary testRunId w = (Throw e1, w1) ∧ is_fs_error e1 = true ∧
             entryResource testRunId (fs w') = Some (Raw (errorHtml e1 testRunId)))).
Proof.
  unfold generateReport. intros H.
  apply try_catch_inv in H as [(a & H & ?)|(e1 & w1 & H1 & H)]; simplify_eq.
  - destruct (generatePrimary_Return_page _ _ _ _ H) as [Hsome Hpage].
    split; [done|]. left. done.
  - rewrite bind_logger in H.
    apply try_catch_inv in H as [(a & H & ?)|(f & w3 & H3 & H)]; simplify_eq.
    apply generateFallback_Return in H as (_ & _ & He). split.
    + unfold entryResource in He. destruct (find_node _ (fs w')); [eauto|done].
    + right. exists e1, w1. split; [done|]. split; [by eapply throws_generatePrimary|done].
Qed.

(** [C1] Every outcome of [generateReport].  When it returns, the value
    is the run's artifact path, which is never empty, the artifact
    directory exists and holds an entry page; the primary path returned,
    and then a failure of the command (run in the tree left by the
    creation of the result file and of the artifact directory) has been
    turned into the basic page, or the primary path threw a file-system
    error and the entry page is the error page of the fallback.  When it
    throws, the primary path failed with a file-system error and the
    fallback then failed with one as well, in creating the artifact
    directory or in writing the entry page.  The step that runs the
    command returns whatever the command does. *)
Theorem generateReport_path_or_fs_failure (testRunId : string) (w : World) :
  let wt := (ensureReportDir (reportPathOf testRunId) (ensureResultFile testRunId w).2).2 in
  let tool := allure_cli w ALLURE_RESULTS_DIR (reportPathOf testRunId) (fs wt) in
  match generateReport testRunId w with
  | (Return p, w') =>
      p = path_string w (reportPathOf testRunId) ∧ p ≠ EmptyString ∧
      is_dir (find_node (reportPathOf testRunId) (fs w')) = true ∧
      is_Some (find_node (indexHtmlOf testRunId) (fs w')) ∧
      ((generatePrimary testRunId w = (Return p, w') ∧
        (tool.1 ≠ None →
         entryResource testRunId (fs w') = Some (Raw (basicHtml testRunId)))) ∨
       (∃ e1 w1, generatePrimary testRunId w = (Throw e1, w1) ∧ is_fs_error e1 = true ∧
                 entryResource testRunId (fs w') = Some (Raw (errorHtml e1 testRunId))))
  | (Throw e, w') =>
      ∃ e1 w1 f w2,
        generatePrimary testRunId w = (Throw e1, w1) ∧ is_fs_error e1 = true ∧
        is_fs_error f = true ∧
        (let wl := with_logs (logs w1 ++ [(ERROR, "Error generating Allure report:")]) w1 in
         (find_node (reportPathOf testRunId) (fs w1) = None ∧
          mkdirSync (reportPathOf testRunId) wl = (Throw f, w2)) ∨
         (∃ wd, ensureReportDir (reportPathOf testRunId) wl = (Return tt, wd) ∧
                writeFileSync (indexHtmlOf testRunId) (Raw (errorHtml e1 testRunId)) wd
                  = (Throw f, w2))) ∧
        e = Error (or_else (message e1) "Failed to generate Allure report")
  end ∧
  (∀ reportPath, no_throw (tryAllureCli reportPath)).
Proof.
  intros wt tool. split; [|apply no_throw_tryAllureCli].
  destruct (generateReport testRunId w) as [[p|e] w'] eqn:H.
  - destruct (generateReport_Return _ _ _ _ H) as [-> Hd].
    destruct (generateReport_Return_page _ _ _ _ H) as [Hsome Hpage].
    split; [done|]. split; [apply path_string_nonempty|]. done.
  - exact (generateReport_Throw _ _ _ _ H).
Qed.

Lemma generateReport_path_or_fs_failure_witness :
  let w := Sample.world Sample.tree_empty 1000 [] Sample.cli_missing in
  ∃ w', generateReport "run-9" w = (Return "/srv/app/allure-reports/run-9", w') ∧
        is_dir (find_node (reportPathOf "run-9") (fs w')) = true ∧
        entryResource "run-9" (fs w') = Some (Raw (basicHtml "run-9")).
Proof.
  intros w.
  assert (∃ w', generateReport "run-9" w = (Return "/srv/app/allure-reports/run-9", w'))
    as [w' E] by (eexists; vm_compute; reflexivity).
  pose proof (generateReport_path_or_fs_failure "run-9" w) as H.
  cbv zeta in H. destruct H as [H _]. rewrite E in H.
  destruct H as (_ & _ & Hd & _ & [[_ Hpage]|(e1 & w1 & Hthrow & _)]).
  - exists w'. split; [exact E|]. split; [exact Hd|]. apply Hpage.
    intros Hnone. vm_compute in Hnone. discriminate Hnone.
  - vm_compute in Hthrow. discriminate Hthrow.
Defined.

(** *** The pages *)

Lemma startsWith_append n h : startsWith n (n +:+ h) = true.
Proof. induction n as [|a n IH]; simpl; [done|]. by rewrite Ascii.eqb_refl. Qed.

Lemma includes_startsWith n h : startsWith n h = true → includes n h = true.
Proof. intros H. destruct h; simpl; by rewrite H. Qed.

Lemma includes_append_r a n h : includes n h = true → includes n (a +:+ h) = true.
Proof.
  intros H. induction a as [|c a IH]; simpl; [done|].
  rewrite IH. by destruct (startsWith n _).
Qed.

Lemma includes_append_mid a n h : includes n (a +:+ n +:+ h) = true.
Proof. apply includes_append_r, includes_startsWith, startsWith_append. Qed.



Lemma errorHtml_has_run_id e testRunId : includes testRunId (errorHtml e testRunId) = true.
Proof. unfold errorHtml. apply includes_append_mid. Qed.

Lemma errorHtml_has_message e testRunId :
  includes (or_else (message e) "Failed to generate report") (errorHtml e testRunId) = true.
Proof.
  unfold errorHtml.
  repeat match goal with
         | |- includes ?n (?a +:+ ?b) = true =>
             lazymatch b with
             | n +:+ _ => fail
             | _ => apply includes_append_r
             end
         end.
  apply includes_append_mid.
Qed.


(** The command fails after removing its output directory, on a working
    file system: the primary path fails at the write of the entry page,
    the fallback recreates the directory, [generateReport] returns, and the
    entry resource is the error page.  It carries the run id and the
    message of the file-system error, not that of the command. *)
Lemma tool_failure_without_output_dir :
  let w := Sample.world Sample.tree_empty 1000 [] Sample.cli_cleans in
  let r := generateReport "run-9" w in
  faults w = [] ∧ artifactWritable "run-9" (fs w) ∧
  (∀ t, (allure_cli w ALLURE_RESULTS_DIR (reportPathOf "run-9") t).1
        = Some "allure: generation failed") ∧
  (generatePrimary "run-9" w).1 = Throw (FsError ENOENT "open") ∧
  r.1 = Return "/srv/app/allure-reports/run-9" ∧
  entryResource "run-9" (fs r.2) = Some (Raw (errorHtml (FsError ENOENT "open") "run-9")) ∧
  includes "ENOENT: no such file or directory" (errorHtml (FsError ENOENT "open") "run-9") = true ∧
  includes "allure: generation failed" (errorHtml (FsError ENOENT "open") "run-9") = false.
Proof.
  intros w r. split; [done|]. split; [repeat split; vm_compute; reflexivity|].
  split; [done|]. repeat split; vm_compute; reflexivity.
Qed.



(** *** The report URL *)

Lemma reportUrlOf_nonempty testRunId : reportUrlOf testRunId ≠ EmptyString.
Proof. done. Qed.

Lemma getReportUrl_eq testRunId w :
  getReportUrl testRunId w =
  (Return (if find_node (reportPathOf testRunId) (fs w) is Some _
           then reportUrlOf testRunId else EmptyString), w).
Proof.
  unfold getReportUrl. mred. by destruct (find_node _ (fs w)).
Qed.




(** ** Retention and enumeration *)

(** [C2] The retention sweep walks every entry of the reports root, and
    the index directory [by-project] is one of them.  A service generates
    and indexes one report and is then idle for eight days: [cleanup(7)]
    removes the run's artifact directory and, with it, the whole index
    directory.  The project's ledger, which held the entry, is gone; the
    raw-result pool is untouched; and a later append can no longer write
    the ledger. *)
Theorem cleanup_removes_ledgers :
  let w := Sample.eight_days_later in
  let w' := (cleanupOldReports 7 w).2 in
  let e := Sample.entryOf "run-1" "p1" 0 in
  ledgerOf "p1" (fs w) = [e] ∧
  (cleanupOldReports 7 w).1 = Return tt ∧
  find_node (reportPathOf "run-1") (fs w') = None ∧
  find_node ALLURE_INDEX_DIR (fs w') = None ∧
  find_node (getProjectIndexPath "p1") (fs w') = None ∧
  ledgerOf "p1" (fs w') = [] ∧
  (readProjectIndex "p1" w').1 = Return [] ∧
  find_node ALLURE_RESULTS_DIR (fs w') = find_node ALLURE_RESULTS_DIR (fs w) ∧
  logs w' = [(INFO, "Cleaned up old Allure report: run-1");
             (INFO, "Cleaned up old Allure report: by-project")] ∧
  ledgerOf "p1" (fs (appendProjectIndexEntry "p1" e w').2) = [].
Proof. repeat split; vm_compute; reflexivity. Qed.

Lemma find_node_root_entry (t : node) st es name n :
  find_node ALLURE_REPORTS_DIR t = Some (Dir st es) →
  es !! name = Some n →
  find_node (join ALLURE_REPORTS_DIR name) t = Some n.
Proof. intros Ht Hn. rewrite find_node_join, Ht. done. Qed.

(** The [stat] loop of [getAllReports] over entries that exist. *)
Lemma mapM_stat_entries (l : list (string * node)) w r w' :
  Forall (λ e, find_node (join ALLURE_REPORTS_DIR e.1) (fs w) = Some e.2) l →
  mapM (λ report,
          let* stats := statSync (join ALLURE_REPORTS_DIR report) in
          ret {| info_id := report;
                 info_path := "/allure-reports/" +:+ report +:+ "/index.html";
                 info_createdAt := birthtime stats |}) (l.*1) w = (r, w') →
  same_files w w' ∧
  match r with
  | Return infos => infos = infoOfEntry <$> l ∧ (faults w = [] → faults w' = [])
  | Throw _ => faults w ≠ []
  end.
Proof.
  revert w r w'. induction l as [|[name n] l IH]; intros w r w' Hall H.
  - cbn in H. unfold ret in H. simplify_eq. split; [apply same_files_refl|done].
  - apply Forall_cons in Hall as [Hn Hall]. cbn [fmap list_fmap fst mapM] in H.
    apply bind_inv in H as [(info & w1 & H1 & H)|(e & H1 & ->)].
    + apply bind_inv in H1 as [(stats & w1' & Hs & H1)|(e & _ & ?)]; [|done].
      unfold ret in H1. simplify_eq.
      apply fs_query_inv in Hs as (Hsame & _ & Hnil & Hs).
      unfold stat in Hs. cbn [fst snd] in Hn. rewrite Hn in Hs. simplify_eq.
      apply bind_inv in H as [(infos & w2 & H2 & H)|(e & H2 & ->)].
      * unfold ret in H. simplify_eq.
        apply IH in H2 as (Hsame2 & -> & Hnil2).
        2:{ destruct Hsame as (-> & _). done. }
        split; [by eapply same_files_trans|]. split; [done|]. eauto.
      * apply IH in H2 as (Hsame2 & Hne).
        2:{ destruct Hsame as (-> & _). done. }
        split; [by eapply same_files_trans|]. intros Hf. apply Hne. eauto.
    + apply bind_inv in H1 as [(stats & w1' & Hs & H1)|(e' & Hs & ?)];
        [unfold ret in H1; simplify_eq|]. simplify_eq.
      apply fs_query_inv in Hs as (Hsame & _ & _ & _ & Hs). split; [done|].
      intros Hf. destruct (Hs Hf) as [c Hc].
      unfold stat in Hc. cbn [fst snd] in Hn. by rewrite Hn in Hc.
Qed.

(** [getAllReports] returns from every world; it lists every entry of
    the reports root, or nothing when a file access failed. *)
Lemma getAllReports_spec w :
  ∃ l w', getAllReports w = (Return l, w') ∧ fs w' = fs w ∧
          (l = [] ∨ l = listReports (fs w)) ∧
          (faults w = [] → l = listReports (fs w)).
Proof.
  unfold getAllReports, try_catch.
  match goal with |- context [bind ?m ?k w] => destruct (bind m k w) as [r w1] eqn:H end.
  apply bind_inv in H as [(names & w0 & H0 & H)|(e & H0 & ->)].
  - apply fs_query_inv in H0 as (Hsame & _ & Hnil & H0).
    unfold readdir in H0.
    destruct (find_node ALLURE_REPORTS_DIR (fs w)) as [[|st es]|] eqn:Ht; simplify_eq.
    assert (listReports (fs w) = infoOfEntry <$> map_to_list es) as Hlist.
    { unfold listReports. by rewrite Ht. }
    eapply mapM_stat_entries in H as (Hsame' & H).
    2:{ apply Forall_forall. intros [name n] Hin. cbn [fst snd].
        destruct Hsame as (-> & _). eapply find_node_root_entry; [done|].
        by apply elem_of_map_to_list. }
    assert (fs w1 = fs w) as Hfs.
    { destruct Hsame as (<- & _). by destruct Hsame' as (-> & _). }
    destruct r as [infos|e].
    + destruct H as [-> _]. eexists _, _. split; [done|]. rewrite Hlist. eauto.
    + rewrite bind_logger. eexists _, _. split; [done|]. split; [done|].
      split; [eauto|]. intros Hf. destruct H. eauto.
  - apply fs_query_inv in H0 as ((Hfs & _) & _ & _ & _ & H0).
    rewrite bind_logger. eexists _, _. split; [done|]. split; [done|].
    split; [eauto|]. intros Hf. destruct (H0 Hf) as [c Hc].
    unfold readdir in Hc. unfold listReports.
    by destruct (find_node ALLURE_REPORTS_DIR (fs w)) as [[|st es]|].
Qed.

Lemma no_throw_getAllReports : no_throw getAllReports.
Proof. intros w. destruct (getAllReports_spec w) as (l & w' & H & _). eauto. Qed.

(** [C10] [getAllReports] returns from every world.  With a working file
    system it returns one record (id, path, creation time) for every
    entry of the reports root; the index directory [by-project], when it
    exists, is one of these entries and is listed like a run's report.
    When a file access fails the result is the empty list. *)
Theorem getAllReports_lists_root :
  no_throw getAllReports ∧
  (∀ w, faults w = [] → (getAllReports w).1 = Return (listReports (fs w))) ∧
  (∀ w, ∃ l w', getAllReports w = (Return l, w') ∧ (l = [] ∨ l = listReports (fs w))) ∧
  (∀ t st es,
     find_node ALLURE_REPORTS_DIR t = Some (Dir st es) →
     readdir ALLURE_REPORTS_DIR t = inr (info_id <$> listReports t) ∧
     length (listReports t) = size es) ∧
  (∀ t n,
     find_node ALLURE_INDEX_DIR t = Some n →
     {| info_id := "by-project";
        info_path := "/allure-reports/by-project/index.html";
        info_createdAt := birthtime (stats_of n) |} ∈ listReports t) ∧
  (∀ w e w1,
     readdirSync ALLURE_REPORTS_DIR w = (Throw e, w1) →
     (getAllReports w).1 = Return []).
Proof.
  split; [apply no_throw_getAllReports|]. split; [|split; [|split; [|split]]].
  - intros w Hf. destruct (getAllReports_spec w) as (l & w' & -> & _ & _ & Hl).
    cbn [fst]. f_equal. by apply Hl.
  - intros w. destruct (getAllReports_spec w) as (l & w' & H & _ & Hl & _). eauto.
  - intros t st es Ht. unfold readdir, listReports. rewrite Ht. split.
    + f_equal. rewrite <- list_fmap_compose. done.
    + rewrite length_fmap. by rewrite length_map_to_list.
  - intros t n Hn. unfold ALLURE_INDEX_DIR in Hn. rewrite find_node_join in Hn.
    unfold listReports.
    destruct (find_node ALLURE_REPORTS_DIR t) as [[|st es]|]; [done| |done].
    apply (list_elem_of_fmap_2 infoOfEntry _ ("by-project", n)).
    by apply elem_of_map_to_list.
  - intros w e w1 H. unfold getAllReports, try_catch.
    rewrite (bind_Throw _ _ _ _ _ H). done.
Qed.

Lemma getAllReports_lists_root_witness :
  let w := Sample.after_one_report in
  faults w = [] ∧
  (getAllReports w).1 =
    Return [ {| info_id := "run-1"; info_path := "/allure-reports/run-1/index.html";
                info_createdAt := 0 |};
             {| info_id := "by-project";
                info_path := "/allure-reports/by-project/index.html";
                info_createdAt := 0 |} ].
Proof.
  intros w. assert (faults w = []) as Hf by (vm_compute; reflexivity).
  split; [exact Hf|].
  destruct getAllReports_lists_root as (_ & H & _).
  rewrite (H w Hf). vm_compute. reflexivity.
Defined.

(** ** The catalog *)

#[local] Instance Before_total : Total Before.
Proof.
  intros a b. unfold Before, orderBy.
  destruct (row_completedAt a) as [ca|], (row_completedAt b) as [cb|];
    rewrite ?orb_true_iff, ?andb_true_iff, ?Z.ltb_lt, ?Z.eqb_eq, ?Z.leb_le; try tauto; lia.
Qed.

#[local] Instance Before_trans : Transitive Before.
Proof.
  intros a b c. unfold Before, orderBy.
  destruct (row_completedAt a) as [ca|], (row_completedAt b) as [cb|],
    (row_completedAt c) as [cc|];
    rewrite ?orb_true_iff, ?andb_true_iff, ?Z.ltb_lt, ?Z.eqb_eq, ?Z.leb_le;
    try tauto; try done; lia.
Qed.




(** Reading every ledger: the loop of [listAllProjectIndexes]. *)
Lemma mapM_readProjectIndex files w :
  ∃ l w', mapM (λ f, let* entries := readProjectIndex (basename f ".json") in
                     ret (basename f ".json", entries)) files w = (Return l, w') ∧
          same_files w w' ∧
          (faults w = [] →
           faults w' = [] ∧
           l = (λ f, (basename f ".json", ledgerOf (basename f ".json") (fs w))) <$> files).
Proof.
  revert w. induction files as [|f files IH]; intros w.
  - eexists _, _. split; [done|]. split; [apply same_files_refl|done].
  - destruct (readProjectIndex_spec (basename f ".json") w) as (l & w1 & H1 & Hs1 & _ & Hl).
    destruct (IH w1) as (ls & w2 & H2 & Hs2 & Hls).
    cbn [mapM]. rewrite (bind_Return _ _ _ (basename f ".json", l) w1).
    2:{ by rewrite (bind_Return _ _ _ _ _ H1). }
    rewrite (bind_Return _ _ _ _ _ H2). eexists _, _. split; [done|].
    split; [by eapply same_files_trans|]. intros Hf.
    destruct (Hl Hf) as [-> Hf1]. destruct (Hls Hf1) as [Hf2 ->].
    split; [done|]. destruct Hs1 as (-> & _). done.
Qed.

(** [listAllProjectIndexes] returns from every world without touching
    the tree; with a working file system it pairs every [*.json] entry of
    the index directory with the ledger it holds. *)
Lemma listAllProjectIndexes_spec w :
  ∃ all w', listAllProjectIndexes w = (Return all, w') ∧ same_files w w' ∧
            (faults w = [] → ∀ st es,
               find_node ALLURE_INDEX_DIR (fs w) = Some (Dir st es) →
               all = (λ f, (basename f ".json", ledgerOf (basename f ".json") (fs w))) <$>
                     filter (λ f, endsWith ".json" f = true) (map_to_list es).*1).
Proof.
  unfold listAllProjectIndexes. mred.
  destruct (find_node ALLURE_INDEX_DIR (fs w)) as [n|] eqn:Hn; cbn [negb].
  2:{ eexists _, _. split; [done|]. split; [apply same_files_refl|]. intros _ st es ?. done. }
  destruct (fs_query "scandir" (readdir ALLURE_INDEX_DIR) w) as [[names|e] w0] eqn:Hq;
    apply fs_query_inv in Hq as (Hs0 & _ & Hnil & Hq).
  - destruct (mapM_readProjectIndex (filter (λ f, endsWith ".json" f = true) names) w0)
      as (l & w1 & H & Hs1 & Hl).
    unfold bind, ret in H. rewrite H.
    eexists _, _. split; [done|]. split; [by eapply same_files_trans|].
    intros Hf st es Hd. destruct (Hl (Hnil Hf)) as [_ ->].
    unfold readdir in Hq. rewrite Hn in Hq. simplify_eq.
    destruct Hs0 as (-> & _). done.
  - eexists _, _. split; [done|]. split; [by apply same_files_with_logs|].
    intros Hf st es Hd. destruct Hq as [_ Hq]. destruct (Hq Hf) as [c Hc].
    unfold readdir in Hc. rewrite Hn in Hc. by simplify_eq.
Qed.






(** ** The dashboard flow *)

Lemma rounds_S n testRunId :
  rounds (S n) testRunId = Delay 1000 :: GetTestRun testRunId :: rounds n testRunId.
Proof. done. Qed.

Lemma snoc_snoc_rounds (tr : list Event) n testRunId :
  ((tr ++ [Delay 1000]) ++ [GetTestRun testRunId]) ++ rounds n testRunId
  = tr ++ rounds (S n) testRunId.
Proof. rewrite rounds_S. by rewrite <- !(assoc_L (++)). Qed.

Lemma snoc_snoc_round (tr : list Event) testRunId :
  (tr ++ [Delay 1000]) ++ [GetTestRun testRunId] = tr ++ rounds 1 testRunId.
Proof. by rewrite <- (assoc_L (++)). Qed.

(** One turn of the loop. *)
Lemma waitLoop_S api testRunId k tr :
  waitLoop api testRunId (S k) tr =
  match getRunStatus api testRunId (maxAttempts - S k) with
  | Some st =>
      if terminal st then (Return tt, tr ++ rounds 1 testRunId)
      else waitLoop api testRunId k ((tr ++ [Delay 1000]) ++ [GetTestRun testRunId])
  | None => (Throw (Error "Network Error"), tr ++ rounds 1 testRunId)
  end.
Proof.
  cbn [waitLoop]. unfold bind, request, emit, bind, ret, throw.
  destruct (getRunStatus api testRunId (maxAttempts - S k)) as [st|];
    [destruct (terminal st)|]; by rewrite ?snoc_snoc_round.
Qed.

(** Every wait is a number of rounds, at most the number of attempts
    left. *)
Lemma waitLoop_rounds api testRunId k tr :
  ∃ n r, (n ≤ k)%nat ∧ waitLoop api testRunId k tr = (r, tr ++ rounds n testRunId).
Proof.
  revert tr. induction k as [|k IH]; intros tr.
  - exists 0%nat, (Return tt). split; [done|]. cbn. by rewrite (right_id_L [] (++)).
  - rewrite waitLoop_S.
    destruct (getRunStatus api testRunId (maxAttempts - S k)) as [st|];
      [destruct (terminal st)|].
    + exists 1%nat, (Return tt). split; [lia|done].
    + destruct (IH ((tr ++ [Delay 1000]) ++ [GetTestRun testRunId])) as (n & r & Hn & ->).
      exists (S n), r. split; [lia|]. by rewrite snoc_snoc_rounds.
    + exists 1%nat, (Throw (Error "Network Error")). split; [lia|done].
Qed.

(** The wait stops at the first terminal status. *)
Lemma waitLoop_terminal api testRunId k j st tr :
  (k ≤ maxAttempts)%nat → (j < k)%nat →
  (∀ i, (i < j)%nat → pending api testRunId (maxAttempts - k + i)) →
  getRunStatus api testRunId (maxAttempts - k + j) = Some st →
  terminal st = true →
  waitLoop api testRunId k tr = (Return tt, tr ++ rounds (S j) testRunId).
Proof.
  revert j tr. induction k as [|k IH]; intros j tr Hk Hj Hpend Hst Hterm; [lia|].
  rewrite waitLoop_S. destruct j as [|j].
  - rewrite Nat.add_0_r in Hst. by rewrite Hst, Hterm.
  - destruct (Hpend 0%nat) as (st0 & Hst0 & Hnt); [lia|].
    rewrite Nat.add_0_r in Hst0. rewrite Hst0, Hnt.
    rewrite (IH j); [by rewrite snoc_snoc_rounds|lia|lia| |
                     |done].
    + intros i Hi. specialize (Hpend (S i)).
      replace (maxAttempts - k + i)%nat with (maxAttempts - S k + S i)%nat by lia.
      apply Hpend. lia.
    + by replace (maxAttempts - k + j)%nat with (maxAttempts - S k + S j)%nat by lia.
Qed.

(** Without a terminal status the wait ends after all attempts, and
    returns. *)
Lemma waitLoop_ceiling api testRunId k tr :
  (k ≤ maxAttempts)%nat →
  (∀ i, (i < k)%nat → pending api testRunId (maxAttempts - k + i)) →
  waitLoop api testRunId k tr = (Return tt, tr ++ rounds k testRunId).
Proof.
  revert tr. induction k as [|k IH]; intros tr Hk Hpend.
  - cbn. by rewrite (right_id_L [] (++)).
  - rewrite waitLoop_S.
    destruct (Hpend 0%nat) as (st0 & Hst0 & Hnt); [lia|].
    rewrite Nat.add_0_r in Hst0. rewrite Hst0, Hnt.
    rewrite IH; [by rewrite snoc_snoc_rounds|lia|].
    intros i Hi. specialize (Hpend (S i)).
    replace (maxAttempts - k + i)%nat with (maxAttempts - S k + S i)%nat by lia.
    apply Hpend. lia.
Qed.

Lemma count_app f (a b : list Event) : count f (a ++ b) = (count f a + count f b)%nat.
Proof. unfold count. by rewrite List.filter_app, length_app. Qed.

Lemma count_rounds_poll n testRunId : count isPoll (rounds n testRunId) = n.
Proof. induction n as [|n IH]; [done|]. rewrite rounds_S. unfold count in *. cbn. by rewrite IH. Qed.

Lemma count_rounds_delay n testRunId : count isDelay (rounds n testRunId) = n.
Proof. induction n as [|n IH]; [done|]. rewrite rounds_S. unfold count in *. cbn. by rewrite IH. Qed.

Lemma count_rounds_create n testRunId : count isCreate (rounds n testRunId) = 0%nat.
Proof. induction n as [|n IH]; [done|]. rewrite rounds_S. unfold count in *. cbn. by rewrite IH. Qed.

Lemma count_rounds_generate n testRunId : count isGenerate (rounds n testRunId) = 0%nat.
Proof. induction n as [|n IH]; [done|]. rewrite rounds_S. unfold count in *. cbn. by rewrite IH. Qed.

Lemma terminal_iff st :
  terminal st = true ↔ st = "passed" ∨ st = "failed" ∨ st = "completed".
Proof.
  unfold terminal. rewrite !orb_true_iff, !String.eqb_eq. tauto.
Qed.

Lemma request_Some {A} e (a : A) tr : request e (Some a) tr = (Return a, tr ++ [e]).
Proof. done. Qed.

Lemma request_None {A} e tr :
  request (A:=A) e None tr = (Throw (Error "Network Error"), tr ++ [e]).
Proof. done. Qed.

Ltac flow_cases :=
  repeat first
    [ progress cbn beta iota zeta
    | progress simplify_eq
    | case_match ];
  repeat match goal with
         | H : waitLoop ?a ?i ?k ?t = _ |- _ =>
             let Hw := fresh "Hw" in
             destruct (waitLoop_rounds a i k t) as (? & ? & _ & Hw);
             rewrite Hw in H; clear Hw; simplify_eq
         end.

(** Whatever the backend answers, the flow asks for at most one new run. *)
Lemma handle_creates_at_most_one api scriptId projectId :
  (count isCreate (handleImportScriptAndGenerateReport api scriptId projectId []).2 ≤ 1)%nat.
Proof.
  unfold handleImportScriptAndGenerateReport, selectRun, waitForRun, request, emit,
    try_catch, bind, ret, throw.
  flow_cases.
  all: cbn [snd]; rewrite ?count_app, ?count_rounds_create; cbn; lia.
Qed.

(** The head of the sorted runs is a run of the list with the latest
    start. *)
Lemma insertRun_nonempty x l : insertRun x l ≠ [].
Proof. destruct l as [|y l]; cbn; [done|]. by destruct (_ <? _). Qed.

Lemma sortRuns_head l r rest :
  sortRuns l = r :: rest →
  r ∈ l ∧ ∀ r', r' ∈ l → run_startedAt r' ≤ run_startedAt r.
Proof.
  revert r rest. induction l as [|x l IH]; intros r rest H; [done|].
  cbn [sortRuns foldr] in H. fold (sortRuns l) in H.
  destruct (sortRuns l) as [|y s] eqn:Hs.
  - cbn in H. simplify_eq. destruct l as [|z l].
    + split; [apply list_elem_of_here|]. intros r' Hr'.
      apply list_elem_of_singleton in Hr' as ->. lia.
    + cbn [sortRuns foldr] in Hs. by apply insertRun_nonempty in Hs.
  - destruct (IH y s eq_refl) as [Hy Hmax]. cbn in H.
    destruct (run_startedAt x <? run_startedAt y) eqn:Hlt; simplify_eq.
    + apply Z.ltb_lt in Hlt. split; [by apply list_elem_of_further|].
      intros r' Hr'. apply elem_of_cons in Hr' as [->|Hr']; [lia|by apply Hmax].
    + apply Z.ltb_ge in Hlt. split; [apply list_elem_of_here|].
      intros r' Hr'. apply elem_of_cons in Hr' as [->|Hr']; [lia|].
      specialize (Hmax r' Hr'). lia.
Qed.

Lemma sortRuns_nil l : sortRuns l = [] → l = [].
Proof.
  destruct l as [|x l]; [done|]. cbn [sortRuns foldr]. intros H.
  by apply insertRun_nonempty in H.
Qed.

(** After a wait that returned, the flow asks the generator for the new
    run. *)
Lemma fresh_run_reaches_generator api scriptId projectId script testRunId :
  getScript api scriptId = Some script →
  getTestRuns api scriptId (scriptProjectIdOf projectId script) = Some [] →
  startRun api scriptId = Some testRunId →
  ∀ n,
    waitForRun api testRunId
      [GetScript scriptId; GetTestRuns scriptId (scriptProjectIdOf projectId script);
       PostStartRun scriptId]
    = (Return tt,
       [GetScript scriptId; GetTestRuns scriptId (scriptProjectIdOf projectId script);
        PostStartRun scriptId] ++ rounds n testRunId) →
    ∃ tail,
      (handleImportScriptAndGenerateReport api scriptId projectId []).2 =
      [GetScript scriptId; GetTestRuns scriptId (scriptProjectIdOf projectId script);
       PostStartRun scriptId] ++ rounds n testRunId ++ PostGenerate testRunId :: tail.
Proof.
  intros Hscript Hruns Hstart n Hw.
  unfold handleImportScriptAndGenerateReport, selectRun, try_catch,
    request, emit, bind, ret, throw.
  rewrite Hscript. cbn beta iota zeta. rewrite Hruns. cbn beta iota zeta.
  cbn [length Nat.ltb Nat.leb]. rewrite Hstart. cbn beta iota zeta.
  cbn [app] in Hw |- *. rewrite Hw. cbn beta iota.
  destruct (generate api testRunId) as [u|]; [destruct (present u)|];
    destruct (scriptProjectIdOf projectId script);
    cbn [snd app]; rewrite <- ?(assoc_L (++)); cbn [app]; eexists; reflexivity.
Qed.

(** [C3] The selection is three-way.  When the latest run (by start
    time) has a report URL, the flow shows that URL and issues no create,
    no wait, no poll and no generation.  When it has none, the flow asks
    the generator for that run, the latest of all runs and so the latest
    without a URL, with no create, wait or poll.  When the script has no
    runs, the flow asks for exactly one new run, then waits for it, then
    asks the generator for it.  Whatever the backend answers, at most one
    run is asked for. *)
Theorem selection_is_three_way
    (api : Api) (scriptId : string) (projectId script : option string)
    (runs : list Dashboard.TestRun) :
  let spid := scriptProjectIdOf projectId script in
  let out := handleImportScriptAndGenerateReport api scriptId projectId [] in
  getScript api scriptId = Some script →
  getTestRuns api scriptId spid = Some runs →
  (∀ r rest url,
     sortRuns runs = r :: rest → present (executionReportUrl r) = Some url →
     out = (Return tt,
            [GetScript scriptId; GetTestRuns scriptId spid; SetSelectedReport url] ++
            match spid with Some p => [SetSelectedProjectId p] | None => [] end ++
            [SetActiveView ViewAllure; LoadData]) ∧
     count isCreate out.2 = 0%nat ∧ count isDelay out.2 = 0%nat ∧
     count isPoll out.2 = 0%nat ∧ count isGenerate out.2 = 0%nat) ∧
  (∀ r rest,
     sortRuns runs = r :: rest → present (executionReportUrl r) = None →
     r ∈ runs ∧ (∀ r', r' ∈ runs → run_startedAt r' ≤ run_startedAt r) ∧
     ∃ tail,
       out.2 = [GetScript scriptId; GetTestRuns scriptId spid; PostGenerate (run_id r)] ++ tail ∧
       count isCreate out.2 = 0%nat ∧ count isDelay out.2 = 0%nat ∧
       count isPoll out.2 = 0%nat ∧ count isGenerate tail = 0%nat) ∧
  (runs = [] →
     count isCreate out.2 = 1%nat ∧
     ∃ tail,
       out.2 = [GetScript scriptId; GetTestRuns scriptId spid; PostStartRun scriptId] ++ tail ∧
       ∀ testRunId, startRun api scriptId = Some testRunId →
         ∃ n r tail',
           (n ≤ maxAttempts)%nat ∧
           waitForRun api testRunId
             [GetScript scriptId; GetTestRuns scriptId spid; PostStartRun scriptId]
           = (r, [GetScript scriptId; GetTestRuns scriptId spid; PostStartRun scriptId]
                 ++ rounds n testRunId) ∧
           tail = rounds n testRunId ++ tail' ∧
           match r with
           | Return _ => ∃ tail'', tail' = PostGenerate testRunId :: tail'' ∧
                                   count isGenerate tail'' = 0%nat
           | Throw _ => tail' = []
           end) ∧
  (count isCreate out.2 ≤ 1)%nat.
Proof.
  intros spid out Hscript Hruns.
  assert (out = handleImportScriptAndGenerateReport api scriptId projectId []) as Hout0 by done.
  clearbody out. pose proof Hout0 as Hout.
  unfold handleImportScriptAndGenerateReport, selectRun, waitForRun, try_catch,
    request, emit, bind, ret, throw in Hout.
  rewrite Hscript in Hout. cbn beta iota zeta in Hout. fold spid in Hout.
  rewrite Hruns in Hout. cbn beta iota zeta in Hout.
  split; [|split; [|split]]; [| | |rewrite Hout0; apply handle_creates_at_most_one];
    clear Hout0.
  - intros r rest url Hsort Hurl.
    destruct runs as [|x runs]; [done|]. cbn [length Nat.ltb Nat.leb] in Hout.
    rewrite Hsort, Hurl in Hout. cbn beta iota zeta in Hout.
    destruct spid; cbn in Hout; subst out; done.
  - intros r rest Hsort Hurl.
    destruct (sortRuns_head _ _ _ Hsort) as [Hin Hmax]. split; [done|]. split; [done|].
    destruct runs as [|x runs]; [done|]. cbn [length Nat.ltb Nat.leb] in Hout.
    rewrite Hsort, Hurl in Hout. cbn beta iota zeta in Hout.
    destruct (generate api (run_id r)) as [u|]; [destruct (present u)|];
      destruct spid; cbn in Hout; subst out; eexists; (split; [reflexivity|]); done.
  - intros ->. cbn [length Nat.ltb Nat.leb] in Hout.
    destruct (startRun api scriptId) as [testRunId|] eqn:Hstart.
    2:{ cbn in Hout. subst out. split; [done|]. eexists. split; [reflexivity|]. done. }
    cbn beta iota zeta in Hout.
    destruct (waitLoop_rounds api testRunId maxAttempts
                ((([] ++ [GetScript scriptId]) ++ [GetTestRuns scriptId spid])
                 ++ [PostStartRun scriptId]))
      as (n & r & Hn & Hw).
    rewrite Hw in Hout. cbn [app] in Hw, Hout.
    assert (∀ tail : list Event,
              count isCreate (GetScript scriptId :: GetTestRuns scriptId spid ::
                              PostStartRun scriptId :: rounds n testRunId ++ tail)
              = S (count isCreate tail)) as Hcount.
    { intros tail. unfold count. cbn. f_equal. rewrite List.filter_app, length_app.
      pose proof (count_rounds_create n testRunId) as Hc. unfold count in Hc.
      by rewrite Hc. }
    destruct r as [[]|e]; cbn beta iota in Hout.
    + destruct (generate api testRunId) as [u|]; [destruct (present u)|];
        destruct spid; cbn [snd app] in Hout; rewrite <- ?(assoc_L (++)) in Hout;
        cbn [app] in Hout; subst out; cbn [snd]; (split; [by rewrite Hcount|]);
        eexists; (split; [reflexivity|]); intros ? ?; simplify_eq;
        eexists n, (Return tt), _; (split; [done|]); (split; [done|]);
        (split; [reflexivity|]); eexists; (split; [reflexivity|]); done.
    + subst out. cbn [snd]. split.
      { specialize (Hcount []). rewrite (right_id_L [] (++)) in Hcount. by rewrite Hcount. }
      eexists. split; [reflexivity|]. intros ? ?. simplify_eq.
      eexists n, (Throw e), []. split; [done|]. split; [done|].
      by rewrite (right_id_L [] (++)).
Qed.

Lemma selection_is_three_way_witness :
  let api := Sample.api_cached in
  let latest := {| run_id := "c"; run_status := "passed"; run_startedAt := 30;
                   executionReportUrl := Some "/allure-reports/c/index.html" |} in
  getScript api "s1" = Some (Some "p1") ∧
  (∃ runs, getTestRuns api "s1" (Some "p1") = Some runs ∧ head (sortRuns runs) = Some latest) ∧
  handleImportScriptAndGenerateReport api "s1" None [] =
    (Return tt,
     [GetScript "s1"; GetTestRuns "s1" (Some "p1");
      SetSelectedReport "/allure-reports/c/index.html"; SetSelectedProjectId "p1";
      SetActiveView ViewAllure; LoadData]).
Proof.
  intros api latest. split; [reflexivity|]. split; [eexists; split; reflexivity|].
  pose proof (selection_is_three_way api "s1" None (Some "p1") _ eq_refl eq_refl) as H.
  cbv zeta in H. destruct H as (H & _).
  destruct (H latest _ "/allure-reports/c/index.html" eq_refl eq_refl) as [E _].
  exact E.
Defined.

(** [C4] The wait for a fresh run is a sequence of rounds, each a delay
    of one second followed by one status poll, at most 30 of them.  It
    ends, returning, with the first poll that answers [passed], [failed]
    or [completed]; when none of the 30 polls answers a terminal status
    it ends after the 30th round, returning as well, and the flow goes
    on to ask the generator for the run. *)
Theorem wait_is_bounded (api : Api) (testRunId : string) (tr : list Event) :
  (∃ n r, (n ≤ 30)%nat ∧
          waitForRun api testRunId tr = (r, tr ++ rounds n testRunId) ∧
          count isPoll (rounds n testRunId) = n ∧
          count isDelay (rounds n testRunId) = n) ∧
  (∀ n, rounds (S n) testRunId = Delay 1000 :: GetTestRun testRunId :: rounds n testRunId) ∧
  (∀ st, terminal st = true ↔ st = "passed" ∨ st = "failed" ∨ st = "completed") ∧
  (∀ j st,
     (j < 30)%nat → (∀ i, (i < j)%nat → pending api testRunId i) →
     getRunStatus api testRunId j = Some st → terminal st = true →
     waitForRun api testRunId tr = (Return tt, tr ++ rounds (S j) testRunId)) ∧
  ((∀ i, (i < 30)%nat → pending api testRunId i) →
   waitForRun api testRunId tr = (Return tt, tr ++ rounds 30 testRunId)) ∧
  (∀ scriptId projectId script,
     getScript api scriptId = Some script →
     getTestRuns api scriptId (scriptProjectIdOf projectId script) = Some [] →
     startRun api scriptId = Some testRunId →
     (∀ i, (i < 30)%nat → pending api testRunId i) →
     ∃ tail,
       (handleImportScriptAndGenerateReport api scriptId projectId []).2 =
       [GetScript scriptId; GetTestRuns scriptId (scriptProjectIdOf projectId script);
        PostStartRun scriptId] ++ rounds 30 testRunId ++ PostGenerate testRunId :: tail).
Proof.
  split; [|split; [|split; [|split; [|split]]]].
  - destruct (waitLoop_rounds api testRunId maxAttempts tr) as (n & r & Hn & Hw).
    exists n, r. split; [done|]. split; [done|].
    split; [apply count_rounds_poll | apply count_rounds_delay].
  - intros n. apply rounds_S.
  - apply terminal_iff.
  - intros j st Hj Hpend Hst Hterm. unfold waitForRun.
    by apply (waitLoop_terminal api testRunId maxAttempts j st).
  - intros Hpend. unfold waitForRun. by apply waitLoop_ceiling.
  - intros scriptId projectId script Hscript Hruns Hstart Hpend.
    destruct (fresh_run_reaches_generator api scriptId projectId script testRunId
                Hscript Hruns Hstart 30%nat) as (tail & Htail).
    { unfold waitForRun. by apply waitLoop_ceiling. }
    eauto.
Qed.

Lemma wait_is_bounded_witness :
  (∀ i, (i < 30)%nat → pending Sample.api_stuck "run-new" i) ∧
  waitForRun Sample.api_stuck "run-new" [] = (Return tt, rounds 30 "run-new") ∧
  (2 < 30)%nat ∧ (∀ i, (i < 2)%nat → pending Sample.api_fresh "run-new" i) ∧
  getRunStatus Sample.api_fresh "run-new" 2 = Some "passed" ∧ terminal "passed" = true ∧
  waitForRun Sample.api_fresh "run-new" [] = (Return tt, rounds 3 "run-new").
Proof.
  assert (∀ i, (i < 30)%nat → pending Sample.api_stuck "run-new" i) as Hstuck.
  { intros i _. exists "running". split; reflexivity. }
  assert (∀ i, (i < 2)%nat → pending Sample.api_fresh "run-new" i) as Hfresh.
  { intros i Hi. exists "running". split; [|reflexivity].
    destruct i as [|[|i]]; [reflexivity|reflexivity|lia]. }
  assert (2 < 30)%nat as H2 by lia.
  split; [exact Hstuck|].
  split; [exact (proj1 (proj2 (proj2 (proj2 (proj2
            (wait_is_bounded Sample.api_stuck "run-new" []))))) Hstuck)|].
  split; [exact H2|]. split; [exact Hfresh|]. split; [reflexivity|]. split; [reflexivity|].
  exact (proj1 (proj2 (proj2 (proj2 (wait_is_bounded Sample.api_fresh "run-new" []))))
           2%nat "passed" H2 Hfresh eq_refl eq_refl).
Defined.

(* ===================================================================== *)
(** * Further properties                                                  *)
(* ===================================================================== *)

(** ** Paths that branch off *)

Lemma find_node_cons s p st es :
  find_node (s :: p) (Dir st es) =
  match es !! s with Some c => find_node p c | None => None end.
Proof. done. Qed.

Lemma find_node_empty_dir st p : p ≠ [] → find_node p (Dir st ∅) = None.
Proof. destruct p as [|s p]; [done|]. intros _. by rewrite find_node_cons, lookup_empty. Qed.

Lemma mkdirp_frame now pre a b p q t t' :
  a ≠ b →
  mkdirp now (pre ++ a :: p) t = inr t' →
  find_node (pre ++ b :: q) t' = find_node (pre ++ b :: q) t.
Proof.
  intros Hab. revert t t'. induction pre as [|x pre IH]; intros t t' H.
  - destruct t as [|st es]; [done|]. cbn [app mkdirp] in H |- *.
    destruct (es !! a) as [c|] eqn:Ha.
    + destruct (mkdirp now p c); simplify_eq.
      by rewrite !find_node_cons, lookup_insert_ne.
    + destruct (mkdirp now p (Dir (fresh now) ∅)); simplify_eq.
      by rewrite !find_node_cons, lookup_insert_ne.
  - destruct t as [|st es]; [by destruct pre|].
    change ((x :: pre) ++ a :: p) with (x :: (pre ++ a :: p)) in H.
    change ((x :: pre) ++ b :: q) with (x :: (pre ++ b :: q)).
    cbn [mkdirp] in H. destruct (es !! x) as [c|] eqn:Hx.
    + destruct (mkdirp now (pre ++ a :: p) c) as [|c'] eqn:Hm; simplify_eq.
      rewrite !find_node_cons, lookup_insert_eq, Hx. eauto.
    + destruct (mkdirp now (pre ++ a :: p) (Dir (fresh now) ∅)) as [|c'] eqn:Hm; simplify_eq.
      rewrite !find_node_cons, lookup_insert_eq, Hx. rewrite (IH _ _ Hm).
      apply find_node_empty_dir. by destruct pre.
Qed.

Lemma place_frame now pre a b p q src t t' :
  a ≠ b →
  place now (pre ++ a :: p) src t = inr t' →
  find_node (pre ++ b :: q) t' = find_node (pre ++ b :: q) t.
Proof.
  intros Hab. revert t t'. induction pre as [|x pre IH]; intros t t' H.
  - destruct t as [|st es]; [done|]. cbn [app place] in H |- *.
    destruct (es !! a) as [c|] eqn:Ha.
    + destruct (place now p src c); simplify_eq.
      by rewrite !find_node_cons, lookup_insert_ne.
    + destruct p; simplify_eq. by rewrite !find_node_cons, lookup_insert_ne.
  - destruct t as [|st es]; [done|].
    change ((x :: pre) ++ a :: p) with (x :: (pre ++ a :: p)) in H.
    change ((x :: pre) ++ b :: q) with (x :: (pre ++ b :: q)).
    cbn [place] in H. destruct (es !! x) as [c|] eqn:Hx.
    + destruct (place now (pre ++ a :: p) src c) as [|c'] eqn:Hm; simplify_eq.
      rewrite !find_node_cons, lookup_insert_eq, Hx. eauto.
    + destruct (pre ++ a :: p) eqn:Hp; [by destruct pre | done].
Qed.

Lemma remove_find now p s t : find_node (join p s) (remove now (join p s) t) = None.
Proof.
  unfold join. revert t. induction p as [|x p IH]; intros t.
  - destruct t as [|st es]; [done|]. cbn [app remove].
    destruct (es !! s) as [c|] eqn:Hs.
    + by rewrite find_node_cons, lookup_delete_eq.
    + by rewrite find_node_cons, Hs.
  - destruct t as [|st es]; [done|].
    change ((x :: p) ++ [s]) with (x :: (p ++ [s])).
    assert (∃ y l, p ++ [s] = y :: l) as (y & l & Hp) by (destruct p; cbn; eauto).
    rewrite Hp, remove_cons_cons. rewrite <- Hp.
    destruct (es !! x) as [c|] eqn:Hx.
    + rewrite find_node_cons, lookup_insert_eq. apply IH.
    + by rewrite find_node_cons, Hx.
Qed.

(** The frame of each tree operation, for paths that branch off from the
    path the operation works on. *)
Lemma write_diverges now p d t t' x :
  diverges p x → write now p d t = inr t' → find_node x t' = find_node x t.
Proof. intros (pre & a & b & p' & q & -> & -> & Hab). by apply write_frame. Qed.

Lemma mkdirp_diverges now p t t' x :
  diverges p x → mkdirp now p t = inr t' → find_node x t' = find_node x t.
Proof. intros (pre & a & b & p' & q & -> & -> & Hab). by apply mkdirp_frame. Qed.

Lemma remove_diverges now p t x :
  diverges p x → find_node x (remove now p t) = find_node x t.
Proof. intros (pre & a & b & p' & q & -> & -> & Hab). by apply remove_frame. Qed.

Lemma rename_diverges now src dst t t' x :
  diverges src x → diverges dst x →
  rename now src dst t = inr t' → find_node x t' = find_node x t.
Proof.
  intros Hs (pre & a & b & p' & q & -> & -> & Hab). unfold rename.
  destruct (find_node src t); [|done]. intros H.
  rewrite (place_frame _ _ _ _ _ _ _ _ _ Hab H). by apply remove_diverges.
Qed.

Lemma diverges_app_l p x z : diverges p x → diverges (p ++ z) x.
Proof.
  intros (pre & a & b & p' & q & -> & -> & Hab).
  exists pre, a, b, (p' ++ z), q. by rewrite <- (assoc_L (++)).
Qed.

Lemma diverges_siblings p a b : a ≠ b → diverges (join p a) (join p b).
Proof. intros Hab. by exists p, a, b, [], []. Qed.

Lemma agree_on_refl S t : agree_on S t t.
Proof. by intros x _. Qed.

Lemma agree_on_trans S t1 t2 t3 : agree_on S t1 t2 → agree_on S t2 t3 → agree_on S t1 t3.
Proof. intros H1 H2 x Hx. rewrite (H2 x Hx). by apply H1. Qed.

(** *** Computations that keep a set of paths *)

Section keeps.
Context (C : AllureCli → Prop) (S : path → Prop).

Lemma keeps_ret {A} (a : A) : keeps C S (ret a).
Proof. intros w r w' _ H. unfold ret in H. simplify_eq. split; [apply agree_on_refl|done]. Qed.

Lemma keeps_throw {A} e : keeps C S (throw (A:=A) e).
Proof. intros w r w' _ H. unfold throw in H. simplify_eq. split; [apply agree_on_refl|done]. Qed.

Lemma keeps_bind {A B} (m : M A) (k : A → M B) :
  keeps C S m → (∀ a, keeps C S (k a)) → keeps C S (bind m k).
Proof.
  intros Hm Hk w r w' HC H.
  destruct (bind_inv _ _ _ _ _ H) as [(a & w1 & Hm' & Hk')|(e & Hm' & _)].
  - destruct (Hm _ _ _ HC Hm') as [H1 H2].
    destruct (Hk a w1 r w') as [H3 H4]; [by rewrite H2|done|].
    split; [by eapply agree_on_trans|congruence].
  - by eapply Hm.
Qed.

Lemma keeps_try_catch {A} (m : M A) (h : Exn → M A) :
  keeps C S m → (∀ e, keeps C S (h e)) → keeps C S (try_catch m h).
Proof.
  intros Hm Hh w r w' HC H.
  destruct (try_catch_inv _ _ _ _ _ H) as [(a & Hm' & _)|(e & w1 & Hm' & Hh')].
  - by eapply Hm.
  - destruct (Hm _ _ _ HC Hm') as [H1 H2].
    destruct (Hh e w1 r w') as [H3 H4]; [by rewrite H2|done|].
    split; [by eapply agree_on_trans|congruence].
Qed.

Lemma keeps_when b (m : M unit) : keeps C S m → keeps C S (when b m).
Proof. intros Hm. destruct b; [done | apply keeps_ret]. Qed.

Lemma keeps_existsSync p : keeps C S (existsSync p).
Proof. intros w r w' _ H. unfold existsSync in H. simplify_eq. split; [apply agree_on_refl|done]. Qed.

Lemma keeps_logger lvl msg : keeps C S (logger lvl msg).
Proof. intros w r w' _ H. unfold logger in H. simplify_eq. split; [apply agree_on_refl|done]. Qed.

Lemma keeps_path_of p : keeps C S (path_of p).
Proof. intros w r w' _ H. unfold path_of in H. simplify_eq. split; [apply agree_on_refl|done]. Qed.

Lemma keeps_Date_now : keeps C S Date_now.
Proof. intros w r w' _ H. unfold Date_now in H. simplify_eq. split; [apply agree_on_refl|done]. Qed.

Lemma keeps_fs_query {A} sc (f : node → Errno + A) : keeps C S (fs_query sc f).
Proof.
  intros w r w' _ H. apply fs_query_inv in H as ((Hfs & _ & _ & Hcli) & _).
  split; [|done]. rewrite Hfs. apply agree_on_refl.
Qed.

Lemma keeps_fs_update sc f :
  (∀ now t t', f now t = inr t' → agree_on S t t') → keeps C S (fs_update sc f).
Proof.
  intros Hf w r w' _ H. apply fs_update_inv in H as (_ & _ & Hcli & _ & _ & H).
  split; [|done]. destruct r as [[]|e].
  - by eapply Hf.
  - destruct H as [-> _]. apply agree_on_refl.
Qed.

Lemma keeps_execSync results out :
  (∀ cli, C cli → ∀ t, agree_on S t (cli results out t).2) →
  keeps C S (execSync_allure_generate results out).
Proof.
  intros HC w r w' Hw H. unfold execSync_allure_generate in H.
  specialize (HC _ Hw (fs w)).
  destruct (allure_cli w results out (fs w)) as [[m|] t]; simplify_eq; done.
Qed.

Lemma keeps_forEach {A} (f : A → M unit) l :
  (∀ a, keeps C S (f a)) → keeps C S (forEach f l).
Proof.
  intros Hf. induction l as [|a l IH]; [apply keeps_ret|].
  cbn [forEach]. apply keeps_bind; [apply Hf|]. by intros _.
Qed.

Lemma keeps_mapM {A B} (f : A → M B) l :
  (∀ a, keeps C S (f a)) → keeps C S (mapM f l).
Proof.
  intros Hf. induction l as [|a l IH]; [apply keeps_ret|].
  cbn [mapM]. apply keeps_bind; [apply Hf|]. intros b.
  apply keeps_bind; [apply IH|]. intros bs. apply keeps_ret.
Qed.

End keeps.

Ltac solve_keeps :=
  repeat match goal with
         | |- keeps _ _ (fs_update _ _) => fail 1
         | |- keeps _ _ (execSync_allure_generate _ _) => fail 1
         | |- keeps _ _ (fs_query _ _) => apply keeps_fs_query
         | |- keeps _ _ (ret _) => apply keeps_ret
         | |- keeps _ _ (throw _) => apply keeps_throw
         | |- keeps _ _ (existsSync _) => apply keeps_existsSync
         | |- keeps _ _ (logger _ _) => apply keeps_logger
         | |- keeps _ _ (path_of _) => apply keeps_path_of
         | |- keeps _ _ Date_now => apply keeps_Date_now
         | |- keeps _ _ (when _ _) => apply keeps_when
         | |- keeps _ _ (try_catch _ _) => apply keeps_try_catch; [|intros ?]
         | |- keeps _ _ (forEach _ _) => apply keeps_forEach; intros ?
         | |- keeps _ _ (mapM _ _) => apply keeps_mapM; intros ?
         | |- keeps _ _ (bind _ _) => apply keeps_bind; [|intros ?]
         | |- keeps _ _ (if _ then _ else _) => case_match
         | |- keeps _ _ (match _ with _ => _ end) => case_match
         end.

(** ** The project index, continued *)

Lemma append_cancel_r (p q x : string) : p +:+ x = q +:+ x → p = q.
Proof.
  revert q. induction p as [|a p IH]; intros q H.
  - destruct q as [|b q]; [done|]. exfalso.
    assert (String.length x = String.length (String b q +:+ x)) as Hl by (by rewrite <- H).
    rewrite length_append in Hl. cbn in Hl. lia.
  - destruct q as [|b q].
    + exfalso.
      assert (String.length (String a p +:+ x) = String.length x) as Hl by (by rewrite H).
      rewrite length_append in Hl. cbn in Hl. lia.
    + cbn in H. simplify_eq. f_equal. by apply IH.
Qed.

Lemma last_char_append (a b : string) :
  b ≠ EmptyString → last_char (a +:+ b) = last_char b.
Proof.
  intros Hb. induction a as [|c a IH]; [done|].
  change (String c a +:+ b) with (String c (a +:+ b)).
  destruct (a +:+ b) as [|d s] eqn:Hab.
  - destruct a as [|a0 a]; [|discriminate]. by destruct Hb.
  - exact IH.
Qed.

Lemma ledger_name_ne p q : p ≠ q → p +:+ ".json" ≠ q +:+ ".json".
Proof. intros Hpq H. by apply Hpq, (append_cancel_r _ _ ".json"). Qed.

Lemma tmp_name_ne_ledger p q : (p +:+ ".json") +:+ ".tmp" ≠ q +:+ ".json".
Proof.
  intros H. assert (last_char ((p +:+ ".json") +:+ ".tmp") = last_char (q +:+ ".json")) as Hl
    by (by rewrite H).
  rewrite !last_char_append in Hl by done. done.
Qed.

Lemma keeps_appendProjectIndexEntry C p e :
  keeps C (beside_ledger p) (appendProjectIndexEntry p e).
Proof.
  unfold appendProjectIndexEntry, appendBody, readCurrent, readFileSync, JSON_parse,
    writeFileSync, renameSync.
  solve_keeps.
  - apply keeps_fs_update. intros now t t' H x [_ Hx]. by eapply write_diverges.
  - apply keeps_fs_update. intros now t t' H x [Hl Hx].
    exact (rename_diverges _ _ _ _ _ _ Hx Hl H).
Qed.

Lemma beside_ledger_other p q : p ≠ q → beside_ledger p (getProjectIndexPath q).
Proof.
  intros Hpq. split; apply diverges_siblings;
    [by apply ledger_name_ne | apply tmp_name_ne_ledger].
Qed.

Lemma beside_ledger_pool p x : beside_ledger p (ALLURE_RESULTS_DIR ++ x).
Proof.
  split.
  - by exists [], "allure-reports", "allure-results", ["by-project"; p +:+ ".json"], x.
  - by exists [], "allure-reports", "allure-results",
         ["by-project"; (p +:+ ".json") +:+ ".tmp"], x.
Qed.

Lemma beside_ledger_artifact p testRunId x :
  testRunId ≠ "by-project" → beside_ledger p (reportPathOf testRunId ++ x).
Proof.
  intros Hne. split.
  - by exists ["allure-reports"], "by-project", testRunId, [p +:+ ".json"], x.
  - by exists ["allure-reports"], "by-project", testRunId, [(p +:+ ".json") +:+ ".tmp"], x.
Qed.

(** [X1] An append for a project whose id is a single path segment (so
    that [path.join] appends the ledger's name as it is: the ledger and
    its temporary sibling are the two files of that name in the index
    directory) touches nothing but these two files, whatever the file
    system does: the ledgers of all other projects with such an id,
    everything in the raw-result pool and the artifacts of all runs with
    such an id are as before. *)
Theorem append_leaves_other_paths
    (projectId : string) (entry : ReportIndexEntry) (w : World) :
  segment projectId = true →
  let w' := (appendProjectIndexEntry projectId entry w).2 in
  path_join ALLURE_INDEX_DIR (projectId +:+ ".json") = Some (getProjectIndexPath projectId) ∧
  path_join ALLURE_INDEX_DIR ((projectId +:+ ".json") +:+ ".tmp") = Some (tmpPathOf projectId) ∧
  (∀ q, segment q = true → q ≠ projectId →
     find_node (getProjectIndexPath q) (fs w') = find_node (getProjectIndexPath q) (fs w) ∧
     ledgerOf q (fs w') = ledgerOf q (fs w)) ∧
  (∀ x, find_node (ALLURE_RESULTS_DIR ++ x) (fs w') =
        find_node (ALLURE_RESULTS_DIR ++ x) (fs w)) ∧
  (∀ testRunId x, segment testRunId = true → testRunId ≠ "by-project" →
     find_node (reportPathOf testRunId ++ x) (fs w') =
     find_node (reportPathOf testRunId ++ x) (fs w)).
Proof.
  intros Hseg w'.
  destruct (keeps_appendProjectIndexEntry (λ _, True) projectId entry w
              (appendProjectIndexEntry projectId entry w).1 w' I) as [Hk _].
  { subst w'. by destruct (appendProjectIndexEntry projectId entry w). }
  destruct (service_paths_of_segment projectId Hseg) as (_ & _ & Hledger & Htmp).
  split; [exact Hledger|]. split; [exact Htmp|]. split; [|split].
  - intros q _ Hq.
    assert (find_node (getProjectIndexPath q) (fs w') = find_node (getProjectIndexPath q) (fs w))
      as Hfind by (apply Hk, beside_ledger_other; congruence).
    split; [done|]. unfold ledgerOf. by rewrite Hfind.
  - intros x. apply Hk, beside_ledger_pool.
  - intros testRunId x _ Hne. by apply Hk, beside_ledger_artifact.
Qed.

Lemma append_leaves_other_paths_witness :
  let w := Sample.world Sample.tree_used (3 * Sample.day) [true] Sample.cli_missing in
  let w' := (appendProjectIndexEntry "p2" (Sample.entryOf "run-7" "p2" 99) w).2 in
  segment "p2" = true ∧ segment "p1" = true ∧ segment "run-1" = true ∧
  "p1" ≠ "p2" ∧ "run-1" ≠ "by-project" ∧
  ledgerOf "p1" (fs w') = [Sample.entryOf "run-1" "p1" 50; Sample.entryOf "run-0" "p1" 10] ∧
  find_node (reportPathOf "run-1" ++ ["index.html"]) (fs w') =
    Some (File (fresh (2 * Sample.day)) (Raw "<html>1</html>")).
Proof.
  intros w w'.
  assert (segment "p2" = true) as S2 by reflexivity.
  assert (segment "p1" = true) as S1 by reflexivity.
  assert (segment "run-1" = true) as Sr by reflexivity.
  assert ("p1" ≠ "p2") as H1 by discriminate.
  assert ("run-1" ≠ "by-project") as H2 by discriminate.
  split; [exact S2|]. split; [exact S1|]. split; [exact Sr|].
  split; [exact H1|]. split; [exact H2|].
  destruct (append_leaves_other_paths "p2" (Sample.entryOf "run-7" "p2" 99) w S2)
    as (_ & _ & Hq & _ & Hr).
  subst w'. split.
  - rewrite (proj2 (Hq "p1" S1 H1)). vm_compute. reflexivity.
  - rewrite (Hr "run-1" ["index.html"] Sr H2). vm_compute. reflexivity.
Defined.











Lemma NoDup_ids_filter (P : ReportIndexEntry → Prop) `{∀ r, Decision (P r)} l :
  NoDup (id <$> l) → NoDup (id <$> filter P l).
Proof.
  induction l as [|r l IH]; [done|]. rewrite fmap_cons. intros Hnd.
  apply NoDup_cons in Hnd as [Hr Hnd]. destruct (decide (P r)).
  - rewrite filter_cons_True by done. rewrite fmap_cons. apply NoDup_cons. split; [|by apply IH].
    intros Hin. apply Hr. apply list_elem_of_fmap in Hin as (r' & -> & Hin).
    apply list_elem_of_filter in Hin as [_ Hin]. by apply list_elem_of_fmap_2.
  - rewrite filter_cons_False by done. by apply IH.
Qed.

Lemma NoDup_ids_upsert e l : NoDup (id <$> l) → NoDup (id <$> upsert e l).
Proof.
  intros Hnd. unfold upsert. rewrite fmap_cons. apply NoDup_cons.
  split; [|by apply NoDup_ids_filter].
  intros Hin. apply list_elem_of_fmap in Hin as (r & Heq & Hin).
  apply list_elem_of_filter in Hin as [Hne _]. by apply Hne.
Qed.

(** [X4] The ids of a ledger stay pairwise different: when no id occurs
    twice in a project's ledger before an append, none does after it,
    whatever the file system does during the append. *)
Theorem ledger_ids_stay_unique (projectId : string) (entry : ReportIndexEntry) (w : World) :
  NoDup (id <$> ledgerOf projectId (fs w)) →
  NoDup (id <$> ledgerOf projectId (fs (appendProjectIndexEntry projectId entry w).2)).
Proof.
  intros Hnd.
  destruct (appendProjectIndexEntry_total projectId entry w)
    as (w' & -> & [(st & cur & Hcur & Hfind)|(Hsame & _)]); cbn [snd].
  - rewrite (ledgerOf_file _ _ _ _ Hfind). apply NoDup_ids_upsert.
    destruct Hcur as [->| ->]; [constructor | done].
  - unfold ledgerOf in *. by rewrite Hsame.
Qed.

Lemma ledger_ids_stay_unique_witness :
  let w := Sample.world Sample.tree_used (3 * Sample.day) [false; true] Sample.cli_missing in
  NoDup (id <$> ledgerOf "p1" (fs w)) ∧
  NoDup (id <$> ledgerOf "p1"
           (fs (appendProjectIndexEntry "p1" (Sample.entryOf "run-0" "p1" 99) w).2)).
Proof.
  intros w.
  assert (NoDup (id <$> ledgerOf "p1" (fs w))) as Hnd.
  { change (NoDup ["run-1"; "run-0"]). apply NoDup_cons. split.
    - intros H. apply list_elem_of_singleton in H. discriminate H.
    - apply NoDup_singleton. }
  split; [exact Hnd|].
  exact (ledger_ids_stay_unique "p1" (Sample.entryOf "run-0" "p1" 99) w Hnd).
Defined.

(** *** Ledger names *)

Lemma substring_0_length (s : string) : String.substring 0 (String.length s) s = s.
Proof. induction s as [|c s IH]; [done|]. cbn. by rewrite IH. Qed.

Lemma substring_append_r (p x : string) :
  String.substring (String.length p) (String.length x) (p +:+ x) = x.
Proof. induction p as [|c p IH]; [apply substring_0_length | apply IH]. Qed.

Lemma substring_append_l (p x : string) :
  String.substring 0 (String.length p) (p +:+ x) = p.
Proof.
  induction p as [|c p IH]; [by destruct x|].
  change (String c p +:+ x) with (String c (p +:+ x)). cbn. by rewrite IH.
Qed.

Lemma substring_split (m : nat) : ∀ s : string,
  (m ≤ String.length s)%nat →
  String.substring 0 m s +:+ String.substring m (String.length s - m) s = s.
Proof.
  induction m as [|m IH]; intros s Hm.
  - rewrite Nat.sub_0_r, substring_0_length. by destruct s.
  - destruct s as [|c s]; [cbn in Hm; lia|].
    cbn in Hm. cbn [String.substring String.length Nat.sub].
    change (String c ?a +:+ ?b) with (String c (a +:+ b)). f_equal. apply IH. lia.
Qed.

Lemma endsWith_append (p x : string) : endsWith x (p +:+ x) = true.
Proof.
  unfold endsWith. rewrite length_append.
  replace (String.length x <=? String.length p + String.length x)%nat with true
    by (symmetry; apply Nat.leb_le; lia).
  replace (String.length p + String.length x - String.length x)%nat
    with (String.length p) by lia.
  rewrite substring_append_r. apply String.eqb_refl.
Qed.

Lemma basename_append (p x : string) : basename (p +:+ x) x = p.
Proof.
  unfold basename. rewrite endsWith_append, length_append.
  replace (String.length p + String.length x - String.length x)%nat
    with (String.length p) by lia.
  apply substring_append_l.
Qed.

Lemma endsWith_basename (x s : string) :
  endsWith x s = true → s = basename s x +:+ x.
Proof.
  intros H. unfold basename. rewrite H. unfold endsWith in H.
  destruct (String.length x <=? String.length s)%nat eqn:Hk; [|done].
  apply Nat.leb_le in Hk. apply String.eqb_eq in H.
  pose proof (substring_split (String.length s - String.length x) s) as Hs.
  replace (String.length s - (String.length s - String.length x))%nat
    with (String.length x) in Hs by lia.
  rewrite H in Hs. symmetry. apply Hs. lia.
Qed.

(** [X5] What [listAllProjectIndexes] lists, with a working file system:
    exactly one pair for every entry of the index directory named
    [<project>.json], made of the project id and the entries of that
    ledger (none when the ledger cannot be parsed); other names, such as
    a temporary file, give no pair.  Without an index directory the list
    is empty. *)
Theorem listAll_lists_every_ledger (w : World) :
  (∀ st es,
     faults w = [] → find_node ALLURE_INDEX_DIR (fs w) = Some (Dir st es) →
     ∃ all, (listAllProjectIndexes w).1 = Return all ∧
       (∀ q l, (q, l) ∈ all ↔ is_Some (es !! (q +:+ ".json")) ∧ l = ledgerOf q (fs w)) ∧
       NoDup all.*1) ∧
  (find_node ALLURE_INDEX_DIR (fs w) = None → listAllProjectIndexes w = (Return [], w)).
Proof.
  split.
  - intros st es Hf Hd.
    destruct (listAllProjectIndexes_spec w) as (all & w' & Hall & _ & Hspec).
    specialize (Hspec Hf st es Hd). exists all. split; [by rewrite Hall|]. subst all.
    split.
    + intros q l. rewrite list_elem_of_fmap. split.
      * intros (f & Heq & Hin). simplify_eq.
        apply list_elem_of_filter in Hin as [Hend Hin].
        rewrite <- (endsWith_basename _ _ Hend). split; [|done].
        apply list_elem_of_fmap in Hin as ([f' n] & -> & Hin).
        apply elem_of_map_to_list in Hin. cbn. eauto.
      * intros [[n Hn] ->]. exists (q +:+ ".json").
        rewrite basename_append. split; [done|].
        apply list_elem_of_filter. split; [apply endsWith_append|].
        apply (list_elem_of_fmap_2 fst _ (q +:+ ".json", n)).
        by apply elem_of_map_to_list.
    + rewrite <- list_fmap_compose. apply NoDup_fmap_2_strong.
      * intros f g Hf' Hg Heq. cbn in Heq.
        apply list_elem_of_filter in Hf' as [Hf' _].
        apply list_elem_of_filter in Hg as [Hg _].
        rewrite (endsWith_basename _ _ Hf'), (endsWith_basename _ _ Hg). by rewrite Heq.
      * apply NoDup_filter, NoDup_fst_map_to_list.
  - intros Hn. unfold listAllProjectIndexes. mred. by rewrite Hn.
Qed.

Lemma listAll_lists_every_ledger_witness :
  let w := Sample.world Sample.tree_used (3 * Sample.day) [] Sample.cli_missing in
  faults w = [] ∧
  ∃ all, (listAllProjectIndexes w).1 = Return all ∧
         ("p1", [Sample.entryOf "run-1" "p1" 50; Sample.entryOf "run-0" "p1" 10]) ∈ all ∧
         ("p2", []) ∈ all.
Proof.
  intros w. assert (faults w = []) as Hf by reflexivity. split; [exact Hf|].
  destruct (proj1 (listAll_lists_every_ledger w) _ _ Hf eq_refl) as (all & Hall & Hin & _).
  exists all. split; [exact Hall|].
  split; apply Hin; (split; [eexists; vm_compute; reflexivity | vm_compute; reflexivity]).
Defined.

(** ** The directories of the service *)

Lemma fs_update_fail sc f w c :
  faults w = [] → f (clock w) (fs w) = inl c →
  fs_update sc f w = (Throw (FsError c sc), w).
Proof.
  intros Hf Hc. unfold fs_update.
  rewrite (bind_Return _ _ _ _ _ (io_fault_none _ _ Hf)). by rewrite Hc.
Qed.

(** [mkdir -p] keeps what exists: a regular file stays as it is, a
    directory stays a directory. *)
Lemma mkdirp_keeps now p : ∀ t t' x n,
  mkdirp now p t = inr t' → find_node x t = Some n →
  match n with
  | File st d => find_node x t' = Some (File st d)
  | Dir _ _ => is_dir (find_node x t') = true
  end.
Proof.
  induction p as [|s p IH]; intros t t' x n Hm Hx.
  - destruct t as [|st es]; [done|]. cbn in Hm. simplify_eq. rewrite Hx. by destruct n.
  - destruct t as [|st es]; [done|]. cbn [mkdirp] in Hm.
    destruct x as [|a x].
    { cbv in Hx. simplify_eq.
      destruct (es !! s); [destruct (mkdirp now p n)|destruct (mkdirp now p _)];
        by simplify_eq. }
    rewrite find_node_cons in Hx.
    destruct (es !! s) as [c|] eqn:Hs.
    + destruct (mkdirp now p c) as [|c'] eqn:Hc; simplify_eq.
      rewrite find_node_cons. destruct (decide (a = s)) as [->|Hne].
      * rewrite lookup_insert_eq. rewrite Hs in Hx. by eapply IH.
      * rewrite lookup_insert_ne by done.
        destruct (es !! a); [|done]. rewrite Hx. by destruct n.
    + destruct (mkdirp now p (Dir (fresh now) ∅)) as [|c'] eqn:Hc; simplify_eq.
      rewrite find_node_cons. destruct (decide (a = s)) as [->|Hne].
      * by rewrite Hs in Hx.
      * rewrite lookup_insert_ne by done.
        destruct (es !! a); [|done]. rewrite Hx. by destruct n.
Qed.

(** One step of the form [if (!existsSync(d)) mkdirSync(d, recursive)],
    below an existing directory and with a working file system. *)
Lemma ensureDir_ok p s w :
  faults w = [] → is_dir (find_node p (fs w)) = true →
  ∃ w', ensureReportDir (join p s) w = (Return tt, w') ∧ faults w' = [] ∧
        (is_file (find_node (join p s) (fs w)) = false →
         is_dir (find_node (join p s) (fs w')) = true) ∧
        (∀ x st d, find_node x (fs w) = Some (File st d) →
                   find_node x (fs w') = Some (File st d)) ∧
        (∀ x, is_dir (find_node x (fs w)) = true → is_dir (find_node x (fs w')) = true) ∧
        (∀ x, diverges (join p s) x → find_node x (fs w') = find_node x (fs w)) ∧
        (∀ s', is_file (find_node (join (join p s) s') (fs w)) = false →
               is_file (find_node (join (join p s) s') (fs w')) = false).
Proof.
  intros Hf Hd. unfold ensureReportDir. mred.
  destruct (find_node (join p s) (fs w)) as [n|] eqn:Hn; cbn [negb].
  { exists w. repeat split; try done. rewrite Hn. by destruct n. }
  destruct (mkdirp_join_succeeds (clock w) p s (fs w) Hd) as [t Hm]; [by rewrite Hn|].
  erewrite fs_update_ok; [|done|apply Hm].
  eexists. split; [done|]. split; [done|]. cbn [fs with_fs].
  split; [intros _; by eapply mkdirp_find|].
  split; [intros x st d Hx; apply (mkdirp_keeps _ _ _ _ _ _ Hm Hx)|].
  split.
  { intros x Hx. destruct (find_node x (fs w)) as [[|st es]|] eqn:Hfind; try done.
    apply (mkdirp_keeps _ _ _ _ _ _ Hm Hfind). }
  split; [intros x Hx; by eapply mkdirp_diverges|].
  intros s' _. rewrite find_node_join, (mkdirp_join_new _ _ _ _ _ Hn Hm).
  by rewrite lookup_empty.
Qed.

Lemma ensureDirectories_eq :
  ensureDirectories =
  (ensureReportDir (join [] "allure-results") ;;;
   ensureReportDir (join [] "allure-reports") ;;;
   ensureReportDir (join (join [] "allure-reports") "by-project")).
Proof. done. Qed.

(** [X6] [ensureDirectories], run by the constructor of the service.
    When the three directories exist it touches nothing and makes no
    throwing call.  With a working file system and no regular file under
    one of the three names it returns, the raw-result pool, the reports
    root and the index directory then exist as directories, every regular
    file is as before and every directory is still one; a second run
    changes nothing.  A regular file named [allure-reports] makes it
    throw [ENOTDIR]. *)
Theorem ensureDirectories_creates (w : World) :
  (is_Some (find_node ALLURE_RESULTS_DIR (fs w)) →
   is_Some (find_node ALLURE_REPORTS_DIR (fs w)) →
   is_Some (find_node ALLURE_INDEX_DIR (fs w)) →
   ensureDirectories w = (Return tt, w)) ∧
  (faults w = [] → is_dir (find_node [] (fs w)) = true →
   is_file (find_node ALLURE_RESULTS_DIR (fs w)) = false →
   is_file (find_node ALLURE_REPORTS_DIR (fs w)) = false →
   is_file (find_node ALLURE_INDEX_DIR (fs w)) = false →
   ∃ w', ensureDirectories w = (Return tt, w') ∧
         is_dir (find_node ALLURE_RESULTS_DIR (fs w')) = true ∧
         is_dir (find_node ALLURE_REPORTS_DIR (fs w')) = true ∧
         is_dir (find_node ALLURE_INDEX_DIR (fs w')) = true ∧
         ensureDirectories w' = (Return tt, w') ∧
         (∀ x st d, find_node x (fs w) = Some (File st d) →
                    find_node x (fs w') = Some (File st d)) ∧
         (∀ x, is_dir (find_node x (fs w)) = true → is_dir (find_node x (fs w')) = true)) ∧
  (faults w = [] → is_file (find_node ALLURE_REPORTS_DIR (fs w)) = true →
   (ensureDirectories w).1 = Throw (FsError ENOTDIR "mkdir")).
Proof.
  assert (∀ v, is_Some (find_node ALLURE_RESULTS_DIR (fs v)) →
               is_Some (find_node ALLURE_REPORTS_DIR (fs v)) →
               is_Some (find_node ALLURE_INDEX_DIR (fs v)) →
               ensureDirectories v = (Return tt, v)) as Hnoop.
  { intros v [n1 H1] [n2 H2] [n3 H3]. unfold ensureDirectories. mred.
    rewrite H1. mred. cbn [negb]. rewrite H2. cbn [negb]. rewrite H3. done. }
  assert (diverges (join [] "allure-results") ALLURE_REPORTS_DIR) as Hd1
    by (by exists [], "allure-results", "allure-reports", [], []).
  assert (diverges (join [] "allure-results") ALLURE_INDEX_DIR) as Hd2
    by (by exists [], "allure-results", "allure-reports", [], ["by-project"]).
  split; [apply Hnoop|]. split.
  - intros Hf Hroot Hn1 Hn2 Hn3. rewrite ensureDirectories_eq.
    destruct (ensureDir_ok [] "allure-results" w Hf Hroot)
      as (w1 & H1 & Hf1 & Hdir1 & Hfile1 & Hkeep1 & Hfr1 & _).
    destruct (ensureDir_ok [] "allure-reports" w1 Hf1 (Hkeep1 _ Hroot))
      as (w2 & H2 & Hf2 & Hdir2 & Hfile2 & Hkeep2 & _ & Hsub2).
    destruct (ensureDir_ok (join [] "allure-reports") "by-project" w2 Hf2)
      as (w3 & H3 & Hf3 & Hdir3 & Hfile3 & Hkeep3 & _ & _).
    { apply Hdir2. change (join [] "allure-reports") with ALLURE_REPORTS_DIR.
      by rewrite (Hfr1 _ Hd1). }
    exists w3. rewrite (bind_Return _ _ _ _ _ H1), (bind_Return _ _ _ _ _ H2).
    split; [done|].
    assert (is_dir (find_node ALLURE_RESULTS_DIR (fs w3)) = true) as R1
      by (apply Hkeep3, Hkeep2, Hdir1, Hn1).
    assert (is_dir (find_node ALLURE_REPORTS_DIR (fs w3)) = true) as R2.
    { apply Hkeep3, Hdir2. change (join [] "allure-reports") with ALLURE_REPORTS_DIR.
      by rewrite (Hfr1 _ Hd1). }
    assert (is_dir (find_node ALLURE_INDEX_DIR (fs w3)) = true) as R3.
    { apply Hdir3, Hsub2. change (join (join [] "allure-reports") "by-project")
        with ALLURE_INDEX_DIR. by rewrite (Hfr1 _ Hd2). }
    split; [done|]. split; [done|]. split; [done|]. split.
    { apply Hnoop.
      - by destruct (find_node ALLURE_RESULTS_DIR (fs w3)).
      - by destruct (find_node ALLURE_REPORTS_DIR (fs w3)).
      - by destruct (find_node ALLURE_INDEX_DIR (fs w3)). }
    split; [intros x st d Hx; by apply Hfile3, Hfile2, Hfile1|].
    intros x Hx. by apply Hkeep3, Hkeep2, Hkeep1.
  - intros Hf Hrep. rewrite ensureDirectories_eq.
    destruct (find_node ALLURE_REPORTS_DIR (fs w)) as [[st0 d0|]|] eqn:Hrep0; try done.
    assert (is_dir (find_node [] (fs w)) = true) as Hroot.
    { destruct (fs w) as [|st es]; [done|done]. }
    destruct (ensureDir_ok [] "allure-results" w Hf Hroot)
      as (w1 & H1 & Hf1 & _ & Hfile1 & _ & _ & _).
    pose proof (Hfile1 _ _ _ Hrep0) as Hrep1.
    rewrite (bind_Return _ _ _ _ _ H1).
    unfold ensureReportDir at 1. mred.
    change (join [] "allure-reports") with ALLURE_REPORTS_DIR. rewrite Hrep1. cbn [negb].
    unfold ensureReportDir. mred.
    change (join ALLURE_REPORTS_DIR "by-project") with ALLURE_INDEX_DIR.
    assert (find_node ALLURE_INDEX_DIR (fs w1) = None) as ->.
    { unfold ALLURE_INDEX_DIR. by rewrite find_node_join, Hrep1. }
    cbn [negb]. erewrite fs_update_fail; [done|done|].
    destruct (fs w1) as [|st es]; [done|]. unfold ALLURE_REPORTS_DIR in Hrep1.
    rewrite find_node_cons in Hrep1. cbn [ALLURE_INDEX_DIR ALLURE_REPORTS_DIR join app mkdirp].
    destruct (es !! "allure-reports") as [[]|]; by simplify_eq.
Qed.

Lemma ensureDirectories_creates_witness :
  let w := Sample.world (Sample.dir 0 []) 5 [] Sample.cli_missing in
  faults w = [] ∧ is_dir (find_node [] (fs w)) = true ∧
  is_file (find_node ALLURE_RESULTS_DIR (fs w)) = false ∧
  is_file (find_node ALLURE_REPORTS_DIR (fs w)) = false ∧
  is_file (find_node ALLURE_INDEX_DIR (fs w)) = false ∧
  ∃ w', ensureDirectories w = (Return tt, w') ∧
        is_dir (find_node ALLURE_INDEX_DIR (fs w')) = true ∧
        ensureDirectories w' = (Return tt, w').
Proof.
  intros w.
  assert (faults w = []) as Hf by reflexivity.
  assert (is_dir (find_node [] (fs w)) = true) as Hroot by reflexivity.
  assert (is_file (find_node ALLURE_RESULTS_DIR (fs w)) = false) as H1
    by (vm_compute; reflexivity).
  assert (is_file (find_node ALLURE_REPORTS_DIR (fs w)) = false) as H2
    by (vm_compute; reflexivity).
  assert (is_file (find_node ALLURE_INDEX_DIR (fs w)) = false) as H3
    by (vm_compute; reflexivity).
  split; [exact Hf|]. split; [exact Hroot|]. split; [exact H1|]. split; [exact H2|].
  split; [exact H3|].
  destruct (proj1 (proj2 (ensureDirectories_creates w)) Hf Hroot H1 H2 H3)
    as (w' & Hr & _ & _ & Hd & Hagain & _).
  exists w'. split; [exact Hr|]. split; [exact Hd | exact Hagain].
Defined.

(** ** The retention sweep *)

(** The loop of the sweep over entries that exist, with a working file
    system: it returns; the expired entries are gone and every path that
    branches off from all of them is as before. *)
Lemma sweep_forEach days now names : ∀ w,
  faults w = [] → NoDup names →
  Forall (λ name, is_Some (find_node (join ALLURE_REPORTS_DIR name) (fs w))) names →
  ∃ w',
    forEach (λ report,
               let* stats := statSync (join ALLURE_REPORTS_DIR report) in
               when (days * 24 * 60 * 60 * 1000 <? now - mtimeMs stats)
                 (rmSync (join ALLURE_REPORTS_DIR report) ;;;
                  logger INFO ("Cleaned up old Allure report: " +:+ report)))
            names w = (Return tt, w') ∧
    faults w' = [] ∧
    (∀ x, (∀ name n, name ∈ names →
             find_node (join ALLURE_REPORTS_DIR name) (fs w) = Some n →
             expired days now n = true → diverges (join ALLURE_REPORTS_DIR name) x) →
          find_node x (fs w') = find_node x (fs w)) ∧
    (∀ name n, name ∈ names →
       find_node (join ALLURE_REPORTS_DIR name) (fs w) = Some n →
       expired days now n = true →
       find_node (join ALLURE_REPORTS_DIR name) (fs w') = None).
Proof.
  induction names as [|a l IH]; intros w Hf Hnd Hall.
  { exists w. split; [done|]. split; [done|]. split; [done|].
    intros name n Hin. by apply elem_of_nil in Hin. }
  apply NoDup_cons in Hnd as [Ha Hnd]. apply Forall_cons in Hall as [[n Hn] Hall].
  cbn [forEach].
  assert (∃ w1,
    (let* stats := statSync (join ALLURE_REPORTS_DIR a) in
     when (days * 24 * 60 * 60 * 1000 <? now - mtimeMs stats)
       (rmSync (join ALLURE_REPORTS_DIR a) ;;;
        logger INFO ("Cleaned up old Allure report: " +:+ a))) w = (Return tt, w1) ∧
    faults w1 = [] ∧
    fs w1 = if expired days now n
            then remove (clock w) (join ALLURE_REPORTS_DIR a) (fs w) else fs w)
    as (w1 & Hstep & Hf1 & Hfs1).
  { unfold statSync. erewrite bind_Return; [|apply fs_query_ok; [done|]; unfold stat; by rewrite Hn].
    unfold expired. destruct (_ <? _); cbn [when].
    - unfold rmSync. erewrite bind_Return; [|by apply fs_update_ok].
      eexists. split; [done|]. done.
    - by exists w. }
  rewrite (bind_Return _ _ _ _ _ Hstep).
  assert (∀ name, name ≠ a →
            find_node (join ALLURE_REPORTS_DIR name) (fs w1) =
            find_node (join ALLURE_REPORTS_DIR name) (fs w)) as K.
  { intros name Hne. rewrite Hfs1. destruct (expired days now n); [|done].
    apply remove_diverges, diverges_siblings. congruence. }
  assert (∀ name, name ∈ l → name ≠ a) as Hla by (intros name Hin ->; done).
  destruct (IH w1 Hf1 Hnd) as (w' & Hrun & Hf' & Hframe & Hgone).
  { apply Forall_forall. rewrite Forall_forall in Hall.
    intros name Hin. rewrite K by auto. by apply Hall. }
  exists w'. split; [done|]. split; [done|].
  assert (∀ x, (∀ name n0, name ∈ a :: l →
                  find_node (join ALLURE_REPORTS_DIR name) (fs w) = Some n0 →
                  expired days now n0 = true → diverges (join ALLURE_REPORTS_DIR name) x) →
               find_node x (fs w') = find_node x (fs w)) as Hframe'.
  { intros x Hx. rewrite Hframe.
    - rewrite Hfs1. destruct (expired days now n) eqn:He; [|done].
      apply remove_diverges. apply (Hx a n); [left|done|done].
    - intros name n0 Hin Hn0 He. rewrite K in Hn0 by auto.
      apply (Hx name n0); [by right|done|done]. }
  split; [done|].
  intros name n0 Hin Hn0 He. apply elem_of_cons in Hin as [->|Hin].
  - rewrite Hn in Hn0. simplify_eq. rewrite Hframe.
    + rewrite Hfs1, He. apply remove_find.
    + intros name n1 Hin _ _. apply diverges_siblings. auto.
  - apply (Hgone name n0); [done| |done]. rewrite K by auto. done.
Qed.

Lemma keeps_cleanupOldReports C daysToKeep :
  keeps C (λ x, ∃ a q, x = a :: q ∧ a ≠ "allure-reports") (cleanupOldReports daysToKeep).
Proof.
  unfold cleanupOldReports, readdirSync, statSync, rmSync. solve_keeps.
  apply keeps_fs_update. intros now t t' H x (b & q & -> & Hne). simplify_eq.
  apply remove_diverges. unfold join, ALLURE_REPORTS_DIR.
  eexists [], _, _, _, _. split; [reflexivity|]. split; [reflexivity|]. congruence.
Qed.

Lemma cleanupOldReports_Return daysToKeep w :
  (cleanupOldReports daysToKeep w).1 = Return tt.
Proof.
  unfold cleanupOldReports, try_catch.
  match goal with |- context [bind ?m ?k w] => by destruct (bind m k w) as [[[]|e] w1] end.
Qed.

(** The sweep with a working file system, entry by entry. *)
Lemma cleanupOldReports_sweep daysToKeep w st es :
  faults w = [] → find_node ALLURE_REPORTS_DIR (fs w) = Some (Dir st es) →
  ∀ name,
    match es !! name with
    | Some n =>
        if expired daysToKeep (clock w) n
        then find_node (join ALLURE_REPORTS_DIR name) (fs (cleanupOldReports daysToKeep w).2)
             = None
        else ∀ q, find_node (join ALLURE_REPORTS_DIR name ++ q)
                    (fs (cleanupOldReports daysToKeep w).2) = find_node q n
    | None => find_node (join ALLURE_REPORTS_DIR name) (fs (cleanupOldReports daysToKeep w).2)
              = None
    end.
Proof.
  intros Hf Hroot name.
  destruct (sweep_forEach daysToKeep (clock w) (map_to_list es).*1 w Hf)
    as (w1 & Hrun & _ & Hframe & Hgone).
  { apply NoDup_fst_map_to_list. }
  { apply Forall_forall. intros name' Hin.
    apply list_elem_of_fmap in Hin as ([f n] & -> & Hin).
    apply elem_of_map_to_list in Hin. cbn [fst].
    rewrite (find_node_root_entry _ _ _ _ _ Hroot Hin). eauto. }
  assert (fs (cleanupOldReports daysToKeep w).2 = fs w1) as ->.
  { unfold cleanupOldReports, try_catch.
    rewrite (bind_Return Date_now _ w (clock w) w) by done.
    erewrite bind_Return;
      [|unfold readdirSync; apply fs_query_ok; [done|unfold readdir; by rewrite Hroot]].
    by rewrite Hrun. }
  assert (∀ name' n, find_node (join ALLURE_REPORTS_DIR name') (fs w) = Some n →
                     es !! name' = Some n ∧ name' ∈ (map_to_list es).*1) as Hentry.
  { intros name' n Hn. rewrite find_node_join, Hroot in Hn. split; [done|].
    apply (list_elem_of_fmap_2 fst _ (name', n)). by apply elem_of_map_to_list. }
  destruct (es !! name) as [n|] eqn:Hname.
  + pose proof (find_node_root_entry _ _ _ _ _ Hroot Hname) as Hn.
    destruct (expired daysToKeep (clock w) n) eqn:He.
    * apply (Hgone name n); [by apply (Hentry name n)|done|done].
    * intros q. rewrite Hframe.
      { by rewrite find_node_app, Hn. }
      intros name' n' _ Hn' He'. unfold join. rewrite <- (assoc_L (++)).
      exists ALLURE_REPORTS_DIR, name', name, [], q. split; [done|]. split; [done|].
      intros ->. destruct (Hentry _ _ Hn') as [Hes _]. congruence.
  + rewrite Hframe; [by rewrite find_node_join, Hroot|].
    intros name' n' _ Hn' _. apply diverges_siblings.
    intros ->. destruct (Hentry _ _ Hn') as [Hes _]. congruence.
Qed.

(** [X7] The retention sweep in general.  It never throws and never
    touches a path outside the reports root, whatever the file system
    does.  With a working file system every entry of the reports root
    whose modification time is more than [daysToKeep] days back is
    removed, whatever its name; every other entry is kept with all it
    holds, and no entry appears. *)
Theorem cleanup_sweeps_expired (daysToKeep : Z) (w : World) :
  let w' := (cleanupOldReports daysToKeep w).2 in
  (cleanupOldReports daysToKeep w).1 = Return tt ∧
  (∀ a q, a ≠ "allure-reports" → find_node (a :: q) (fs w') = find_node (a :: q) (fs w)) ∧
  (∀ st es,
     faults w = [] → find_node ALLURE_REPORTS_DIR (fs w) = Some (Dir st es) →
     ∀ name,
       match es !! name with
       | Some n =>
           if expired daysToKeep (clock w) n
           then find_node (join ALLURE_REPORTS_DIR name) (fs w') = None
           else ∀ q, find_node (join ALLURE_REPORTS_DIR name ++ q) (fs w') = find_node q n
       | None => find_node (join ALLURE_REPORTS_DIR name) (fs w') = None
       end).
Proof.
  intros w'. split; [|split].
  - apply cleanupOldReports_Return.
  - intros a q Hne.
    destruct (keeps_cleanupOldReports (λ _, True) daysToKeep w
                (cleanupOldReports daysToKeep w).1 w' I) as [Hk _].
    { subst w'. by destruct (cleanupOldReports daysToKeep w). }
    apply Hk. eauto.
  - intros st es Hf Hroot. exact (cleanupOldReports_sweep daysToKeep w st es Hf Hroot).
Qed.

Lemma cleanup_sweeps_expired_witness :
  let w := Sample.world Sample.tree_used (9 * Sample.day) [] Sample.cli_missing in
  let w' := (cleanupOldReports 7 w).2 in
  "allure-results" ≠ "allure-reports" ∧ faults w = [] ∧
  find_node ["allure-results"] (fs w') = find_node ["allure-results"] (fs w) ∧
  find_node (join ALLURE_REPORTS_DIR "by-project") (fs w') = None ∧
  find_node (join ALLURE_REPORTS_DIR "run-1" ++ ["index.html"]) (fs w') =
    Some (File (fresh (2 * Sample.day)) (Raw "<html>1</html>")).
Proof.
  intros w w'.
  assert ("allure-results" ≠ "allure-reports") as Hne by discriminate.
  assert (faults w = []) as Hf by reflexivity.
  split; [exact Hne|]. split; [exact Hf|].
  destruct (cleanup_sweeps_expired 7 w) as (_ & Hout & Hin).
  split; [exact (Hout "allure-results" [] Hne)|].
  split.
  - exact (Hin _ _ Hf eq_refl "by-project").
  - exact (Hin _ _ Hf eq_refl "run-1" ["index.html"]).
Defined.

(** ** Report generation, continued *)

Lemma keeps_generateReport testRunId :
  keeps cli_local (beside_run testRunId) (generateReport testRunId).
Proof.
  unfold generateReport, generateFallback, generatePrimary, ensureResultFile,
    ensureReportDir, tryAllureCli, writeBasicReport, writeFileSync, mkdirSync.
  solve_keeps.
  all: first
    [ apply keeps_execSync; intros cli Hcli t x [_ Hx]; apply Hcli; exact Hx
    | apply keeps_fs_update; intros now t t' H x [Hr Hx];
      first [ exact (write_diverges _ _ _ _ _ _ Hr H)
            | exact (mkdirp_diverges _ _ _ _ _ Hx H)
            | exact (write_diverges _ _ _ _ _ _ (diverges_app_l _ _ _ Hx) H) ] ].
Qed.

Lemma beside_run_artifact testRunId other x :
  other ≠ testRunId → beside_run testRunId (reportPathOf other ++ x).
Proof.
  intros Hne. split.
  - by exists [], "allure-results", "allure-reports", [testRunId +:+ "-result.json"], (other :: x).
  - exists ["allure-reports"], testRunId, other, [], x. split; [done|]. split; [done|]. congruence.
Qed.

Lemma beside_run_result testRunId other :
  other ≠ testRunId → beside_run testRunId (resultFileOf other).
Proof.
  intros Hne. split.
  - apply diverges_siblings. intros H. by apply Hne, (append_cancel_r _ _ "-result.json").
  - by exists [], "allure-reports", "allure-results", [testRunId], [other +:+ "-result.json"].
Qed.

Lemma cli_works_local : cli_local Sample.cli_works.
Proof.
  intros results out t x Hx. unfold Sample.cli_works.
  destruct (write 0 (join out "index.html") _ t) as [|t'] eqn:Hw; [done|].
  cbn [snd]. eapply write_diverges; [|apply Hw]. by apply diverges_app_l.
Qed.

(** [X8] [generateReport] for a run whose id is a single path segment
    (so that [path.join] appends it as it is: the result file and the
    artifact directory are the entries of that name in the pool and in
    the reports root) touches nothing but these two, whatever the file
    system does and whether it returns or throws, as long as the Allure
    CLI writes below its output directory only: the artifacts and result
    files of all other runs with such an id are as before, and so is
    every ledger of a project with such an id (for a run id other than
    [by-project]). *)
Theorem generateReport_leaves_other_paths (testRunId : string) (w : World) :
  segment testRunId = true →
  cli_local (allure_cli w) →
  let w' := (generateReport testRunId w).2 in
  path_join ALLURE_REPORTS_DIR testRunId = Some (reportPathOf testRunId) ∧
  path_join ALLURE_RESULTS_DIR (testRunId +:+ "-result.json") = Some (resultFileOf testRunId) ∧
  (∀ other x, segment other = true → other ≠ testRunId →
     find_node (reportPathOf other ++ x) (fs w') =
     find_node (reportPathOf other ++ x) (fs w)) ∧
  (∀ other, segment other = true → other ≠ testRunId →
     find_node (resultFileOf other) (fs w') = find_node (resultFileOf other) (fs w)) ∧
  (testRunId ≠ "by-project" →
   ∀ q, segment q = true → ledgerOf q (fs w') = ledgerOf q (fs w)).
Proof.
  intros Hseg Hcli w'.
  destruct (keeps_generateReport testRunId w (generateReport testRunId w).1 w' Hcli)
    as [Hk _].
  { subst w'. by destruct (generateReport testRunId w). }
  destruct (service_paths_of_segment testRunId Hseg) as (Hart & Hres & _).
  split; [exact Hart|]. split; [exact Hres|]. split; [|split].
  - intros other x _ Hne. by apply Hk, beside_run_artifact.
  - intros other _ Hne. by apply Hk, beside_run_result.
  - intros Hne q _. unfold ledgerOf.
    change (getProjectIndexPath q) with (reportPathOf "by-project" ++ [q +:+ ".json"]).
    rewrite Hk; [done|]. by apply beside_run_artifact.
Qed.

Lemma generateReport_leaves_other_paths_witness :
  let w := Sample.world Sample.tree_used (3 * Sample.day) [false; true] Sample.cli_works in
  let w' := (generateReport "run-2" w).2 in
  segment "run-2" = true ∧ segment "run-1" = true ∧ segment "p1" = true ∧
  cli_local (allure_cli w) ∧ "run-1" ≠ "run-2" ∧ "run-2" ≠ "by-project" ∧
  find_node (reportPathOf "run-1" ++ ["index.html"]) (fs w') =
    Some (File (fresh (2 * Sample.day)) (Raw "<html>1</html>")) ∧
  ledgerOf "p1" (fs w') = [Sample.entryOf "run-1" "p1" 50; Sample.entryOf "run-0" "p1" 10].
Proof.
  intros w w'.
  assert (segment "run-2" = true) as S2 by reflexivity.
  assert (segment "run-1" = true) as S1 by reflexivity.
  assert (segment "p1" = true) as Sp by reflexivity.
  pose proof cli_works_local as Hcli.
  assert ("run-1" ≠ "run-2") as H1 by discriminate.
  assert ("run-2" ≠ "by-project") as H2 by discriminate.
  split; [exact S2|]. split; [exact S1|]. split; [exact Sp|].
  split; [exact Hcli|]. split; [exact H1|]. split; [exact H2|].
  destruct (generateReport_leaves_other_paths "run-2" w S2 Hcli) as (_ & _ & Ha & _ & Hl).
  subst w'. split.
  - rewrite (Ha "run-1" ["index.html"] S1 H1). vm_compute. reflexivity.
  - rewrite (Hl H2 "p1" Sp). vm_compute. reflexivity.
Defined.







(** A write below a directory that is missing from an existing one
    fails: there is no such file or directory. *)
Lemma write_below_missing now p a b d t :
  is_dir (find_node p t) = true →
  find_node (join p a) t = None →
  write now (join (join p a) b) d t = inl ENOENT.
Proof.
  unfold join. revert t. induction p as [|x p IH]; intros t Hd Hn.
  - destruct t as [|st es]; [done|]. cbn [app] in *. rewrite find_node_cons in Hn.
    cbn [write]. destruct (es !! a) as [c|]; [by destruct c|done].
  - destruct t as [|st es]; [done|]. cbn [app] in *. rewrite find_node_cons in Hd, Hn.
    cbn [write]. destruct (es !! x) as [c|] eqn:Hx; [|done].
    by rewrite (IH c Hd Hn).
Qed.

(** [X21] The command removes its output directory (it is run with
    [--clean]) and leaves nothing at the artifact path, while the reports
    root stays a directory.  With a working file system and a writable
    artifact location, whether the command succeeded or failed, the
    primary path fails at the write of the entry page, for want of the
    directory; the fallback creates the directory again and writes the
    error page.  [generateReport] returns the artifact path, and the entry
    page carries the run id and the message of that file-system error. *)
Theorem removed_output_gives_error_page (testRunId : string) (w : World) :
  let wt := (ensureReportDir (reportPathOf testRunId) (ensureResultFile testRunId w).2).2 in
  let tool := allure_cli w ALLURE_RESULTS_DIR (reportPathOf testRunId) (fs wt) in
  let err := FsError ENOENT "open" in
  faults w = [] →
  artifactWritable testRunId (fs w) →
  is_dir (find_node ALLURE_REPORTS_DIR tool.2) = true →
  find_node (reportPathOf testRunId) tool.2 = None →
  ∃ w1 w',
    generatePrimary testRunId w = (Throw err, w1) ∧
    generateReport testRunId w = (Return (path_string w (reportPathOf testRunId)), w') ∧
    is_dir (find_node (reportPathOf testRunId) (fs w')) = true ∧
    entryResource testRunId (fs w') = Some (Raw (errorHtml err testRunId)) ∧
    includes testRunId (errorHtml err testRunId) = true ∧
    includes "ENOENT: no such file or directory, open" (errorHtml err testRunId) = true.
Proof.
  intros wt tool err Hf (Hres & Hrep & Hnf & Hni) Hroot Hgone.
  destruct (ensureResultFile_ok testRunId w Hf Hres) as (w1 & H1 & Hf1 & Hfr).
  assert (∀ q, find_node (join ALLURE_REPORTS_DIR testRunId ++ q) (fs w1) =
               find_node (join ALLURE_REPORTS_DIR testRunId ++ q) (fs w)) as Hfr'.
  { intros q. unfold join. rewrite <- !(assoc_L (++)). apply Hfr. }
  destruct (ensureReportDir_ok testRunId w1 Hf1) as (w2 & H2 & Hf2 & Hd2 & Hi2).
  { specialize (Hfr []). rewrite !(right_id_L [] (++)) in Hfr. by rewrite Hfr. }
  { specialize (Hfr' []). rewrite !(right_id_L [] (++)) in Hfr'.
    unfold reportPathOf. by rewrite Hfr'. }
  { unfold indexHtmlOf, reportPathOf, join at 1. by rewrite Hfr'. }
  destruct (tryAllureCli_spec (reportPathOf testRunId) w2) as (b & w3 & H3 & Hfs3 & Hb & Hf3).
  pose proof (stable_ensureResultFile _ _ _ _ H1) as (_ & Hcwd1 & Hc1).
  pose proof (stable_ensureReportDir _ _ _ _ H2) as (_ & Hcwd2 & Hc2).
  pose proof (stable_tryAllureCli _ _ _ _ H3) as (_ & Hcwd3 & Hc3).
  assert (allure_cli w2 = allure_cli w) as Hcw by congruence.
  rewrite Hcw in Hfs3.
  assert (wt = w2) as Hwt by (subst wt; rewrite H1; cbn [snd]; by rewrite H2).
  subst tool. rewrite Hwt in *. rewrite <- Hfs3 in Hroot, Hgone.
  assert (faults w3 = []) as Hf3' by congruence.
  (* the primary path fails at the write of the entry page *)
  assert (writeBasicReport testRunId b w3 = (Throw err, w3)) as H4.
  { unfold writeBasicReport, existsSync. mred.
    assert (find_node (join (reportPathOf testRunId) "index.html") (fs w3) = None) as ->.
    { rewrite find_node_join. by rewrite Hgone. }
    rewrite orb_true_r. cbn [when].
    unfold writeFileSync.
    rewrite (fs_update_fail _ _ w3 ENOENT); [done|done|].
    by apply write_below_missing. }
  assert (generatePrimary testRunId w = (Throw err, w3)) as Hprim.
  { unfold generatePrimary.
    rewrite (bind_Return _ _ _ _ _ H1), (bind_Return _ _ _ _ _ H2),
      (bind_Return _ _ _ _ _ H3). by rewrite (bind_Throw _ _ _ _ _ H4). }
  (* the fallback succeeds *)
  set (wl := with_logs (logs w3 ++ [(ERROR, "Error generating Allure report:")]) w3).
  destruct (ensureReportDir_ok testRunId wl) as (w5 & H5 & Hf5 & Hd5 & Hi5);
    [done|done|cbn [fs wl with_logs]; by rewrite Hgone| |].
  { cbn [fs wl with_logs]. unfold indexHtmlOf. rewrite find_node_join. by rewrite Hgone. }
  destruct (write_join_succeeds (clock w5) (reportPathOf testRunId) "index.html"
              (Raw (errorHtml err testRunId)) (fs w5) Hd5 Hi5) as [t6 Hw6].
  assert (∃ s w', generateFallback err testRunId wl = (Return s, w')) as (s & w' & Hfb).
  { unfold generateFallback. rewrite (bind_Return _ _ _ _ _ H5).
    unfold writeFileSync. erewrite (bind_Return (fs_update _ _));
      [|apply fs_update_ok; [done|apply Hw6]].
    unfold path_of. eauto. }
  assert (generateReport testRunId w = (Return s, w')) as Hgen.
  { unfold generateReport, try_catch at 1. rewrite Hprim. rewrite bind_logger.
    fold wl. unfold try_catch. by rewrite Hfb. }
  destruct (generateReport_Return _ _ _ _ Hgen) as [-> Hd].
  apply generateFallback_Return in Hfb as (_ & _ & He).
  exists w3, w'. split; [done|]. split; [done|]. split; [done|]. split; [done|].
  split; [apply errorHtml_has_run_id|]. exact (errorHtml_has_message err testRunId).
Qed.

Lemma removed_output_gives_error_page_witness :
  let w := Sample.world Sample.tree_empty 1000 [] Sample.cli_cleans in
  faults w = [] ∧ artifactWritable "run-9" (fs w) ∧
  ∃ w', generateReport "run-9" w = (Return "/srv/app/allure-reports/run-9", w') ∧
        entryResource "run-9" (fs w') =
          Some (Raw (errorHtml (FsError ENOENT "open") "run-9")).
Proof.
  intros w.
  assert (faults w = []) as Hf by reflexivity.
  assert (artifactWritable "run-9" (fs w)) as Hw by (repeat split; vm_compute; reflexivity).
  split; [exact Hf|]. split; [exact Hw|].
  pose proof (removed_output_gives_error_page "run-9" w) as H. cbv zeta in H.
  destruct (H Hf Hw) as (w1 & w' & _ & Hgen & _ & He & _).
  - vm_compute. reflexivity.
  - vm_compute. reflexivity.
  - exists w'. split; [exact Hgen|exact He].
Defined.

(** ** The request handlers *)

Lemma truthy_nonempty (s : string) : s ≠ EmptyString → truthy s = true.
Proof. by destruct s. Qed.

Lemma checkOwner_passes db userId testRunId w :
  ownerCheckPasses db userId testRunId →
  Controller.checkOwner db userId testRunId w = (Return true, w).
Proof.
  unfold ownerCheckPasses, Controller.checkOwner. destruct (present userId) as [uid|]; [|done].
  intros [Hon Hrows]. unfold db_query. rewrite Hon.
  destruct (Controller.selectOwned db testRunId uid); done.
Qed.

(** The block that records a report returns, whatever the database and
    the file system do; the statement it ran is the update, when the
    database could run it. *)
Lemma recordReport_Return db col testRunId url w :
  ∃ w', Controller.recordReport db col testRunId url w =
        (Return (if online db && col
                 then [Controller.SetExecutionReportUrl testRunId url] else []), w').
Proof.
  unfold Controller.recordReport.
  match goal with
  | |- context [bind (try_catch ?m ?h) ?k] =>
      assert (∃ w1, try_catch m h w =
                    (Return (if online db && col
                             then [Controller.SetExecutionReportUrl testRunId url] else []), w1))
        as [w1 H1]
  end.
  { unfold Controller.db_update, try_catch. destruct (online db), col; cbn; eexists; reflexivity. }
  rewrite (bind_Return _ _ _ _ _ H1).
  match goal with
  | |- context [bind (try_catch ?m ?h) ?k] =>
      destruct (no_throw_try_catch m h (λ e, no_throw_logger _ _) w1) as ([] & w2 & H2)
  end.
  rewrite (bind_Return _ _ _ _ _ H2). eexists. reflexivity.
Qed.

(** [X10] The reply of the generate handler, case by case.  An empty run
    id is refused with 400 and a run the user does not own with 404, both
    without touching anything; an unreachable database at the ownership
    check gives 500 before any report is generated.  Past the check, the
    reply is 200 with the path and the URL of the report whenever the
    service call returned, whatever the database and the index do
    afterwards; it is 500 with the message of the error exactly when the
    service call threw. *)
Theorem generate_handler_reply
    (db : Database) (reportUrlColumn : bool) (userId : option string)
    (testRunId : string) (w : World) :
  let out := Controller.generateReport db reportUrlColumn userId testRunId w in
  (testRunId = EmptyString →
   out = (Return (Controller.ReplyError 400 "Test run ID is required", []), w)) ∧
  (∀ uid, testRunId ≠ EmptyString → present userId = Some uid →
     (online db = true → Controller.selectOwned db testRunId uid = [] →
      out = (Return (Controller.ReplyError 404 "Test run not found", []), w)) ∧
     (online db = false →
      out.1 = Return (Controller.ReplyError 500 "connect ECONNREFUSED", []) ∧
      fs out.2 = fs w)) ∧
  (testRunId ≠ EmptyString → ownerCheckPasses db userId testRunId →
   match (AllureService.generateReport testRunId w).1 with
   | Return reportPath =>
       out.1 = Return (Controller.ReplyReport reportPath (reportUrlOf testRunId),
                       if online db && reportUrlColumn
                       then [Controller.SetExecutionReportUrl testRunId (reportUrlOf testRunId)]
                       else [])
   | Throw e =>
       out.1 = Return (Controller.ReplyError 500
                         (or_else (message e) "Failed to generate Execution report"), [])
   end).
Proof.
  intros out. subst out. unfold Controller.generateReport, try_catch.
  split; [by intros ->|]. split.
  - intros uid Hne Hu. rewrite (truthy_nonempty _ Hne). cbn [negb].
    unfold Controller.checkOwner, db_query. rewrite Hu. split.
    + intros Hon Hrows. by rewrite Hon, Hrows.
    + intros Hoff. by rewrite Hoff.
  - intros Hne Hpass. rewrite (truthy_nonempty _ Hne). cbn [negb].
    rewrite (bind_Return _ _ _ _ _ (checkOwner_passes _ _ _ _ Hpass)). cbn [negb].
    destruct (AllureService.generateReport testRunId w) as [[reportPath|e] w1] eqn:Hgen;
      cbn [fst].
    + rewrite (bind_Return _ _ _ _ _ Hgen).
      rewrite (bind_Return _ _ _ _ _ (getReportUrl_eq _ _)).
      apply generateReport_Return in Hgen as [_ Hd].
      destruct (find_node (reportPathOf testRunId) (fs w1)); [|done].
      rewrite (truthy_nonempty _ (reportUrlOf_nonempty _)).
      destruct (recordReport_Return db reportUrlColumn testRunId (reportUrlOf testRunId) w1)
        as [w2 Hrec].
      by rewrite (bind_Return _ _ _ _ _ Hrec).
    + by rewrite (bind_Throw _ _ _ _ _ Hgen).
Qed.

Lemma generate_handler_reply_witness :
  let w := Sample.world Sample.tree_empty 1000 [] Sample.cli_missing in
  "run-1" ≠ EmptyString ∧ ownerCheckPasses Sample.db (Some "u1") "run-1" ∧
  (Controller.generateReport Sample.db false (Some "u1") "run-1" w).1 =
    Return (Controller.ReplyReport "/srv/app/allure-reports/run-1"
              "/allure-reports/run-1/index.html", []) ∧
  present (Some "u2") = Some "u2" ∧ online Sample.db = true ∧
  Controller.selectOwned Sample.db "run-1" "u2" = [] ∧
  Controller.generateReport Sample.db false (Some "u2") "run-1" w =
    (Return (Controller.ReplyError 404 "Test run not found", []), w).
Proof.
  intros w.
  assert ("run-1" ≠ EmptyString) as Hne by discriminate.
  assert (ownerCheckPasses Sample.db (Some "u1") "run-1") as Hpass.
  { split; [reflexivity|]. vm_compute. discriminate. }
  split; [exact Hne|]. split; [exact Hpass|].
  split.
  - pose proof (proj2 (proj2 (generate_handler_reply Sample.db false (Some "u1") "run-1" w))
                  Hne Hpass) as H.
    assert ((AllureService.generateReport "run-1" w).1 = Return "/srv/app/allure-reports/run-1")
      as E by (vm_compute; reflexivity).
    rewrite E in H. exact H.
  - split; [reflexivity|]. split; [reflexivity|]. split; [reflexivity|].
    exact (proj1 (proj1 (proj2 (generate_handler_reply Sample.db false (Some "u2") "run-1" w))
                    "u2" Hne eq_refl) eq_refl eq_refl).
Defined.






(** [X12] The handlers that only read never answer 500.  The URL handler
    answers 200 with the URL built from the run id when the artifact path
    exists and 404 when it does not, and leaves the world as it is; the
    listing handler answers 200 from every world, with one record per
    entry of the reports root when the file system works and with an
    empty list when a file access failed. *)
Theorem read_handlers_never_fail (w : World) :
  (∀ testRunId,
     Controller.getReportUrl testRunId w =
     (Return (if find_node (reportPathOf testRunId) (fs w) is Some _
              then Controller.ReplyUrl (reportUrlOf testRunId)
              else Controller.ReplyError 404 "Report not found"), w)) ∧
  (∃ l w', Controller.getAllReports w = (Return (Controller.ReplyReports l), w') ∧
           fs w' = fs w ∧
           (l = [] ∨ l = listReports (fs w)) ∧
           (faults w = [] → l = listReports (fs w))).
Proof.
  split.
  - intros testRunId. unfold Controller.getReportUrl, try_catch.
    rewrite (bind_Return _ _ _ _ _ (getReportUrl_eq _ _)).
    destruct (find_node (reportPathOf testRunId) (fs w)); [|done].
    by rewrite (truthy_nonempty _ (reportUrlOf_nonempty _)).
  - destruct (getAllReports_spec w) as (l & w' & H & Hfs & Hl & Hok).
    exists l, w'. split; [|done].
    unfold Controller.getAllReports, try_catch. by rewrite (bind_Return _ _ _ _ _ H).
Qed.

Lemma read_handlers_never_fail_witness :
  let w := Sample.world Sample.tree_legacy 100 [] Sample.cli_missing in
  faults w = [] ∧
  (Controller.getReportUrl "run-1" w).1 =
    Return (Controller.ReplyUrl "/allure-reports/run-1/index.html") ∧
  (Controller.getReportUrl "run-2" w).1 =
    Return (Controller.ReplyError 404 "Report not found") ∧
  ∃ l, (Controller.getAllReports w).1 = Return (Controller.ReplyReports l) ∧
       length l = 4%nat ∧ "run-1" ∈ info_id <$> l.
Proof.
  intros w. assert (faults w = []) as Hf by reflexivity. split; [exact Hf|].
  destruct (read_handlers_never_fail w) as [Hurl (l & w' & Hall & _ & _ & Hl)].
  split; [rewrite (Hurl "run-1"); vm_compute; reflexivity|].
  split; [rewrite (Hurl "run-2"); vm_compute; reflexivity|].
  exists l. rewrite Hall. split; [reflexivity|].
  rewrite (Hl Hf). split; [reflexivity|].
  change ("run-1" ∈ ["run-3"; "run-1"; "run-0"; "by-project"]).
  apply list_elem_of_further, list_elem_of_here.
Defined.

(** [X13] The cleanup handler.  It answers 200 from every world, with a
    message that names the retention it used, and its effect is that of
    the service's sweep with that retention.  A missing [days] and
    [days = 0] both mean seven days.  A negative [days] is passed on as
    it is: with a working file system the sweep then removes every entry
    of the reports root that is not dated in the future, the index
    directory included. *)
Theorem cleanup_handler_days (days : option Z) (w : World) :
  Controller.cleanupOldReports days w =
    (Return (Controller.ReplyMessage
               ("Cleaned up reports older than " +:+
                pretty (Controller.daysOrDefault days) +:+ " days")),
     (AllureService.cleanupOldReports (Controller.daysOrDefault days) w).2) ∧
  Controller.cleanupOldReports (Some 0) w = Controller.cleanupOldReports None w ∧
  (∀ d st es name n,
     days = Some d → d < 0 → faults w = [] →
     find_node ALLURE_REPORTS_DIR (fs w) = Some (Dir st es) →
     es !! name = Some n → mtimeMs (stats_of n) ≤ clock w →
     find_node (join ALLURE_REPORTS_DIR name)
       (fs (Controller.cleanupOldReports days w).2) = None).
Proof.
  assert (∀ ds, Controller.cleanupOldReports ds w =
    (Return (Controller.ReplyMessage
               ("Cleaned up reports older than " +:+
                pretty (Controller.daysOrDefault ds) +:+ " days")),
     (AllureService.cleanupOldReports (Controller.daysOrDefault ds) w).2)) as Heq.
  { intros ds. unfold Controller.cleanupOldReports, try_catch, bind.
    pose proof (cleanupOldReports_Return (Controller.daysOrDefault ds) w) as Hr.
    destruct (AllureService.cleanupOldReports (Controller.daysOrDefault ds) w) as [r w1].
    cbn [fst] in Hr. by subst r. }
  split; [apply Heq|]. split; [by rewrite !Heq|].
  intros d st es name n -> Hd Hf Hroot Hn Hold. rewrite Heq. cbn [snd].
  assert (Controller.daysOrDefault (Some d) = d) as ->.
  { unfold Controller.daysOrDefault. destruct (d =? 0) eqn:E; [|done].
    apply Z.eqb_eq in E. lia. }
  pose proof (cleanupOldReports_sweep d w st es Hf Hroot name) as Hs.
  rewrite Hn in Hs.
  assert (expired d (clock w) n = true) as He by (unfold expired; apply Z.ltb_lt; lia).
  by rewrite He in Hs.
Qed.

Lemma cleanup_handler_days_witness :
  let w := Sample.world Sample.tree_used (3 * Sample.day) [] Sample.cli_missing in
  (Controller.cleanupOldReports (Some 0) w).1 =
    Return (Controller.ReplyMessage "Cleaned up reports older than 7 days") ∧
  -1 < 0 ∧ faults w = [] ∧
  find_node ALLURE_INDEX_DIR (fs (Controller.cleanupOldReports (Some (-1)) w).2) = None.
Proof.
  intros w.
  assert (-1 < 0) as Hd by lia.
  assert (faults w = []) as Hf by reflexivity.
  split; [rewrite (proj1 (cleanup_handler_days (Some 0) w)); vm_compute; reflexivity|].
  split; [exact Hd|]. split; [exact Hf|].
  refine (proj2 (proj2 (cleanup_handler_days (Some (-1)) w)) (-1) _ _ "by-project" _
            eq_refl Hd Hf eq_refl eq_refl _).
  vm_compute. discriminate.
Defined.

(** ** The catalog, continued *)

Lemma keeps_collectReports C S rows : keeps C S (collectReports rows).
Proof.
  induction rows as [|r rows IH]; cbn [collectReports]; [apply keeps_ret|].
  unfold getReportUrl. solve_keeps. apply IH.
Qed.

Lemma keeps_getReportsByProject C S db userId projectId :
  keeps C S (getReportsByProject db userId projectId).
Proof.
  unfold getReportsByProject, indexedResultsOf, listAllProjectIndexes, readProjectIndex,
    db_query, readFileSync, readdirSync, JSON_parse.
  solve_keeps. apply keeps_collectReports.
Qed.

(** [X14] The catalog handler beside its two main paths.  It answers
    from every world and never changes the tree.  Without a user on the
    request it answers 401 and reads nothing.  When the index yields no
    entry and the database is unreachable it answers 500 with the
    message of the database error. *)
Theorem catalog_refusals (db : Database) (userId projectId : option string) (w : World) :
  (∃ reply w', getReportsByProject db userId projectId w = (Return reply, w') ∧
               fs w' = fs w) ∧
  (present userId = None →
   getReportsByProject db userId projectId w = (Return Json401, w)) ∧
  (∀ uid, present userId = Some uid → online db = false →
     (indexedResultsOf projectId w).1 = Return [] →
     (getReportsByProject db userId projectId w).1 = Return (Json500 "connect ECONNREFUSED")).
Proof.
  split; [|split].
  - destruct (getReportsByProject db userId projectId w) as [r w'] eqn:H.
    destruct (keeps_getReportsByProject (λ _, True) (λ _, True) db userId projectId
                w r w' I H) as [Hk _].
    specialize (Hk [] I). cbv in Hk. simplify_eq.
    assert (no_throw (getReportsByProject db userId projectId)) as Hnt.
    { apply no_throw_try_catch. intros e.
      apply no_throw_bind; [apply no_throw_logger|]. intros _. apply no_throw_ret. }
    destruct (Hnt w) as (reply & w1 & H1). rewrite H in H1. simplify_eq. eauto.
  - intros Hu. unfold getReportsByProject, try_catch. by rewrite Hu.
  - intros uid Hu Hoff Hidx. unfold getReportsByProject, try_catch. rewrite Hu.
    destruct (indexedResultsOf projectId w) as [[idx|e] w1] eqn:Hi; cbn [fst] in Hidx;
      simplify_eq.
    rewrite (bind_Return _ _ _ _ _ Hi). cbn [length Nat.ltb Nat.leb].
    unfold db_query. rewrite Hoff. done.
Qed.

Lemma catalog_refusals_witness :
  let w := Sample.world Sample.tree_legacy 100 [] Sample.cli_missing in
  let db := {| AllureController.TestRun := []; Script := []; online := false |} in
  present (Some EmptyString) = None ∧
  getReportsByProject db (Some EmptyString) (Some "p1") w = (Return Json401, w) ∧
  present (Some "u1") = Some "u1" ∧ online db = false ∧
  (indexedResultsOf (Some "p1") w).1 = Return [] ∧
  (getReportsByProject db (Some "u1") (Some "p1") w).1 =
    Return (Json500 "connect ECONNREFUSED").
Proof.
  intros w db.
  assert ((indexedResultsOf (Some "p1") w).1 = Return []) as Hidx by (vm_compute; reflexivity).
  split; [reflexivity|].
  split; [exact (proj1 (proj2 (catalog_refusals db (Some EmptyString) (Some "p1") w)) eq_refl)|].
  split; [reflexivity|]. split; [reflexivity|]. split; [exact Hidx|].
  exact (proj2 (proj2 (catalog_refusals db (Some "u1") (Some "p1") w)) "u1" eq_refl eq_refl Hidx).
Defined.

(** ** The dashboard: loading with backoff *)

Lemma backoffRounds_S url backoffMs n :
  backoffRounds url backoffMs (S n) =
  [DashboardData.FetchGet url; DashboardData.FetchWarn; DashboardData.FetchDelay backoffMs]
  ++ backoffRounds url (backoffMs * 2) n.
Proof.
  unfold backoffRounds. rewrite <- cons_seq, <- fmap_S_seq. cbn [mbind list_bind app].
  rewrite Z.mul_1_r. do 3 f_equal.
  induction (seq 0 n) as [|i l IH]; [done|]. cbn [fmap list_fmap mbind list_bind app].
  rewrite IH. do 4 f_equal. rewrite Nat2Z.inj_succ, Z.pow_succ_r by lia. lia.
Qed.

(** [X15] [fetchWithBackoff] always comes back with a payload or with
    [null].  It makes at most [retries + 1] GETs: a number [n] of rounds,
    at most [retries], in which the GET was answered 429 and which wait
    [backoffMs], then twice that, and so on; then one last GET, whose
    payload is the result, or whose rejection (not a 429, or the retries
    are used up) is logged and gives [null]. *)
Theorem fetch_backoff_bounded {T : Type}
    (answers : nat → DashboardData.Answer T) (url : string)
    (retries : nat) (backoffMs : Z) (k : nat) (tr : list DashboardData.FetchEvent) :
  ∃ n, (n ≤ retries)%nat ∧
    (∀ i, (i < n)%nat → answers (k + i)%nat = DashboardData.Rejected (Some 429)) ∧
    match answers (k + n)%nat with
    | DashboardData.Payload d =>
        DashboardData.fetchWithBackoff answers url retries backoffMs k tr =
        (Return (Some d), tr ++ backoffRounds url backoffMs n ++ [DashboardData.FetchGet url])
    | DashboardData.Rejected status =>
        (n = retries ∨ status ≠ Some 429) ∧
        DashboardData.fetchWithBackoff answers url retries backoffMs k tr =
        (Return None,
         tr ++ backoffRounds url backoffMs n ++
         [DashboardData.FetchGet url; DashboardData.FetchError])
    end.
Proof.
  revert backoffMs k tr. induction retries as [|retries IH]; intros backoffMs k tr.
  - exists 0%nat. split; [done|]. split; [intros i Hi; lia|].
    rewrite Nat.add_0_r. cbn [DashboardData.fetchWithBackoff].
    destruct (answers k) as [d|status]; [done|]. split; [by left|done].
  - cbn [DashboardData.fetchWithBackoff].
    destruct (answers k) as [d|status] eqn:Hk.
    { exists 0%nat. split; [lia|]. split; [intros i Hi; lia|].
      by rewrite Nat.add_0_r, Hk. }
    destruct (DashboardData.isRateLimit status) eqn:Hrl.
    + destruct (IH (backoffMs * 2) (S k)
                  (tr ++ [DashboardData.FetchGet url; DashboardData.FetchWarn;
                          DashboardData.FetchDelay backoffMs]))
        as (n & Hn & Hrej & Hlast).
      exists (S n). split; [lia|]. split.
      * intros [|i] Hi.
        -- rewrite Nat.add_0_r, Hk. destruct status as [s|]; [|done].
           cbn in Hrl. apply Z.eqb_eq in Hrl. by subst s.
        -- replace (k + S i)%nat with (S k + i)%nat by lia. apply Hrej. lia.
      * replace (k + S n)%nat with (S k + n)%nat by lia.
        rewrite backoffRounds_S.
        destruct (answers (S k + n)%nat) as [d|status'].
        -- rewrite Hlast. by rewrite <- !(assoc_L (++)).
        -- destruct Hlast as [Hstop ->]. split; [|by rewrite <- !(assoc_L (++))].
           destruct Hstop as [->|?]; [by left | by right].
    + exists 0%nat. split; [lia|]. split; [intros i Hi; lia|].
      rewrite Nat.add_0_r, Hk. split; [|done]. right. intros ->.
      cbn in Hrl. done.
Qed.

(** ** The dashboard: the pages of runs *)

Lemma pagedRuns_eq {A} (l : list A) p size :
  DashboardData.pagedRuns l p size = take size (drop ((p - 1) * size) l).
Proof. unfold DashboardData.pagedRuns, DashboardData.slice. f_equal. lia. Qed.

Lemma ceilDiv_bounds n size :
  (0 < size)%nat →
  (n ≤ DashboardData.ceilDiv n size * size)%nat ∧
  ((0 < n)%nat → (1 ≤ DashboardData.ceilDiv n size)%nat ∧
                 ((DashboardData.ceilDiv n size - 1) * size < n)%nat).
Proof.
  intros Hs. unfold DashboardData.ceilDiv.
  pose proof (Nat.div_mod_eq (n + (size - 1)) size) as Hdm.
  pose proof (Nat.mod_upper_bound (n + (size - 1)) size ltac:(lia)) as Hm.
  destruct ((n + (size - 1)) / size)%nat as [|q] eqn:Hq; nia.
Qed.

Lemma pages_concat {A} (l : list A) size n :
  concat ((λ p, DashboardData.pagedRuns l p size) <$> seq 1 n) = take (n * size) l.
Proof.
  induction n as [|n IH]; [done|].
  rewrite seq_S, fmap_app, concat_app, IH. cbn [fmap list_fmap concat].
  rewrite (right_id_L [] (++)), pagedRuns_eq.
  replace (1 + n - 1)%nat with n by lia. rewrite take_take_drop. f_equal. lia.
Qed.

(** [X16] The pages of the run list, for a page size of at least one.
    Pages 1 to [totalPages] hold the runs in order, each run on exactly
    one page; no page holds more than [runsPageSize] runs; for a list
    that is not empty every page from 1 to [totalPages] holds a run, the
    caption [first-last] counts the runs on the page, and every later
    page is empty.  The buttons Prev and Next never leave the range 1 to
    [totalPages]. *)
Theorem pages_partition_runs {A : Type} (testRuns : list A) (runsPageSize : nat) :
  (0 < runsPageSize)%nat →
  let totalRuns := length testRuns in
  let total := DashboardData.totalPages totalRuns runsPageSize in
  concat ((λ p, DashboardData.pagedRuns testRuns p runsPageSize) <$> seq 1 total) = testRuns ∧
  (∀ p, (length (DashboardData.pagedRuns testRuns p runsPageSize) ≤ runsPageSize)%nat) ∧
  (∀ p, (1 ≤ p ≤ total)%nat → testRuns ≠ [] →
     DashboardData.pagedRuns testRuns p runsPageSize ≠ [] ∧
     (length (DashboardData.pagedRuns testRuns p runsPageSize) +
      DashboardData.showingFirst p runsPageSize totalRuns =
      DashboardData.showingLast p runsPageSize totalRuns + 1)%nat) ∧
  (∀ p, (total < p)%nat → DashboardData.pagedRuns testRuns p runsPageSize = []) ∧
  (∀ p, (1 ≤ p ≤ total)%nat →
     (1 ≤ DashboardData.prevPage p ≤ total)%nat ∧
     (1 ≤ DashboardData.nextPage total p ≤ total)%nat).
Proof.
  intros Hs totalRuns total.
  destruct (ceilDiv_bounds totalRuns runsPageSize Hs) as [Hup Hlow].
  assert (DashboardData.ceilDiv totalRuns runsPageSize ≤ total)%nat as Hge
    by (subst total; unfold DashboardData.totalPages; lia).
  assert (totalRuns ≤ total * runsPageSize)%nat as Hcover by nia.
  split; [|split; [|split; [|split]]].
  - rewrite pages_concat. by apply take_ge.
  - intros p. rewrite pagedRuns_eq, length_take. lia.
  - intros p Hp Hne.
    assert (0 < totalRuns)%nat as Hpos.
    { subst totalRuns. destruct testRuns; [done|cbn; lia]. }
    destruct (Hlow Hpos) as [H1 Hlt].
    assert (total = DashboardData.ceilDiv totalRuns runsPageSize) as Htot
      by (subst total; unfold DashboardData.totalPages; lia).
    assert ((p - 1) * runsPageSize < totalRuns)%nat as Hstart by nia.
    assert (length (DashboardData.pagedRuns testRuns p runsPageSize) =
            Nat.min runsPageSize (totalRuns - (p - 1) * runsPageSize)) as Hlen.
    { rewrite pagedRuns_eq, length_take, length_drop. done. }
    split.
    + intros Hnil. rewrite Hnil in Hlen. cbn in Hlen. lia.
    + rewrite Hlen. unfold DashboardData.showingFirst, DashboardData.showingLast.
      replace (p * runsPageSize)%nat with ((p - 1) * runsPageSize + runsPageSize)%nat by nia.
      lia.
  - intros p Hp. rewrite pagedRuns_eq, drop_ge; [by rewrite take_nil|].
    fold totalRuns. nia.
  - intros p Hp. unfold DashboardData.prevPage, DashboardData.nextPage. lia.
Qed.

Lemma pages_partition_runs_witness :
  let runs := ["r1"; "r2"; "r3"; "r4"; "r5"; "r6"; "r7"] in
  (0 < 5)%nat ∧ DashboardData.totalPages (length runs) 5 = 2%nat ∧
  DashboardData.pagedRuns runs 1 5 ++ DashboardData.pagedRuns runs 2 5 = runs ∧
  DashboardData.pagedRuns runs 2 5 = ["r6"; "r7"] ∧
  DashboardData.pagedRuns runs 3 5 = [].
Proof.
  intros runs. assert (0 < 5)%nat as Hs by lia.
  split; [exact Hs|]. split; [reflexivity|].
  destruct (pages_partition_runs runs 5 Hs) as (Hall & _ & _ & Hpast & _).
  split; [|split; [reflexivity|]].
  - rewrite <- Hall at 3. cbn [seq fmap list_fmap concat DashboardData.totalPages].
    change (DashboardData.totalPages (length runs) 5) with 2%nat.
    cbn [seq fmap list_fmap concat]. by rewrite (right_id_L [] (++)).
  - apply Hpast. change (2 < 3)%nat. lia.
Defined.

(** ** The project index: a rename that fails *)

Lemma place_file_onto_dir now p s d t st es :
  find_node p t = Some (Dir st es) → place now p (File s d) t = inl EISDIR.
Proof.
  revert t. induction p as [|a p IH]; intros t H.
  - cbv in H. by simplify_eq.
  - destruct t as [|st0 es0]; [done|]. rewrite find_node_cons in H. cbn [place].
    destruct (es0 !! a) as [c|]; [|done]. by rewrite (IH c H).
Qed.

(** [X17] An append whose rename fails.  When a directory sits where the
    ledger of the project goes, the append still returns: the directory
    is read as an unparseable ledger, the one-entry list is written to
    the temporary file, the rename onto the directory fails and is
    logged.  The temporary file stays behind with the entry, the ledger
    path is as before, and the project still reads as empty. *)
Theorem failed_rename_leaves_tmp
    (projectId : string) (entry : ReportIndexEntry) (w : World) st es :
  faults w = [] →
  find_node (getProjectIndexPath projectId) (fs w) = Some (Dir st es) →
  is_dir (find_node (tmpPathOf projectId) (fs w)) = false →
  let out := appendProjectIndexEntry projectId entry w in
  out.1 = Return tt ∧
  find_node (getProjectIndexPath projectId) (fs out.2) = Some (Dir st es) ∧
  (∃ st', find_node (tmpPathOf projectId) (fs out.2) = Some (File st' (JsonArray [entry]))) ∧
  logs out.2 =
    logs w ++ [(WARN, "Index parse error for project " +:+ projectId +:+ ", resetting:");
               (ERROR, "Failed to append index for project " +:+ projectId +:+ ":")] ∧
  (readProjectIndex projectId out.2).1 = Return [].
Proof.
  intros Hf Hled Htmp out.
  assert (readCurrent projectId w =
          (Return [], with_logs (logs w ++ [(WARN, "Index parse error for project "
                                                    +:+ projectId +:+ ", resetting:")]) w))
    as Hread.
  { unfold readCurrent. mred. rewrite Hled.
    erewrite fs_query_fail; [done|done|]. unfold read. by rewrite Hled. }
  pose proof (find_node_join_Some _ _ _ _ Hled) as Hdir.
  destruct (write_join_succeeds (clock w) ALLURE_INDEX_DIR ((projectId +:+ ".json") +:+ ".tmp")
              (JsonArray (upsert entry [])) (fs w) Hdir Htmp) as [t1 Hw].
  destruct (write_find _ _ _ _ _ Hw) as [st' Hst].
  assert (find_node (getProjectIndexPath projectId) t1 = Some (Dir st es)) as Hled1.
  { unfold getProjectIndexPath, join in *.
    erewrite write_frame; [done|apply tmp_name_ne|apply Hw]. }
  assert (rename (clock w) (tmpPathOf projectId) (getProjectIndexPath projectId) t1 = inl EISDIR)
    as Hren.
  { unfold rename, tmpPathOf. rewrite Hst. apply (place_file_onto_dir _ _ _ _ _ st es).
    unfold getProjectIndexPath, join in *.
    rewrite remove_frame by apply tmp_name_ne. done. }
  assert (out = (Return tt,
                 with_logs ((logs w ++ [(WARN, "Index parse error for project "
                                               +:+ projectId +:+ ", resetting:")]) ++
                            [(ERROR, "Failed to append index for project "
                                     +:+ projectId +:+ ":")])
                   (with_fs t1 (with_logs (logs w ++ [(WARN, "Index parse error for project "
                                               +:+ projectId +:+ ", resetting:")]) w))))
    as ->.
  { subst out. unfold appendProjectIndexEntry, try_catch, appendBody.
    rewrite (bind_Return _ _ _ _ _ Hread).
    unfold writeFileSync, renameSync.
    erewrite bind_Return; [|apply fs_update_ok; [done|apply Hw]].
    erewrite fs_update_fail; [done|done|apply Hren]. }
  cbn [fst snd fs logs with_logs with_fs].
  split; [done|]. split; [done|]. split; [by exists st'|].
  split; [by rewrite <- (assoc_L (++))|].
  match goal with |- (readProjectIndex _ ?v).1 = _ =>
    destruct (readProjectIndex_spec projectId v) as (l & w3 & -> & _ & Hl & _) end.
  cbn [fst fs with_logs with_fs] in *. destruct Hl as [->| ->]; [done|].
  unfold ledgerOf. by rewrite Hled1.
Qed.

Lemma failed_rename_leaves_tmp_witness :
  let w := Sample.world Sample.tree_blocked 50 [] Sample.cli_missing in
  let e := Sample.entryOf "run-1" "p1" 40 in
  let out := appendProjectIndexEntry "p1" e w in
  faults w = [] ∧
  find_node (getProjectIndexPath "p1") (fs w) = Some (Sample.dir 0 []) ∧
  is_dir (find_node (tmpPathOf "p1") (fs w)) = false ∧
  find_node (tmpPathOf "p1") (fs out.2) = Some (File (fresh 50) (JsonArray [e])) ∧
  (readProjectIndex "p1" out.2).1 = Return [].
Proof.
  intros w e out.
  assert (faults w = []) as Hf by reflexivity.
  assert (find_node (getProjectIndexPath "p1") (fs w) = Some (Sample.dir 0 [])) as Hled
    by (vm_compute; reflexivity).
  assert (is_dir (find_node (tmpPathOf "p1") (fs w)) = false) as Htmp
    by (vm_compute; reflexivity).
  split; [exact Hf|]. split; [exact Hled|]. split; [exact Htmp|].
  destruct (failed_rename_leaves_tmp "p1" e w _ _ Hf Hled Htmp) as (_ & _ & _ & _ & Hread).
  split; [vm_compute; reflexivity | exact Hread].
Defined.

(** ** The dashboard flow, continued *)

(** [X18] The import flow changes what the dashboard shows only when
    every request it made was answered: a flow that throws has selected
    no report and no project, switched no view and reloaded nothing, and
    has asked the generator at most once; a flow that returns has
    switched the view exactly once. *)
Theorem flow_failure_shows_nothing (api : Api) (scriptId : string) (projectId : option string) :
  let out := handleImportScriptAndGenerateReport api scriptId projectId [] in
  match out.1 with
  | Throw _ => count isStateChange out.2 = 0%nat ∧ (count isGenerate out.2 ≤ 1)%nat
  | Return _ => count isView out.2 = 1%nat
  end.
Proof.
  unfold handleImportScriptAndGenerateReport, selectRun, waitForRun, request, emit,
    try_catch, bind, ret, throw.
  flow_cases.
  all: cbn [fst snd]; unfold count; rewrite ?List.filter_app, ?length_app.
  all: repeat match goal with
         | |- context [List.filter ?f (rounds ?n ?i)] =>
             let H := fresh in
             assert (List.filter f (rounds n i) = []) as H
               by (clear; induction n as [|n IH]; [done|]; rewrite rounds_S; cbn; exact IH);
             rewrite H; clear H
         end.
  all: cbn; try split; lia.
Qed.

Lemma flow_failure_shows_nothing_witness :
  let out := handleImportScriptAndGenerateReport Sample.api_no_generator "s1" None [] in
  out.1 = Throw (Error "Network Error") ∧
  out.2 = [GetScript "s1"; GetTestRuns "s1" (Some "p1"); PostStartRun "s1";
           Delay 1000; GetTestRun "run-new"; PostGenerate "run-new"] ∧
  count isStateChange out.2 = 0%nat.
Proof.
  intros out. split; [reflexivity|]. split; [reflexivity|].
  pose proof (flow_failure_shows_nothing Sample.api_no_generator "s1" None) as H.
  cbv zeta in H. fold out in H.
  change out.1 with (@Throw unit (Error "Network Error")) in H. exact (proj1 H).
Defined.

(** ** Recorded results and stale entries *)

Lemma keeps_after_result testRunId :
  keeps cli_local (λ x, diverges (reportPathOf testRunId) x)
    (ensureReportDir (reportPathOf testRunId) ;;;
     let* useBasicReport := tryAllureCli (reportPathOf testRunId) in
     writeBasicReport testRunId useBasicReport ;;;
     let* ps := path_of (reportPathOf testRunId) in
     logger INFO ("Report generated at: " +:+ ps) ;;;
     ret ps).
Proof.
  unfold ensureReportDir, tryAllureCli, writeBasicReport, writeFileSync, mkdirSync.
  solve_keeps.
  all: first
    [ apply keeps_execSync; intros cli Hcli t x Hx; apply Hcli; exact Hx
    | apply keeps_fs_update; intros now t t' H x Hx;
      first [ exact (mkdirp_diverges _ _ _ _ _ Hx H)
            | exact (write_diverges _ _ _ _ _ _ (diverges_app_l _ _ _ Hx) H) ] ].
Qed.

Lemma keeps_generateFallback C e testRunId :
  keeps C (λ x, diverges (reportPathOf testRunId) x) (generateFallback e testRunId).
Proof.
  unfold generateFallback, ensureReportDir, writeFileSync, mkdirSync.
  solve_keeps.
  all: apply keeps_fs_update; intros now t t' H x Hx;
    first [ exact (mkdirp_diverges _ _ _ _ _ Hx H)
          | exact (write_diverges _ _ _ _ _ _ (diverges_app_l _ _ _ Hx) H) ].
Qed.

Lemma result_beside_artifact testRunId :
  diverges (reportPathOf testRunId) (resultFileOf testRunId).
Proof. by exists [], "allure-reports", "allure-results", [testRunId], [testRunId +:+ "-result.json"]. Qed.

(** What [generateReport] does to the result file of its run, given what
    its first step did. *)
Lemma generateReport_after_result testRunId w w1 r w' :
  cli_local (allure_cli w) → allure_cli w1 = allure_cli w →
  ensureResultFile testRunId w = (Return tt, w1) →
  generateReport testRunId w = (r, w') →
  find_node (resultFileOf testRunId) (fs w') = find_node (resultFileOf testRunId) (fs w1).
Proof.
  intros Hcli Hc1 H1 H. unfold generateReport in H.
  assert (cli_local (allure_cli w1)) as Hcli1 by (by rewrite Hc1).
  apply try_catch_inv in H as [(a & H & _)|(e & w2 & H & Hh)];
    unfold generatePrimary in H; rewrite (bind_Return _ _ _ _ _ H1) in H.
  - destruct (keeps_after_result testRunId w1 _ _ Hcli1 H) as [Hk _].
    apply Hk, result_beside_artifact.
  - destruct (keeps_after_result testRunId w1 _ _ Hcli1 H) as [Hk Hc2].
    rewrite bind_logger in Hh.
    assert (keeps cli_local (λ x, diverges (reportPathOf testRunId) x)
              (try_catch (generateFallback e testRunId)
                 (λ fallbackError,
                    logger ERROR "Even fallback report creation failed:" ;;;
                    throw (Error (or_else (message e) "Failed to generate Allure report")))))
      as Hkf.
    { apply keeps_try_catch; [apply keeps_generateFallback|]. intros f. solve_keeps. }
    destruct (Hkf (with_logs (logs w2 ++ [(ERROR, "Error generating Allure report:")]) w2)
                r w') as [Hk' _];
      [cbn [allure_cli with_logs]; by rewrite Hc2 | exact Hh |].
    rewrite (Hk' _ (result_beside_artifact testRunId)). cbn [fs with_logs].
    apply Hk, result_beside_artifact.
Qed.

(** [X19] [generateReport] and the recorded result of its run, for a run
    id that is a single path segment (so that [path.join] appends it as
    it is, and the result file lies in the pool and the artifact directory
    in the reports root) and a CLI that writes below its output directory
    only.  A result file that exists is left exactly as it is, whatever
    the file system does and whether the call returns or throws.  When the
    run has no result file, the call (with a working file system and an
    existing pool) leaves one behind that was never recorded: the minimal
    result, whose status is [passed]. *)
Theorem generateReport_keeps_results (testRunId : string) (w : World) :
  segment testRunId = true →
  cli_local (allure_cli w) →
  let w' := (generateReport testRunId w).2 in
  path_join ALLURE_REPORTS_DIR testRunId = Some (reportPathOf testRunId) ∧
  path_join ALLURE_RESULTS_DIR (testRunId +:+ "-result.json") = Some (resultFileOf testRunId) ∧
  (∀ n, find_node (resultFileOf testRunId) (fs w) = Some n →
        find_node (resultFileOf testRunId) (fs w') = Some n) ∧
  (faults w = [] → is_dir (find_node ALLURE_RESULTS_DIR (fs w)) = true →
   find_node (resultFileOf testRunId) (fs w) = None →
   ∃ st, find_node (resultFileOf testRunId) (fs w') =
           Some (File st (JsonObject (minimalResult testRunId (clock w) (clock w)))) ∧
         result_status (minimalResult testRunId (clock w) (clock w)) = "passed").
Proof.
  intros Hseg Hcli w'.
  assert (generateReport testRunId w = ((generateReport testRunId w).1, w')) as Hgen
    by (subst w'; by destruct (generateReport testRunId w)).
  destruct (service_paths_of_segment testRunId Hseg) as (Hart & Hres & _).
  split; [exact Hart|]. split; [exact Hres|]. split.
  - intros n Hn.
    assert (ensureResultFile testRunId w = (Return tt, w)) as H1
      by (unfold ensureResultFile; mred; by rewrite Hn).
    by rewrite (generateReport_after_result _ _ _ _ _ Hcli eq_refl H1 Hgen).
  - intros Hf Hd Hn.
    destruct (write_join_succeeds (clock w) ALLURE_RESULTS_DIR (testRunId +:+ "-result.json")
                (JsonObject (minimalResult testRunId (clock w) (clock w))) (fs w) Hd)
      as [t1 Hw]; [unfold resultFileOf in Hn; by rewrite Hn|].
    destruct (write_find _ _ _ _ _ Hw) as [st Hst].
    assert (∃ w1, ensureResultFile testRunId w = (Return tt, w1) ∧ fs w1 = t1 ∧
                  allure_cli w1 = allure_cli w) as (w1 & H1 & Hfs1 & Hc1).
    { unfold ensureResultFile. mred. rewrite Hn. cbn [negb].
      erewrite (fs_update_ok _ _ (with_logs _ w)); [|done|apply Hw].
      eexists. split; [done|]. done. }
    exists st. split; [|done].
    rewrite (generateReport_after_result _ _ _ _ _ Hcli Hc1 H1 Hgen). by rewrite Hfs1.
Qed.

Lemma generateReport_keeps_results_witness :
  let w := Sample.world Sample.tree_empty 1000 [] Sample.cli_works in
  let w' := (generateReport "run-9" w).2 in
  segment "run-9" = true ∧ cli_local (allure_cli w) ∧ faults w = [] ∧
  is_dir (find_node ALLURE_RESULTS_DIR (fs w)) = true ∧
  find_node (resultFileOf "run-9") (fs w) = None ∧
  ∃ st, find_node (resultFileOf "run-9") (fs w') =
          Some (File st (JsonObject (minimalResult "run-9" 1000 1000))).
Proof.
  intros w w'.
  assert (segment "run-9" = true) as Hseg by reflexivity.
  split; [exact Hseg|].
  pose proof cli_works_local as Hcli.
  assert (faults w = []) as Hf by reflexivity.
  assert (is_dir (find_node ALLURE_RESULTS_DIR (fs w)) = true) as Hd
    by (vm_compute; reflexivity).
  assert (find_node (resultFileOf "run-9") (fs w) = None) as Hn by (vm_compute; reflexivity).
  split; [exact Hcli|]. split; [exact Hf|]. split; [exact Hd|]. split; [exact Hn|].
  destruct (proj2 (proj2 (proj2 (generateReport_keeps_results "run-9" w Hseg Hcli))) Hf Hd Hn)
    as (st & Hst & _).
  exists st. exact Hst.
Defined.

Lemma cleanupOldReports_calm daysToKeep w st es :
  faults w = [] → find_node ALLURE_REPORTS_DIR (fs w) = Some (Dir st es) →
  faults (cleanupOldReports daysToKeep w).2 = [].
Proof.
  intros Hf Hroot.
  destruct (sweep_forEach daysToKeep (clock w) (map_to_list es).*1 w Hf)
    as (w1 & Hrun & Hf1 & _).
  { apply NoDup_fst_map_to_list. }
  { apply Forall_forall. intros name' Hin.
    apply list_elem_of_fmap in Hin as ([f n] & -> & Hin).
    apply elem_of_map_to_list in Hin. cbn [fst].
    rewrite (find_node_root_entry _ _ _ _ _ Hroot Hin). eauto. }
  unfold cleanupOldReports, try_catch.
  rewrite (bind_Return Date_now _ w (clock w) w) by done.
  erewrite bind_Return;
    [|unfold readdirSync; apply fs_query_ok; [done|unfold readdir; by rewrite Hroot]].
  by rewrite Hrun.
Qed.

(** [X20] The sweep does not prune the index.  When the sweep removes
    the artifact of a run while the index directory is recent enough to
    stay, the run's entry stays in its ledger: [getReportUrl] then gives
    the empty string for the run, and the catalog still lists the run
    with the URL of the removed report. *)
Theorem sweep_leaves_stale_entries
    (daysToKeep : Z) (db : Database) (uid p : string) (e : ReportIndexEntry) (w : World)
    st es n nb :
  faults w = [] → find_node ALLURE_REPORTS_DIR (fs w) = Some (Dir st es) →
  es !! id e = Some n → expired daysToKeep (clock w) n = true →
  es !! "by-project" = Some nb → expired daysToKeep (clock w) nb = false →
  e ∈ ledgerOf p (fs w) → uid ≠ EmptyString → p ≠ EmptyString →
  let w' := (cleanupOldReports daysToKeep w).2 in
  (getReportUrl (id e) w').1 = Return EmptyString ∧
  ledgerOf p (fs w') = ledgerOf p (fs w) ∧
  ∃ items, (getReportsByProject db (Some uid) (Some p) w').1 = Return (Json200 items) ∧
           itemOfEntry e ∈ items.
Proof.
  intros Hf Hroot Hrun Hold Hidx Hnew He Huid Hp w'.
  pose proof (cleanupOldReports_sweep daysToKeep w st es Hf Hroot (id e)) as Hs1.
  rewrite Hrun, Hold in Hs1.
  pose proof (cleanupOldReports_sweep daysToKeep w st es Hf Hroot "by-project") as Hs2.
  rewrite Hidx, Hnew in Hs2.
  pose proof (cleanupOldReports_calm daysToKeep w st es Hf Hroot) as Hf'.
  fold w' in Hs1, Hs2, Hf'.
  assert (ledgerOf p (fs w') = ledgerOf p (fs w)) as Hled.
  { unfold ledgerOf.
    change (getProjectIndexPath p) with (join ALLURE_REPORTS_DIR "by-project" ++ [p +:+ ".json"]).
    rewrite Hs2, find_node_app. by rewrite (find_node_root_entry _ _ _ _ _ Hroot Hidx). }
  split; [|split; [done|]].
  - rewrite getReportUrl_eq. cbn [fst]. unfold reportPathOf. by rewrite Hs1.
  - destruct (readProjectIndex_spec p w') as (l & w3 & Hread & _ & _ & Hl).
    destruct (Hl Hf') as [-> _]. rewrite Hled in Hread.
    exists (itemOfEntry <$> ledgerOf p (fs w)). split; [|by apply list_elem_of_fmap_2].
    unfold getReportsByProject, try_catch, indexedResultsOf, present.
    rewrite (truthy_nonempty _ Huid), (truthy_nonempty _ Hp).
    rewrite (bind_Return _ _ _ (itemOfEntry <$> ledgerOf p (fs w)) w3).
    + destruct (ledgerOf p (fs w)); [by apply elem_of_nil in He|done].
    + unfold try_catch. by rewrite (bind_Return _ _ _ _ _ Hread).
Qed.

Lemma sweep_leaves_stale_entries_witness :
  let w := Sample.world Sample.tree_stale (9 * Sample.day) [] Sample.cli_missing in
  let e := Sample.entryOf "run-1" "p1" 0 in
  let w' := (cleanupOldReports 7 w).2 in
  faults w = [] ∧ e ∈ ledgerOf "p1" (fs w) ∧
  (getReportUrl "run-1" w').1 = Return EmptyString ∧
  ∃ items, (getReportsByProject Sample.db (Some "u1") (Some "p1") w').1 =
             Return (Json200 items) ∧
           itemOfEntry e ∈ items ∧
           item_reportUrl (itemOfEntry e) = "/allure-reports/run-1/index.html".
Proof.
  intros w e w'.
  assert (faults w = []) as Hf by reflexivity.
  assert (e ∈ ledgerOf "p1" (fs w)) as He.
  { change (e ∈ [e]). apply list_elem_of_here. }
  assert ("u1" ≠ EmptyString) as Hu by discriminate.
  assert ("p1" ≠ EmptyString) as Hp by discriminate.
  split; [exact Hf|]. split; [exact He|].
  destruct (sweep_leaves_stale_entries 7 Sample.db "u1" "p1" e w _ _ _ _
              Hf eq_refl eq_refl eq_refl eq_refl eq_refl He Hu Hp)
    as (Hurl & _ & items & Hcat & Hin).
  split; [exact Hurl|]. exists items. split; [exact Hcat|]. split; [exact Hin|reflexivity].
Defined.
